(** * The entity tree of [src/app/entity.ts]

    A shallow embedding of the lifecycle engine: the base class [Entity]
    and the composites built on it.  Objects are records, methods are
    functions from the record before the call to the record after it, a
    JavaScript exception is the [Throw] case of [result].

    Conventions.
    - [console.error], [console.trace] and [console.debug] change no
      field of any entity and are left out.
    - A child of a composite is any type [C] with an [EntityLike]
      instance: the public fields and the four public methods that the
      composites use.  A composite owns its children: the model keeps the
      child objects inside the composite's lists, and a call on a child
      replaces the child at its place.
    - JavaScript numbers are integers of [Z] (frame times are whole
      milliseconds). *)

From Stdlib Require Import ZArith String List Bool Lia.
From Stdlib Require Import Decimal DecimalString.
From stdpp Require Import base option list strings gmap.
Import ListNotations.

Local Open Scope string_scope.
Local Open Scope list_scope.
Local Open Scope nat_scope.

(** ** JavaScript values *)

Set Warnings "-register-all".

(** The values that travel through [requestedTransition], transition
    parameters and configuration bags. *)
Inductive value : Type :=
| VUndefined
| VNull
| VBool (b : bool)
| VNumber (n : Z)
| VString (s : string)
| VArray (items : list value)
| VObject (props : list (string * value)).

(** [if (v)], [!v], [!!v] *)
Definition truthy (v : value) : bool :=
  match v with
  | VUndefined | VNull => false
  | VBool b => b
  | VNumber n => negb (n =? 0)%Z
  | VString s => negb (String.eqb s "")
  | VArray _ | VObject _ => true
  end.

Inductive jstype := TUndefined | TObject | TBoolean | TNumber | TString.

(** [typeof v]; functions are not [value]s, they are kept apart by the
    types that hold them. *)
Definition typeof (v : value) : jstype :=
  match v with
  | VUndefined => TUndefined
  | VNull | VArray _ | VObject _ => TObject
  | VBool _ => TBoolean
  | VNumber _ => TNumber
  | VString _ => TString
  end.

Inductive exn :=
| TypeError
| Error (message : string).

Inductive result (A : Type) :=
| Ok (a : A)
| Throw (e : exn).
Arguments Ok {A} a.
Arguments Throw {A} e.

(** [x ← r; k] runs [k] when [r] returned and passes the exception on
    when [r] threw. *)
Global Instance result_bind : MBind result := fun A B k r =>
  match r with
  | Ok a => k a
  | Throw e => Throw e
  end.
Global Instance result_ret : MRet result := fun A a => Ok a.

Fixpoint assoc (k : string) (props : list (string * value)) : value :=
  match props with
  | [] => VUndefined
  | (k', v) :: rest => if String.eqb k k' then v else assoc k rest
  end.

(** [v.k]: reading a property of [null] or [undefined] throws, a
    primitive has none of the properties used here. *)
Definition get_prop (k : string) (v : value) : result value :=
  match v with
  | VUndefined | VNull => Throw TypeError
  | VObject props => Ok (assoc k props)
  | _ => Ok VUndefined
  end.

(** [n.toString()] for an array index *)
Definition toString (n : nat) : string :=
  NilEmpty.string_of_uint (Nat.to_uint n).

(** ** Frames, listeners, configuration *)

Record FrameInfo := {
  playTime : Z;
  timeSinceStart : Z;
  timeSinceLastFrame : Z;
  timeScale : Z;
  (* booyah.GameState is declared in another file; it is only carried. *)
  gameState : string
}.

(** An emitter and a callback are objects compared by identity ([===]):
    the model names them by a number. *)
Record IEventListener := {
  emitter : nat;
  event : string;
  cb : nat
}.

Global Instance IEventListener_eq_dec : EqDecision IEventListener.
Proof. solve_decision. Defined.

(** The second argument of [processEntityConfig] is of type [any]. *)
Inductive alteredConfig :=
| ACValue (v : value)
| ACFunction (f : value -> value).

Definition processEntityConfig (entityConfig : value) (altered : alteredConfig)
  : value :=
  match altered with
  | ACValue v => if negb (truthy v) then entityConfig else v
  | ACFunction f => f entityConfig
  end.

(** ** The base class *)

Module Entity.

(** [fields] holds what a subclass adds. *)
Record t (U : Type) := mk {
  isSetup : bool;
  eventListeners : list IEventListener;
  requestedTransition : value;
  entityConfig : value;
  lastFrameInfo : option FrameInfo;
  fields : U
}.
Arguments mk {U}.
Arguments isSetup {U}.
Arguments eventListeners {U}.
Arguments requestedTransition {U}.
Arguments entityConfig {U}.
Arguments lastFrameInfo {U}.
Arguments fields {U}.

(** The state after the field initialisers of the class have run. *)
Definition new {U} (u : U) : t U :=
  mk false [] VUndefined VUndefined None u.

Definition set_isSetup {U} (b : bool) (e : t U) : t U :=
  mk b (eventListeners e) (requestedTransition e) (entityConfig e)
     (lastFrameInfo e) (fields e).
Definition set_eventListeners {U} (l : list IEventListener) (e : t U) : t U :=
  mk (isSetup e) l (requestedTransition e) (entityConfig e)
     (lastFrameInfo e) (fields e).
Definition set_requestedTransition {U} (v : value) (e : t U) : t U :=
  mk (isSetup e) (eventListeners e) v (entityConfig e)
     (lastFrameInfo e) (fields e).
Definition set_entityConfig {U} (c : value) (e : t U) : t U :=
  mk (isSetup e) (eventListeners e) (requestedTransition e) c
     (lastFrameInfo e) (fields e).
Definition set_lastFrameInfo {U} (f : option FrameInfo) (e : t U) : t U :=
  mk (isSetup e) (eventListeners e) (requestedTransition e) (entityConfig e)
     f (fields e).
Definition set_fields {U V} (u : V) (e : t U) : t V :=
  mk (isSetup e) (eventListeners e) (requestedTransition e) (entityConfig e)
     (lastFrameInfo e) u.

(** The overridable methods [_setup], [_update], [_teardown] and
    [_onSignal]: what a subclass writes, run on [this]. *)
Record Hooks (U : Type) := {
  _setup : FrameInfo -> value -> t U -> t U;
  _update : FrameInfo -> t U -> t U;
  _teardown : FrameInfo -> t U -> t U;
  _onSignal : FrameInfo -> string -> value -> t U -> t U
}.
Arguments _setup {U}.
Arguments _update {U}.
Arguments _teardown {U}.
Arguments _onSignal {U}.

(** The empty bodies of the base class. *)
Definition no_hooks {U} : Hooks U :=
  {| _setup := fun _ _ e => e;
     _update := fun _ e => e;
     _teardown := fun _ e => e;
     _onSignal := fun _ _ _ e => e |}.

Section Methods.
Context {U : Type} (h : Hooks U).

Definition setup (frameInfo : FrameInfo) (cfg : value) (e : t U) : t U :=
    let e := set_entityConfig cfg e in
    let e := set_lastFrameInfo (Some frameInfo) e in
    let e := set_isSetup true e in
    let e := set_requestedTransition VNull e in
    _setup h frameInfo cfg e.

Definition update (frameInfo : FrameInfo) (e : t U) : t U :=
    let e := set_lastFrameInfo (Some frameInfo) e in
    _update h frameInfo e.

(** [_on]: the subscription on the emitter itself belongs to the
      emitter and is not part of the entity. *)
Definition _on (em : nat) (ev : string) (c : nat) (e : t U) : t U :=
    set_eventListeners (eventListeners e ++ [Build_IEventListener em ev c]) e.

(** [_off(emitter?, event?, cb?)]: a missing argument is [None]; the
      empty event name is falsy as well. *)
Definition _off (em : option nat) (ev : option string) (c : option nat)
      (e : t U) : t U :=
    let eventIsFalsy :=
      match ev with None => true | Some s => String.eqb s "" end in
    let toRemove :=
      match c with
      | None =>
          if eventIsFalsy then
            match em with
            | None => eventListeners e
            | Some em =>
                filter (fun l => emitter l = em) (eventListeners e)
            end
          else
            filter (fun l => Some (event l) = ev) (eventListeners e)
      | Some c => filter (fun l => cb l = c) (eventListeners e)
      end in
    set_eventListeners
      (filter (fun l => l ∉ toRemove) (eventListeners e)) e.

Definition teardown (frameInfo : FrameInfo) (e : t U) : t U :=
    let e := set_lastFrameInfo (Some frameInfo) e in
    let e := _teardown h frameInfo e in
    let e := _off None None None e in
    let e := set_entityConfig VNull e in
    set_isSetup false e.

Definition onSignal (frameInfo : FrameInfo) (signal : string) (data : value)
      (e : t U) : t U :=
    let e := set_lastFrameInfo (Some frameInfo) e in
    _onSignal h frameInfo signal data e.

(** *** Runs of the caller *)

Inductive call :=
  | Setup (frameInfo : FrameInfo) (cfg : value)
  | Update (frameInfo : FrameInfo)
  | OnSignal (frameInfo : FrameInfo) (signal : string) (data : value)
  | Teardown (frameInfo : FrameInfo).

Definition step (e : t U) (c : call) : t U :=
    match c with
    | Setup f cfg => setup f cfg e
    | Update f => update f e
    | OnSignal f s d => onSignal f s d e
    | Teardown f => teardown f e
    end.

Definition run (cs : list call) (e : t U) : t U := fold_left step cs e.

(** What the caller may do between [setup] and [teardown]. *)
Definition between (c : call) : bool :=
    match c with
    | Update _ | OnSignal _ _ _ => true
    | _ => false
    end.

(** The hooks of a subclass leave the flag of the base class alone. *)
Definition keeps_isSetup : Prop :=
    (forall f cfg e, isSetup (_setup h f cfg e) = isSetup e) /\
    (forall f e, isSetup (_update h f e) = isSetup e) /\
    (forall f s d e, isSetup (_onSignal h f s d e) = isSetup e).

End Methods.
End Entity.

(** ** What a composite sees of a child *)

(** The public fields and methods of [Entity] that the composites use on
    their children.  [as_value] is the child where the source passes the
    object itself as a plain value. *)
Class EntityLike (C : Type) := {
  e_isSetup : C -> bool;
  e_requestedTransition : C -> value;
  e_setup : FrameInfo -> value -> C -> C;
  e_update : FrameInfo -> C -> C;
  e_teardown : FrameInfo -> C -> C;
  e_onSignal : FrameInfo -> string -> value -> C -> C;
  as_value : C -> value
}.

(** A subclass of [Entity] that overrides the underscore methods only. *)
Definition Entity_like {U} (h : Entity.Hooks U) : EntityLike (Entity.t U) := {|
  e_isSetup := Entity.isSetup;
  e_requestedTransition := Entity.requestedTransition;
  e_setup := Entity.setup h;
  e_update := Entity.update h;
  e_teardown := Entity.teardown h;
  e_onSignal := Entity.onSignal h;
  as_value := fun e =>
    VObject [("isSetup", VBool (Entity.isSetup e));
             ("requestedTransition", Entity.requestedTransition e);
             ("entityConfig", Entity.entityConfig e)]
|}.

(** The calls a composite makes on its children, in the order in which it
    makes them; [K] names the child (its index in a list, or its state
    name). *)
Inductive Call (K : Type) :=
| CallSetup (who : K) (cfg : value)
| CallUpdate (who : K)
| CallTeardown (who : K)
| CallOnSignal (who : K) (signal : string) (data : value).
Arguments CallSetup {K}.
Arguments CallUpdate {K}.
Arguments CallTeardown {K}.
Arguments CallOnSignal {K}.

(** ** The leaves *)

Module Leaf.

(** [NullEntity], [TransitoryEntity], [FunctionCallEntity],
    [WaitingEntity], [Block], [Decision] and [WaitForEvent], each with its
    constructor arguments.  The function of a [Decision] is known by the
    boolean it returns; the function of a [FunctionCallEntity] acts
    outside the entity. *)
Inductive kind :=
| NullEntity
| TransitoryEntity (transition : value)
| FunctionCallEntity
| WaitingEntity (wait : Z)
| Block
| Decision (f : bool)
| WaitForEvent (em : nat) (eventName : string).

Definition t := Entity.t kind.

(** [this._handleEvent], the callback that [WaitForEvent] registers. *)
Definition _handleEvent_id : nat := 0.

Definition _setup (frameInfo : FrameInfo) (cfg : value) (e : t) : t :=
  match Entity.fields e with
  | TransitoryEntity transition =>
      Entity.set_requestedTransition transition e
  | FunctionCallEntity => Entity.set_requestedTransition (VBool true) e
  | Decision f => Entity.set_requestedTransition (VBool f) e
  | WaitForEvent em eventName =>
      Entity._on em eventName _handleEvent_id e
  | _ => e
  end.

Definition _update (frameInfo : FrameInfo) (e : t) : t :=
  match Entity.fields e with
  | WaitingEntity wait =>
      if (timeSinceStart frameInfo >=? wait)%Z
      then Entity.set_requestedTransition (VBool true) e
      else e
  | _ => e
  end.

Definition hooks : Entity.Hooks kind := {|
  Entity._setup := _setup;
  Entity._update := _update;
  Entity._teardown := fun _ e => e;
  Entity._onSignal := fun _ _ _ e => e
|}.

(** [Block.done(transition = true)] *)
Definition done (transition : value) (e : t) : t :=
  Entity.set_requestedTransition transition e.

(** [WaitForEvent._handleEvent(...args)], with the value the handler
    returns for the arguments. *)
Definition _handleEvent (handled : value) (e : t) : t :=
  Entity.set_requestedTransition handled e.

Definition new (k : kind) : t := Entity.new k.

End Leaf.

Global Instance Leaf_like : EntityLike Leaf.t := Entity_like Leaf.hooks.

(** ** Alternative *)

Module Alternative.
Section WithChildren.
Context {C : Type} `{EntityLike C}.

Record entityPair := {
  entity : C;
  transition : string
}.

(** An element of the constructor's array: an entity, or an object with
    an entity and, when the property is there, a transition. *)
Inductive entry :=
| OfEntity (e : C)
| OfPair (e : C) (transition : option string).

Record fields := { entityPairs : list entityPair }.

Definition t := Entity.t fields.

(** The constructor: the transition of a pair defaults to its index,
    written as a string. *)
Definition new (entries : list entry) : t :=
  Entity.new
    {| entityPairs :=
         imap (fun key en =>
                 match en with
                 | OfEntity e => {| entity := e; transition := toString key |}
                 | OfPair e tr =>
                     {| entity := e;
                        transition := default (toString key) tr |}
                 end) entries |}.

(** The body of [for (const entityPair of this.entityPairs)] in [_setup]:
    the pairs come back with their entities set up, together with the
    value that [this.requestedTransition] holds after the loop. *)
Fixpoint setup_pairs (frameInfo : FrameInfo) (cfg : value)
    (ps : list entityPair) (rt : value) : list entityPair * value :=
  match ps with
  | [] => ([], rt)
  | p :: rest =>
      let e := e_setup frameInfo cfg (entity p) in
      let rt :=
        if truthy (e_requestedTransition e) then VString (transition p)
        else rt in
      let '(rest, rt) := setup_pairs frameInfo cfg rest rt in
      ({| entity := e; transition := transition p |} :: rest, rt)
  end.

Definition _setup (frameInfo : FrameInfo) (_ : value) (a : t) : t :=
  let '(ps, rt) :=
    setup_pairs frameInfo (Entity.entityConfig a)
      (entityPairs (Entity.fields a)) (Entity.requestedTransition a) in
  Entity.set_requestedTransition rt
    (Entity.set_fields {| entityPairs := ps |} a).

(** The same loop in [_update]. *)
Fixpoint update_pairs (frameInfo : FrameInfo)
    (ps : list entityPair) (rt : value) : list entityPair * value :=
  match ps with
  | [] => ([], rt)
  | p :: rest =>
      let e := e_update frameInfo (entity p) in
      let rt :=
        if truthy (e_requestedTransition e) then VString (transition p)
        else rt in
      let '(rest, rt) := update_pairs frameInfo rest rt in
      ({| entity := e; transition := transition p |} :: rest, rt)
  end.

Definition _update (frameInfo : FrameInfo) (a : t) : t :=
  let '(ps, rt) :=
    update_pairs frameInfo (entityPairs (Entity.fields a))
      (Entity.requestedTransition a) in
  Entity.set_requestedTransition rt
    (Entity.set_fields {| entityPairs := ps |} a).

Definition _teardown (frameInfo : FrameInfo) (a : t) : t :=
  Entity.set_fields
    {| entityPairs :=
         map (fun p => {| entity := e_teardown frameInfo (entity p);
                          transition := transition p |})
             (entityPairs (Entity.fields a)) |} a.

Definition hooks : Entity.Hooks fields := {|
  Entity._setup := _setup;
  Entity._update := _update;
  Entity._teardown := _teardown;
  Entity._onSignal := fun _ _ _ a => a
|}.

Definition setup := Entity.setup hooks.
Definition update := Entity.update hooks.
Definition teardown := Entity.teardown hooks.

(** The child of a pair has asked for a transition. *)
Definition completed (p : entityPair) : bool :=
  truthy (e_requestedTransition (entity p)).

Definition first_completed (ps : list entityPair) : option entityPair :=
  head (List.filter completed ps).

Definition last_completed (ps : list entityPair) : option entityPair :=
  last (List.filter completed ps).

End WithChildren.
Arguments entityPair C : clear implicits.
Arguments entry C : clear implicits.
Arguments fields C : clear implicits.
Arguments t C : clear implicits.
End Alternative.

(** ** Loops and arrays *)

(** [for (let i = 0; i < n; i++) body], for a body that may throw and
    leaves [n] as it is. *)
Definition for_upto {S : Type} (n : nat) (body : nat -> S -> result S) (s : S)
  : result S :=
  foldl (fun r i => s ← r; body i s) (Ok s) (seq 0 n).

(** [flags[i] = b] on an array of booleans.  Beyond the end JavaScript
    extends the array and leaves holes; a hole reads [undefined], which
    every reader here takes for false. *)
Definition array_set (i : nat) (b : bool) (flags : list bool) : list bool :=
  if (i <? length flags)%nat then <[i:=b]> flags
  else flags ++ replicate (i - length flags)%nat false ++ [b].

(** ** A frame for a child *)

(** [this.lastFrameInfo] where it is handed to a child.  The field is
    [undefined] until the first call of a public method, and the code
    then hands [undefined] to the child.  The children of the model
    take a frame: the model has nothing to hand over and stops with a
    [TypeError].  What is proved of these calls is proved of entities
    that have seen a frame. *)
Definition the_frame (lastFrameInfo : option FrameInfo) : result FrameInfo :=
  match lastFrameInfo with
  | Some frameInfo => Ok frameInfo
  | None => Throw TypeError
  end.

(** An entity handed to a method that looks it up with [indexOf]:
    [null], the element of the list at [index], or an object that is not
    in the list. *)
Inductive reference :=
| Null
| Member (index : nat)
| Stranger.

(** ** ParallelEntity *)

Module ParallelEntity.
Section WithChildren.
Context {C : Type} `{EntityLike C}.

(** The three arrays of the class; an element of [entities] can be
    [null] ([None]). *)
Record fields := {
  entities : list (option C);
  entityConfigs : list alteredConfig;
  entityIsActive : list bool;
  autoTransition : bool
}.

Definition t := Entity.t fields.

Definition trace := list (Call nat).

Definition set_entities (es : list (option C)) (fs : fields) : fields :=
  {| entities := es; entityConfigs := entityConfigs fs;
     entityIsActive := entityIsActive fs; autoTransition := autoTransition fs |}.

Definition set_entityIsActive (act : list bool) (fs : fields) : fields :=
  {| entities := entities fs; entityConfigs := entityConfigs fs;
     entityIsActive := act; autoTransition := autoTransition fs |}.

(** [this.entityConfigs[i]], [undefined] beyond the end *)
Definition config_at (i : nat) (fs : fields) : alteredConfig :=
  default (ACValue VUndefined) (entityConfigs fs !! i).

(** [this.entityIsActive[i]] as a condition *)
Definition active_at (i : nat) (fs : fields) : bool :=
  default false (entityIsActive fs !! i).

(** [this.entities[i]] for a method call on it: [null] and [undefined]
    have no methods and no fields. *)
Definition entity_at (i : nat) (fs : fields) : result C :=
  match entities fs !! i with
  | Some (Some c) => Ok c
  | _ => Throw TypeError
  end.

(** [addEntity(entity, entityConfig = null)] *)
Definition addEntity (entity : option C) (entityConfig : alteredConfig)
    (p : t) : result (t * trace) :=
  let fs := Entity.fields p in
  let i := length (entities fs) in
  let fs :=
    {| entities := entities fs ++ [entity];
       entityConfigs := entityConfigs fs ++ [entityConfig];
       entityIsActive := entityIsActive fs ++ [true];
       autoTransition := autoTransition fs |} in
  let p := Entity.set_fields fs p in
  if Entity.isSetup p then
    match entity with
    | None => Throw TypeError
    | Some c =>
        if negb (e_isSetup c) then
          match Entity.lastFrameInfo p with
          | Some frameInfo =>
              let newConfig :=
                processEntityConfig (Entity.entityConfig p) entityConfig in
              let c := e_setup frameInfo newConfig c in
              Ok (Entity.set_fields (set_entities (<[i:=Some c]> (entities fs)) fs) p,
                  [CallSetup i newConfig])
          | None => Throw TypeError
          end
        else Ok (p, [])
    end
  else Ok (p, []).

(** An element of the constructor's array: an entity, or an object with
    an entity and a configuration. *)
Inductive entry :=
| OfEntity (e : C)
| OfObject (e : option C) (entityConfig : alteredConfig).

Definition add_entry (en : entry) (p : t) : result (t * trace) :=
  match en with
  | OfEntity e => addEntity (Some e) (ACValue VNull) p
  | OfObject e cfg => addEntity e cfg p
  end.

(** The constructor; [options.autoTransition] defaults to false. *)
Definition new (entries : list entry) (autoTransition : bool) : result t :=
  foldl (fun r en => p ← r; '(p, _) ← add_entry en p; Ok p)
    (Ok (Entity.new {| entities := []; entityConfigs := [];
                       entityIsActive := []; autoTransition := autoTransition |}))
    entries.

Definition setup_body (frameInfo : FrameInfo) (cfg : value) (i : nat)
    (st : fields * trace) : result (fields * trace) :=
  let '(fs, tr) := st in
  entity ← entity_at i fs;
  let '(entity, tr) :=
    if negb (e_isSetup entity) then
      let entityConfig := processEntityConfig cfg (config_at i fs) in
      (e_setup frameInfo entityConfig entity, tr ++ [CallSetup i entityConfig])
    else (entity, tr) in
  let fs := set_entities (<[i:=Some entity]> (entities fs)) fs in
  Ok (set_entityIsActive (array_set i true (entityIsActive fs)) fs, tr).

Definition setup (frameInfo : FrameInfo) (entityConfig : value) (p : t)
  : result (t * trace) :=
  let p := Entity.setup Entity.no_hooks frameInfo entityConfig p in
  '(fs, tr) ← for_upto (length (entities (Entity.fields p)))
                (setup_body frameInfo (Entity.entityConfig p))
                (Entity.fields p, []);
  Ok (Entity.set_fields fs p, tr).

Definition update_body (frameInfo : FrameInfo) (i : nat)
    (st : fields * trace) : result (fields * trace) :=
  let '(fs, tr) := st in
  if active_at i fs then
    entity ← entity_at i fs;
    let entity := e_update frameInfo entity in
    let tr := tr ++ [CallUpdate i] in
    if truthy (e_requestedTransition entity) then
      let entity := e_teardown frameInfo entity in
      let fs := set_entities (<[i:=Some entity]> (entities fs)) fs in
      Ok (set_entityIsActive (array_set i false (entityIsActive fs)) fs,
          tr ++ [CallTeardown i])
    else Ok (set_entities (<[i:=Some entity]> (entities fs)) fs, tr)
  else Ok (fs, tr).

(** The part of [update] that [FunctionalEntity] inherits. *)
Definition update (frameInfo : FrameInfo) (p : t) : result (t * trace) :=
  let p := Entity.update Entity.no_hooks frameInfo p in
  '(fs, tr) ← for_upto (length (entities (Entity.fields p)))
                (update_body frameInfo) (Entity.fields p, []);
  let p := Entity.set_fields fs p in
  if autoTransition fs && negb (existsb (fun e => e) (entityIsActive fs))
  then Ok (Entity.set_requestedTransition (VBool true) p, tr)
  else Ok (p, tr).

Definition teardown_body (frameInfo : FrameInfo) (i : nat)
    (st : fields * trace) : result (fields * trace) :=
  let '(fs, tr) := st in
  if active_at i fs then
    entity ← entity_at i fs;
    let entity := e_teardown frameInfo entity in
    let fs := set_entities (<[i:=Some entity]> (entities fs)) fs in
    Ok (set_entityIsActive (array_set i false (entityIsActive fs)) fs,
        tr ++ [CallTeardown i])
  else Ok (fs, tr).

Definition teardown (frameInfo : FrameInfo) (p : t) : result (t * trace) :=
  '(fs, tr) ← for_upto (length (entities (Entity.fields p)))
                (teardown_body frameInfo) (Entity.fields p, []);
  Ok (Entity.teardown Entity.no_hooks frameInfo (Entity.set_fields fs p), tr).

Definition onSignal_body (frameInfo : FrameInfo) (signal : string) (data : value)
    (i : nat) (st : fields * trace) : result (fields * trace) :=
  let '(fs, tr) := st in
  if active_at i fs then
    entity ← entity_at i fs;
    let entity := e_onSignal frameInfo signal data entity in
    Ok (set_entities (<[i:=Some entity]> (entities fs)) fs,
        tr ++ [CallOnSignal i signal data])
  else Ok (fs, tr).

Definition onSignal (frameInfo : FrameInfo) (signal : string) (data : value)
    (p : t) : result (t * trace) :=
  let p := Entity.onSignal Entity.no_hooks frameInfo signal data p in
  '(fs, tr) ← for_upto (length (entities (Entity.fields p)))
                (onSignal_body frameInfo signal data) (Entity.fields p, []);
  Ok (Entity.set_fields fs p, tr).

(** [this.entities.indexOf(entity)]: [None] is [-1].  [null] is found
    where the array holds [null]. *)
Definition indexOf (entity : reference) (fs : fields) : option nat :=
  match entity with
  | Null => fst <$> list_find (fun e => e = None) (entities fs)
  | Member i =>
      match entities fs !! i with
      | Some (Some _) => Some i
      | _ => None
      end
  | Stranger => None
  end.

Definition removeEntity (entity : reference) (p : t) : result (t * trace) :=
  match indexOf entity (Entity.fields p) with
  | None => Throw (Error "Cannot find entity to remove")
  | Some index =>
      c ← entity_at index (Entity.fields p);
      tr ← (if e_isSetup c then
              frameInfo ← the_frame (Entity.lastFrameInfo p);
              (* the entity leaves the arrays: its state after the
                 tear-down is not kept *)
              let _ := e_teardown frameInfo c in
              Ok [CallTeardown index]
            else Ok []);
      let fs := Entity.fields p in
      Ok (Entity.set_fields
            {| entities := delete index (entities fs);
               entityConfigs := delete index (entityConfigs fs);
               entityIsActive := delete index (entityIsActive fs);
               autoTransition := autoTransition fs |} p, tr)
  end.

(** The body of [for (const entity of this.entities)] in
    [removeAllEntities], over the array that the loop started on. *)
Fixpoint removeAll_loop (lastFrameInfo : option FrameInfo) (i : nat)
    (es : list (option C)) : result trace :=
  match es with
  | [] => Ok []
  | None :: _ => Throw TypeError
  | Some c :: es =>
      tr ← (if e_isSetup c then
              frameInfo ← the_frame lastFrameInfo;
              let _ := e_teardown frameInfo c in
              Ok [CallTeardown i]
            else Ok []);
      tr' ← removeAll_loop lastFrameInfo (S i) es;
      Ok (tr ++ tr')
  end.

(** [removeAllEntities()]: the three arrays are replaced inside the
    loop, so they stay as they are when [entities] is empty. *)
Definition removeAllEntities (p : t) : result (t * trace) :=
  let fs := Entity.fields p in
  tr ← removeAll_loop (Entity.lastFrameInfo p) 0 (entities fs);
  match entities fs with
  | [] => Ok (p, tr)
  | _ =>
      Ok (Entity.set_fields
            {| entities := []; entityConfigs := []; entityIsActive := [];
               autoTransition := autoTransition fs |} p, tr)
  end.

(** The public methods, for runs of calls. *)
Inductive op :=
| OpSetup (frameInfo : FrameInfo) (entityConfig : value)
| OpUpdate (frameInfo : FrameInfo)
| OpOnSignal (frameInfo : FrameInfo) (signal : string) (data : value)
| OpTeardown (frameInfo : FrameInfo)
| OpAddEntity (entity : C) (entityConfig : alteredConfig)
| OpRemoveEntity (entity : reference)
| OpRemoveAllEntities.

Definition step (o : op) (p : t) : result (t * trace) :=
  match o with
  | OpSetup f cfg => setup f cfg p
  | OpUpdate f => update f p
  | OpOnSignal f sg d => onSignal f sg d p
  | OpTeardown f => teardown f p
  | OpAddEntity e cfg => addEntity (Some e) cfg p
  | OpRemoveEntity e => removeEntity e p
  | OpRemoveAllEntities => removeAllEntities p
  end.

Fixpoint run (os : list op) (p : t) : result (t * trace) :=
  match os with
  | [] => Ok (p, [])
  | o :: os =>
      '(p, tr) ← step o p;
      '(p, tr') ← run os p;
      Ok (p, tr ++ tr')
  end.

End WithChildren.
Arguments fields C : clear implicits.
Arguments t C : clear implicits.
Arguments entry C : clear implicits.
Arguments op C : clear implicits.
End ParallelEntity.

(** ** FunctionalEntity *)

Module FunctionalEntity.
Section WithChildren.
Context {C : Type} `{EntityLike C}.

Definition t := ParallelEntity.t C.

(** The five functions of the constructor, each of them optional; the
    entity they receive is [this]. *)
Record functions := {
  f_setup : option (FrameInfo -> value -> t -> t);
  f_update : option (FrameInfo -> t -> t);
  f_teardown : option (FrameInfo -> t -> t);
  f_onSignal : option (FrameInfo -> string -> value -> t -> t);
  f_requestTransition : option (FrameInfo -> t -> value)
}.

(** The constructor: [super()], then
    [for (let childEntity of childEntities) this.addEntity(null, childEntity)]. *)
Definition new (childEntities : list C) : result t :=
  foldl (fun r childEntity =>
           p ← r;
           '(p, _) ← ParallelEntity.addEntity None
                        (ACValue (as_value childEntity)) p;
           Ok p)
    (ParallelEntity.new [] false) childEntities.

Definition setup (fns : functions) (frameInfo : FrameInfo)
    (entityConfig : value) (p : t) : result (t * ParallelEntity.trace) :=
  '(p, tr) ← ParallelEntity.setup frameInfo entityConfig p;
  match f_setup fns with
  | Some g => Ok (g frameInfo entityConfig p, tr)
  | None => Ok (p, tr)
  end.

Definition update (fns : functions) (frameInfo : FrameInfo) (p : t)
  : result (t * ParallelEntity.trace) :=
  '(p, tr) ← ParallelEntity.update frameInfo p;
  let p := match f_update fns with Some g => g frameInfo p | None => p end in
  match f_requestTransition fns with
  | Some g => Ok (Entity.set_requestedTransition (g frameInfo p) p, tr)
  | None => Ok (p, tr)
  end.

Definition teardown (fns : functions) (frameInfo : FrameInfo) (p : t)
  : result (t * ParallelEntity.trace) :=
  let p := match f_teardown fns with Some g => g frameInfo p | None => p end in
  ParallelEntity.teardown frameInfo p.

End WithChildren.
Arguments functions C : clear implicits.
End FunctionalEntity.

(** ** DeflatingCompositeEntity *)

Module DeflatingCompositeEntity.
Section WithChildren.
Context {C : Type} `{EntityLike C}.

Record fields := {
  entities : list C;
  autoTransition : bool
}.

Definition t := Entity.t fields.

Definition trace := list (Call nat).

Definition set_entities (es : list C) (fs : fields) : fields :=
  {| entities := es; autoTransition := autoTransition fs |}.

(** The constructor; [options.autoTransition] defaults to true. *)
Definition new (autoTransition : bool) : t :=
  Entity.new {| entities := []; autoTransition := autoTransition |}.

Definition setup_child (frameInfo : FrameInfo) (cfg : value) (i : nat) (entity : C)
  : C * trace :=
  if negb (e_isSetup entity)
  then (e_setup frameInfo cfg entity, [CallSetup i cfg])
  else (entity, []).

Definition setup (frameInfo : FrameInfo) (entityConfig : value) (d : t)
  : t * trace :=
  let d := Entity.setup Entity.no_hooks frameInfo entityConfig d in
  let rs := imap (setup_child frameInfo entityConfig) (entities (Entity.fields d)) in
  (Entity.set_fields (set_entities (map fst rs) (Entity.fields d)) d,
   concat (map snd rs)).

(** [for (let i = 0; i < this.entities.length; ) { ... }]: an iteration
    either splices the element at [i] out or moves [i] on.  [fuel]
    bounds the number of iterations; the length of the list is enough
    (see [deflating_loop_fuel]). *)
Fixpoint update_loop (fuel : nat) (frameInfo : FrameInfo) (i : nat)
    (es : list C) (tr : trace) : list C * trace :=
  match fuel with
  | O => (es, tr)
  | S fuel =>
      match es !! i with
      | None => (es, tr)
      | Some entity =>
          let entity := e_update frameInfo entity in
          let tr := tr ++ [CallUpdate i] in
          if truthy (e_requestedTransition entity) then
            let tr :=
              if e_isSetup entity then tr ++ [CallTeardown i] else tr in
            update_loop fuel frameInfo i (delete i es) tr
          else
            update_loop fuel frameInfo (S i) (<[i:=entity]> es) tr
      end
  end.

Definition update (frameInfo : FrameInfo) (d : t) : t * trace :=
  let d := Entity.update Entity.no_hooks frameInfo d in
  let es := entities (Entity.fields d) in
  let '(es, tr) := update_loop (length es) frameInfo 0 es [] in
  let d := Entity.set_fields (set_entities es (Entity.fields d)) d in
  if autoTransition (Entity.fields d) && (length es =? 0)
  then (Entity.set_requestedTransition (VBool true) d, tr)
  else (d, tr).

Definition teardown (frameInfo : FrameInfo) (d : t) : t * trace :=
  let es := entities (Entity.fields d) in
  let d := Entity.set_fields
             (set_entities (map (e_teardown frameInfo) es) (Entity.fields d)) d in
  (Entity.teardown Entity.no_hooks frameInfo d,
   imap (fun i _ => CallTeardown i) es).

(** [addEntity(entity)] *)
Definition addEntity (entity : C) (d : t) : result (t * trace) :=
  let i := length (entities (Entity.fields d)) in
  if Entity.isSetup d && negb (e_isSetup entity) then
    match Entity.lastFrameInfo d with
    | Some frameInfo =>
        let entity := e_setup frameInfo (Entity.entityConfig d) entity in
        Ok (Entity.set_fields
              (set_entities (entities (Entity.fields d) ++ [entity])
                 (Entity.fields d)) d,
            [CallSetup i (Entity.entityConfig d)])
    | None => Throw TypeError
    end
  else
    Ok (Entity.set_fields
          (set_entities (entities (Entity.fields d) ++ [entity])
             (Entity.fields d)) d, []).

Definition onSignal (frameInfo : FrameInfo) (signal : string) (data : value)
    (d : t) : t * trace :=
  let d := Entity.onSignal Entity.no_hooks frameInfo signal data d in
  let es := entities (Entity.fields d) in
  (Entity.set_fields
     (set_entities (map (e_onSignal frameInfo signal data) es) (Entity.fields d)) d,
   imap (fun i _ => CallOnSignal i signal data) es).

(** [this.entities.indexOf(entity)]: [None] is [-1]. *)
Definition indexOf (entity : reference) (fs : fields) : option nat :=
  match entity with
  | Member i => if i <? length (entities fs) then Some i else None
  | _ => None
  end.

Definition removeEntity (entity : reference) (d : t) : result (t * trace) :=
  match indexOf entity (Entity.fields d) with
  | None => Throw (Error "Cannot find entity to remove")
  | Some index =>
      match entities (Entity.fields d) !! index with
      | None => Throw TypeError
      | Some c =>
          tr ← (if e_isSetup c then
                  frameInfo ← the_frame (Entity.lastFrameInfo d);
                  (* the entity leaves the list: its state after the
                     tear-down is not kept *)
                  let _ := e_teardown frameInfo c in
                  Ok [CallTeardown index]
                else Ok []);
          Ok (Entity.set_fields
                (set_entities (delete index (entities (Entity.fields d)))
                   (Entity.fields d)) d, tr)
      end
  end.

(** The public methods, for runs of calls. *)
Inductive op :=
| OpSetup (frameInfo : FrameInfo) (entityConfig : value)
| OpUpdate (frameInfo : FrameInfo)
| OpOnSignal (frameInfo : FrameInfo) (signal : string) (data : value)
| OpTeardown (frameInfo : FrameInfo)
| OpAddEntity (entity : C)
| OpRemoveEntity (entity : reference).

Definition step (o : op) (d : t) : result (t * trace) :=
  match o with
  | OpSetup f cfg => Ok (setup f cfg d)
  | OpUpdate f => Ok (update f d)
  | OpOnSignal f sg data => Ok (onSignal f sg data d)
  | OpTeardown f => Ok (teardown f d)
  | OpAddEntity e => addEntity e d
  | OpRemoveEntity e => removeEntity e d
  end.

Fixpoint run (os : list op) (d : t) : result (t * trace) :=
  match os with
  | [] => Ok (d, [])
  | o :: os =>
      '(d, tr) ← step o d;
      '(d, tr') ← run os d;
      Ok (d, tr ++ tr')
  end.

(** The call is not [teardown]. *)
Definition keeps_up (o : op) : bool :=
  match o with
  | OpTeardown _ => false
  | _ => true
  end.

End WithChildren.
Arguments fields C : clear implicits.
Arguments t C : clear implicits.
Arguments op C : clear implicits.
End DeflatingCompositeEntity.

(** ** SwitchingEntity *)

Module SwitchingEntity.
Section WithChildren.
Context {C : Type} `{EntityLike C}.

Record fields := {
  entities : list C;
  entityConfigs : list alteredConfig;
  activeEntityIndex : Z
}.

Definition t := Entity.t fields.

Definition trace := list (Call nat).

Definition new : t :=
  Entity.new {| entities := []; entityConfigs := []; activeEntityIndex := (-1)%Z |}.

Definition set_entities (es : list C) (fs : fields) : fields :=
  {| entities := es; entityConfigs := entityConfigs fs;
     activeEntityIndex := activeEntityIndex fs |}.

Definition set_activeEntityIndex (i : Z) (fs : fields) : fields :=
  {| entities := entities fs; entityConfigs := entityConfigs fs;
     activeEntityIndex := i |}.

(** [this.entities[i]] for a method call on it *)
Definition entity_at (i : Z) (fs : fields) : result C :=
  if (i <? 0)%Z then Throw TypeError
  else match entities fs !! Z.to_nat i with
       | Some c => Ok c
       | None => Throw TypeError
       end.

Definition config_at (i : Z) (fs : fields) : alteredConfig :=
  if (i <? 0)%Z then ACValue VUndefined
  else default (ACValue VUndefined) (entityConfigs fs !! Z.to_nat i).

Definition put (i : Z) (c : C) (s : t) : t :=
  Entity.set_fields
    (set_entities (<[Z.to_nat i:=c]> (entities (Entity.fields s)))
       (Entity.fields s)) s.

Definition switchToIndex (index : Z) (s : t) : result (t * trace) :=
  let active := activeEntityIndex (Entity.fields s) in
  '(s, tr) ←
    (if (0 <=? active)%Z then
       c ← entity_at active (Entity.fields s);
       frameInfo ← the_frame (Entity.lastFrameInfo s);
       Ok (put active (e_teardown frameInfo c) s, [CallTeardown (Z.to_nat active)])
     else Ok (s, []));
  let s := Entity.set_fields (set_activeEntityIndex index (Entity.fields s)) s in
  if (0 <=? index)%Z then
    let entityConfig :=
      processEntityConfig (Entity.entityConfig s)
        (config_at index (Entity.fields s)) in
    c ← entity_at index (Entity.fields s);
    frameInfo ← the_frame (Entity.lastFrameInfo s);
    Ok (put index (e_setup frameInfo entityConfig c) s,
        tr ++ [CallSetup (Z.to_nat index) entityConfig])
  else Ok (s, tr).

Definition setup (frameInfo : FrameInfo) (entityConfig : value) (s : t)
  : result (t * trace) :=
  let s := Entity.setup Entity.no_hooks frameInfo entityConfig s in
  (* [this.entities] is an array, which is truthy *)
  if (0 <? activeEntityIndex (Entity.fields s))%Z
  then switchToIndex (activeEntityIndex (Entity.fields s)) s
  else Ok (s, []).

Definition update (frameInfo : FrameInfo) (s : t) : result (t * trace) :=
  let s := Entity.update Entity.no_hooks frameInfo s in
  let active := activeEntityIndex (Entity.fields s) in
  if (0 <=? active)%Z then
    c ← entity_at active (Entity.fields s);
    Ok (put active (e_update frameInfo c) s, [CallUpdate (Z.to_nat active)])
  else Ok (s, []).

Definition teardown (frameInfo : FrameInfo) (s : t) : result (t * trace) :=
  '(s, tr) ← switchToIndex (-1) s;
  Ok (Entity.teardown Entity.no_hooks frameInfo s, tr).

Definition onSignal (frameInfo : FrameInfo) (signal : string) (data : value)
    (s : t) : result (t * trace) :=
  let s := Entity.onSignal Entity.no_hooks frameInfo signal data s in
  let active := activeEntityIndex (Entity.fields s) in
  if (0 <=? active)%Z then
    c ← entity_at active (Entity.fields s);
    Ok (put active (e_onSignal frameInfo signal data c) s,
        [CallOnSignal (Z.to_nat active) signal data])
  else Ok (s, []).

(** [addEntity(entity, entityConfig?)] *)
Definition addEntity (entity : C) (entityConfig : alteredConfig) (s : t) : t :=
  let fs := Entity.fields s in
  Entity.set_fields
    {| entities := entities fs ++ [entity];
       entityConfigs := entityConfigs fs ++ [entityConfig];
       activeEntityIndex := activeEntityIndex fs |} s.

(** [this.entities.indexOf(entity)] *)
Definition indexOf (entity : reference) (fs : fields) : Z :=
  match entity with
  | Member i => if i <? length (entities fs) then Z.of_nat i else (-1)%Z
  | _ => (-1)%Z
  end.

Definition switchToEntity (entity : reference) (s : t) : result (t * trace) :=
  match entity with
  | Null => switchToIndex (-1) s
  | _ =>
      let index := indexOf entity (Entity.fields s) in
      if (index =? -1)%Z then Throw (Error "Cannot find entity")
      else switchToIndex index s
  end.

Definition removeEntity (entity : reference) (s : t) : result (t * trace) :=
  let index := indexOf entity (Entity.fields s) in
  if (index =? -1)%Z then Throw (Error "Cannot find entity")
  else
    '(s, tr) ← (if (index =? activeEntityIndex (Entity.fields s))%Z
                then switchToIndex (-1) s else Ok (s, []));
    let fs := Entity.fields s in
    Ok (Entity.set_fields
          {| entities := delete (Z.to_nat index) (entities fs);
             entityConfigs := delete (Z.to_nat index) (entityConfigs fs);
             activeEntityIndex := activeEntityIndex fs |} s, tr).

Definition removeAllEntities (s : t) : result (t * trace) :=
  '(s, tr) ← switchToIndex (-1) s;
  Ok (Entity.set_fields
        {| entities := []; entityConfigs := []; activeEntityIndex := (-1)%Z |} s,
      tr).

(** The public methods other than [switchToIndex] and [switchToEntity]. *)
Inductive op :=
| OpSetup (frameInfo : FrameInfo) (entityConfig : value)
| OpUpdate (frameInfo : FrameInfo)
| OpOnSignal (frameInfo : FrameInfo) (signal : string) (data : value)
| OpTeardown (frameInfo : FrameInfo)
| OpAddEntity (entity : C) (entityConfig : alteredConfig)
| OpRemoveEntity (entity : reference)
| OpRemoveAllEntities.

Definition step (o : op) (s : t) : result (t * trace) :=
  match o with
  | OpSetup f cfg => setup f cfg s
  | OpUpdate f => update f s
  | OpOnSignal f sg d => onSignal f sg d s
  | OpTeardown f => teardown f s
  | OpAddEntity e cfg => Ok (addEntity e cfg s, [])
  | OpRemoveEntity e => removeEntity e s
  | OpRemoveAllEntities => removeAllEntities s
  end.

(** The calls of [os] one after the other, with the calls they make on
    the children. *)
Fixpoint run (os : list op) (s : t) : result (t * trace) :=
  match os with
  | [] => Ok (s, [])
  | o :: os =>
      '(s, tr) ← step o s;
      '(s, tr') ← run os s;
      Ok (s, tr ++ tr')
  end.

(** [activeEntity()]; [None] stands for [null] and for the [undefined]
    that an index past the end of the list reads. *)
Definition activeEntity (s : t) : option C :=
  let active := activeEntityIndex (Entity.fields s) in
  if (0 <=? active)%Z then entities (Entity.fields s) !! Z.to_nat active
  else None.

(** All the public methods that act on the children. *)
Inductive call :=
| Plain (o : op)
| SwitchToIndex (index : Z)
| SwitchToEntity (entity : reference).

Definition perform (c : call) (s : t) : result (t * trace) :=
  match c with
  | Plain o => step o s
  | SwitchToIndex index => switchToIndex index s
  | SwitchToEntity entity => switchToEntity entity s
  end.

Fixpoint perform_all (cs : list call) (s : t) : result (t * trace) :=
  match cs with
  | [] => Ok (s, [])
  | c :: cs =>
      '(s, tr) ← perform c s;
      '(s, tr') ← perform_all cs s;
      Ok (s, tr ++ tr')
  end.

End WithChildren.
Arguments fields C : clear implicits.
Arguments t C : clear implicits.
Arguments op C : clear implicits.
Arguments call C : clear implicits.
End SwitchingEntity.

(** ** EntitySequence *)

Module EntitySequence.
Section WithChildren.
Context {C : Type} `{EntityLike C}.

(** [EntityResolvable]: an entity, or a function that makes one; the
    function receives the sequence, here as a plain value. *)
Inductive EntityResolvable :=
| Concrete (e : C)
| Factory (make : value -> C).

(** [this.currentEntity]: [null], the entity listed at an index of
    [this.entities] (the same object, not a copy), or an entity that a
    factory made. *)
Inductive current :=
| NoEntity
| Listed (i : nat)
| Made (e : C).

Record fields := {
  entities : list EntityResolvable;
  loop : bool;
  currentEntityIndex : nat;
  currentEntity : current;
  lastRequestedTransition : value
}.

Definition t := Entity.t fields.

Definition trace := list (Call nat).

(** The constructor: [loop] is [!!options.loop]. *)
Definition new (entities : list EntityResolvable) (loop : bool) : t :=
  Entity.new {| entities := entities; loop := loop; currentEntityIndex := 0;
                currentEntity := NoEntity; lastRequestedTransition := VUndefined |}.

Definition set_entities (es : list EntityResolvable) (fs : fields) : fields :=
  {| entities := es; loop := loop fs;
     currentEntityIndex := currentEntityIndex fs;
     currentEntity := currentEntity fs;
     lastRequestedTransition := lastRequestedTransition fs |}.

Definition set_currentEntityIndex (i : nat) (fs : fields) : fields :=
  {| entities := entities fs; loop := loop fs; currentEntityIndex := i;
     currentEntity := currentEntity fs;
     lastRequestedTransition := lastRequestedTransition fs |}.

Definition set_currentEntity (c : current) (fs : fields) : fields :=
  {| entities := entities fs; loop := loop fs;
     currentEntityIndex := currentEntityIndex fs;
     currentEntity := c;
     lastRequestedTransition := lastRequestedTransition fs |}.

(** The sequence where a factory receives it. *)
Definition this_value (s : t) : value :=
  VObject [("currentEntityIndex",
            VNumber (Z.of_nat (currentEntityIndex (Entity.fields s))));
           ("entityConfig", Entity.entityConfig s);
           ("requestedTransition", Entity.requestedTransition s)].

(** [this.currentEntity] for a method call on it *)
Definition get_current (fs : fields) : result C :=
  match currentEntity fs with
  | NoEntity => Throw TypeError
  | Listed i =>
      match entities fs !! i with
      | Some (Concrete e) => Ok e
      | _ => Throw TypeError
      end
  | Made e => Ok e
  end.

(** The current entity after a method has run on it. *)
Definition put_current (c : C) (fs : fields) : fields :=
  match currentEntity fs with
  | NoEntity => fs
  | Listed i => set_entities (<[i:=Concrete c]> (entities fs)) fs
  | Made _ => set_currentEntity (Made c) fs
  end.

Definition _activateEntity (s : t) : result (t * trace) :=
  let fs := Entity.fields s in
  let index := currentEntityIndex fs in
  let fs :=
    match entities fs !! index with
    | Some (Factory make) => set_currentEntity (Made (make (this_value s))) fs
    | Some (Concrete _) => set_currentEntity (Listed index) fs
    | None => set_currentEntity NoEntity fs
    end in
  c ← get_current fs;
  frameInfo ← the_frame (Entity.lastFrameInfo s);
  let c := e_setup frameInfo (Entity.entityConfig s) c in
  Ok (Entity.set_fields (put_current c fs) s,
      [CallSetup index (Entity.entityConfig s)]).

Definition _deactivateEntity (s : t) : result (t * trace) :=
  let fs := Entity.fields s in
  match currentEntity fs with
  | NoEntity => Ok (s, [])
  | _ =>
      c ← get_current fs;
      if e_isSetup c then
        frameInfo ← the_frame (Entity.lastFrameInfo s);
        Ok (Entity.set_fields (put_current (e_teardown frameInfo c) fs) s,
            [CallTeardown (currentEntityIndex fs)])
      else Ok (s, [])
  end.

Definition set_index (i : nat) (s : t) : t :=
  Entity.set_fields (set_currentEntityIndex i (Entity.fields s)) s.

Definition _advance (transition : value) (s : t) : result (t * trace) :=
  let fs := Entity.fields s in
  if S (currentEntityIndex fs) <? length (entities fs) then
    '(s, tr) ← _deactivateEntity s;
    let s := set_index (currentEntityIndex (Entity.fields s) + 1) s in
    '(s, tr') ← _activateEntity s;
    Ok (s, tr ++ tr')
  else if loop fs then
    '(s, tr) ← _deactivateEntity s;
    let s := set_index 0 s in
    '(s, tr') ← _activateEntity s;
    Ok (s, tr ++ tr')
  else
    '(s, tr) ← _deactivateEntity s;
    Ok (Entity.set_requestedTransition transition s, tr).

Definition setup (frameInfo : FrameInfo) (entityConfig : value) (s : t)
  : result (t * trace) :=
  let s := Entity.setup Entity.no_hooks frameInfo entityConfig s in
  let s := set_index 0 s in
  let s := Entity.set_fields (set_currentEntity NoEntity (Entity.fields s)) s in
  _activateEntity s.

Definition update (frameInfo : FrameInfo) (s : t) : result (t * trace) :=
  let s := Entity.update Entity.no_hooks frameInfo s in
  let fs := Entity.fields s in
  if truthy (lastRequestedTransition fs) then Ok (s, [])
  else if length (entities fs) <=? currentEntityIndex fs then Ok (s, [])
  else
    c ← get_current fs;
    let c := e_update frameInfo c in
    let s := Entity.set_fields (put_current c fs) s in
    let tr := [CallUpdate (currentEntityIndex fs)] in
    let transition := e_requestedTransition c in
    if truthy transition then
      '(s, tr') ← _advance transition s;
      Ok (s, tr ++ tr')
    else Ok (s, tr).

Definition teardown (frameInfo : FrameInfo) (s : t) : result (t * trace) :=
  '(s, tr) ← _deactivateEntity s;
  Ok (Entity.teardown Entity.no_hooks frameInfo s, tr).

Definition restart (s : t) : result (t * trace) :=
  '(s, tr) ← _deactivateEntity s;
  let s := set_index 0 s in
  let s := Entity.set_requestedTransition (VBool false) s in
  '(s, tr') ← _activateEntity s;
  Ok (s, tr ++ tr').

Definition skip (s : t) : result (t * trace) :=
  if truthy (Entity.requestedTransition s) then Ok (s, [])
  else _advance (VObject [("name", VString "skip")]) s.

(** [addEntity(entity)]; the entity is not set up. *)
Definition addEntity (entity : C) (s : t) : t :=
  if truthy (Entity.requestedTransition s) then s
  else Entity.set_fields
         (set_entities (entities (Entity.fields s) ++ [Concrete entity])
            (Entity.fields s)) s.

Definition onSignal (frameInfo : FrameInfo) (signal : string) (data : value)
    (s : t) : result (t * trace) :=
  if truthy (Entity.requestedTransition s) then Ok (s, [])
  else
    let s := Entity.onSignal Entity.no_hooks frameInfo signal data s in
    c ← get_current (Entity.fields s);
    let c := e_onSignal frameInfo signal data c in
    let tr := [CallOnSignal (currentEntityIndex (Entity.fields s)) signal data] in
    let s := Entity.set_fields (put_current c (Entity.fields s)) s in
    if String.eqb signal "reset" then
      '(s, tr') ← restart s;
      Ok (s, tr ++ tr')
    else Ok (s, tr).

(** The caller: one [update] per frame for as long as the sequence has
    not asked for a transition. *)
Fixpoint drive (frames : list FrameInfo) (s : t) : result (t * trace) :=
  match frames with
  | [] => Ok (s, [])
  | frameInfo :: frames =>
      if truthy (Entity.requestedTransition s) then Ok (s, [])
      else
        '(s, tr) ← update frameInfo s;
        '(s, tr') ← drive frames s;
        Ok (s, tr ++ tr')
  end.

Definition play (frameInfo : FrameInfo) (entityConfig : value)
    (frames : list FrameInfo) (s : t) : result (t * trace) :=
  '(s, tr) ← setup frameInfo entityConfig s;
  '(s, tr') ← drive frames s;
  Ok (s, tr ++ tr').

End WithChildren.
Arguments EntityResolvable C : clear implicits.
Arguments current C : clear implicits.
Arguments fields C : clear implicits.
Arguments t C : clear implicits.
End EntitySequence.

(** ** StateMachine *)

(** An option that is a value or a function without arguments that
    returns one. *)
Inductive lazy (A : Type) :=
| Value (a : A)
| Thunk (f : unit -> A).
Arguments Value {A} a.
Arguments Thunk {A} f.

Definition force {A} (l : lazy A) : A :=
  match l with
  | Value a => a
  | Thunk f => f tt
  end.

(** The string under which [k in object] looks a value up. *)
Fixpoint to_key (v : value) : string :=
  match v with
  | VUndefined => "undefined"
  | VNull => "null"
  | VBool true => "true"
  | VBool false => "false"
  | VNumber n => NilEmpty.string_of_int (Z.to_int n)
  | VString s => s
  | VArray items =>
      String.concat ","
        (map (fun item => match item with
                          | VUndefined | VNull => ""
                          | _ => to_key item
                          end) items)
  | VObject _ => "[object Object]"
  end.

(** The keys that an object literal inherits from [Object.prototype]:
    [k in object] holds for them although the object does not hold
    them.  The maps of the model hold the own properties of [states],
    [transitions] and the table of [makeTransitionTable]; where a
    theorem rests on a key that is missing, the key is none of
    these. *)
Definition inherited_keys : list string :=
  ["constructor"; "__defineGetter__"; "__defineSetter__"; "hasOwnProperty";
   "__lookupGetter__"; "__lookupSetter__"; "isPrototypeOf";
   "propertyIsEnumerable"; "toString"; "valueOf"; "__proto__";
   "toLocaleString"].

Module StateMachine.
Section WithChildren.
Context {C : Type} `{EntityLike C}.

(** A state: an entity, or a function of the parameters of the state and
    of the machine that makes one. *)
Inductive EntityResolvable :=
| Concrete (e : C)
| Factory (make : value -> value -> C).

(** An entry of [transitions]: a value, or a function of the name of the
    transition, of its parameters and of a context. *)
Inductive TransitionResolvable :=
| Descriptor (v : value)
| Resolver (resolve : value -> value -> value -> result value).

(** [this.state]: [null], the entity that [this.states] holds under a
    name (the same object, not a copy), or an entity that a factory
    made. *)
Inductive current :=
| NoState
| Named (name : string)
| Made (e : C).

Record fields := {
  states : gmap string EntityResolvable;
  transitions : gmap string TransitionResolvable;
  startingState : lazy string;
  startingStateParams : lazy value;
  startingProgress : value;
  endingStates : list string;
  visitedStates : option (list string);
  progress : value;
  state : current;
  stateName : value;
  stateParams : value
}.

Definition t := Entity.t fields.

(** What the machine calls and emits, in order.  A child is named by
    the state it stands for: [this.stateName] for the current one. *)
Inductive event :=
| ChildCall (c : Call value)
| FactoryCall (name : string) (params machine : value)
| ResolverCall (name params context : value)
| Emit (eventName : string) (args : list value).

Definition trace := list event.

(** The options of the constructor with their defaults:
    [startingState: "start"], [endingStates: ["end"]],
    [startingStateParams: {}], [startingProgress: {}]. *)
Record options := {
  o_startingState : lazy string;
  o_endingStates : list string;
  o_startingStateParams : lazy value;
  o_startingProgress : value
}.

Definition default_options : options :=
  {| o_startingState := Value "start";
     o_endingStates := ["end"];
     o_startingStateParams := Value (VObject []);
     o_startingProgress := VObject [] |}.

Definition new (states : gmap string EntityResolvable)
    (transitions : gmap string TransitionResolvable) (o : options) : t :=
  Entity.new
    {| states := states; transitions := transitions;
       startingState := o_startingState o;
       startingStateParams := o_startingStateParams o;
       startingProgress := o_startingProgress o;
       endingStates := o_endingStates o;
       visitedStates := None; progress := VUndefined;
       state := NoState; stateName := VUndefined; stateParams := VUndefined |}.

Definition set_states (m : gmap string EntityResolvable) (fs : fields) : fields :=
  {| states := m; transitions := transitions fs;
     startingState := startingState fs;
     startingStateParams := startingStateParams fs;
     startingProgress := startingProgress fs; endingStates := endingStates fs;
     visitedStates := visitedStates fs; progress := progress fs;
     state := state fs; stateName := stateName fs;
     stateParams := stateParams fs |}.

Definition set_visitedStates (vs : option (list string)) (fs : fields) : fields :=
  {| states := states fs; transitions := transitions fs;
     startingState := startingState fs;
     startingStateParams := startingStateParams fs;
     startingProgress := startingProgress fs; endingStates := endingStates fs;
     visitedStates := vs; progress := progress fs;
     state := state fs; stateName := stateName fs;
     stateParams := stateParams fs |}.

Definition set_progress (p : value) (fs : fields) : fields :=
  {| states := states fs; transitions := transitions fs;
     startingState := startingState fs;
     startingStateParams := startingStateParams fs;
     startingProgress := startingProgress fs; endingStates := endingStates fs;
     visitedStates := visitedStates fs; progress := p;
     state := state fs; stateName := stateName fs;
     stateParams := stateParams fs |}.

Definition set_state (c : current) (fs : fields) : fields :=
  {| states := states fs; transitions := transitions fs;
     startingState := startingState fs;
     startingStateParams := startingStateParams fs;
     startingProgress := startingProgress fs; endingStates := endingStates fs;
     visitedStates := visitedStates fs; progress := progress fs;
     state := c; stateName := stateName fs;
     stateParams := stateParams fs |}.

Definition set_stateName (n : value) (p : value) (fs : fields) : fields :=
  {| states := states fs; transitions := transitions fs;
     startingState := startingState fs;
     startingStateParams := startingStateParams fs;
     startingProgress := startingProgress fs; endingStates := endingStates fs;
     visitedStates := visitedStates fs; progress := progress fs;
     state := state fs; stateName := n; stateParams := p |}.

(** The machine where a function receives it ([this]). *)
Definition this_value (sm : t) : value :=
  let fs := Entity.fields sm in
  VObject [("stateName", stateName fs);
           ("stateParams", stateParams fs);
           ("visitedStates",
            match visitedStates fs with
            | Some vs => VArray (map VString vs)
            | None => VUndefined
            end);
           ("progress", progress fs);
           ("requestedTransition", Entity.requestedTransition sm);
           ("entityConfig", Entity.entityConfig sm)].

(** [this.state] for a method call on it *)
Definition get_state (fs : fields) : result C :=
  match state fs with
  | NoState => Throw TypeError
  | Named name =>
      match states fs !! name with
      | Some (Concrete e) => Ok e
      | _ => Throw TypeError
      end
  | Made e => Ok e
  end.

(** The state entity after a method has run on it. *)
Definition put_state (c : C) (fs : fields) : fields :=
  match state fs with
  | NoState => fs
  | Named name => set_states (<[name:=Concrete c]> (states fs)) fs
  | Made _ => set_state (Made c) fs
  end.

(** [this.visitedStates.push(name)] *)
Definition push_visited (name : string) (sm : t) : result t :=
  match visitedStates (Entity.fields sm) with
  | Some vs =>
      Ok (Entity.set_fields
            (set_visitedStates (Some (vs ++ [name])) (Entity.fields sm)) sm)
  | None => Throw TypeError
  end.

(** [this.endingStates.includes(name)] *)
Definition is_ending (name : string) (fs : fields) : bool :=
  bool_decide (name ∈ endingStates fs).

Definition _changeState (nextStateName : string) (nextStateParams : value)
    (sm : t) : result (t * trace) :=
  if is_ending nextStateName (Entity.fields sm) then
    let sm := Entity.set_requestedTransition (VString nextStateName) sm in
    sm ← push_visited nextStateName sm;
    Ok (sm, [])
  else
    '(sm, tr) ←
      match state (Entity.fields sm) with
      | NoState => Ok (sm, [])
      | _ =>
          c ← get_state (Entity.fields sm);
          frameInfo ← the_frame (Entity.lastFrameInfo sm);
          Ok (Entity.set_fields
                (put_state (e_teardown frameInfo c) (Entity.fields sm)) sm,
              [ChildCall (CallTeardown (stateName (Entity.fields sm)))])
      end;
    '(sm, tr) ←
      match states (Entity.fields sm) !! nextStateName with
      | Some nextStateDescriptor =>
          let '(sm, tr) :=
            match nextStateDescriptor with
            | Factory make =>
                (Entity.set_fields
                   (set_state (Made (make nextStateParams (this_value sm)))
                      (Entity.fields sm)) sm,
                 tr ++ [FactoryCall nextStateName nextStateParams (this_value sm)])
            | Concrete _ =>
                (Entity.set_fields
                   (set_state (Named nextStateName) (Entity.fields sm)) sm, tr)
            end in
          c ← get_state (Entity.fields sm);
          frameInfo ← the_frame (Entity.lastFrameInfo sm);
          Ok (Entity.set_fields
                (put_state (e_setup frameInfo (Entity.entityConfig sm) c)
                   (Entity.fields sm)) sm,
              tr ++ [ChildCall (CallSetup (VString nextStateName)
                                  (Entity.entityConfig sm))])
      | None =>
          Throw (Error ("Cannot find state '" +:+ nextStateName +:+ "'"))
      end;
    let previousStateName := stateName (Entity.fields sm) in
    let previousStateParams := stateParams (Entity.fields sm) in
    let sm :=
      Entity.set_fields
        (set_stateName (VString nextStateName) nextStateParams (Entity.fields sm))
        sm in
    sm ← push_visited nextStateName sm;
    Ok (sm,
        tr ++ [Emit "stateChange"
                 [VString nextStateName; nextStateParams;
                  previousStateName; previousStateParams]]).

Definition setup (frameInfo : FrameInfo) (entityConfig : value) (sm : t)
  : result (t * trace) :=
  let sm := Entity.setup Entity.no_hooks frameInfo entityConfig sm in
  let fs := Entity.fields sm in
  (* util.cloneData copies the value *)
  let fs := set_progress (startingProgress fs) (set_visitedStates (Some []) fs) in
  let sm := Entity.set_fields fs sm in
  _changeState (force (startingState fs)) (force (startingStateParams fs)) sm.

(** "Unpack requested transition": its name and its parameters. *)
Definition unpack_transition (requestedTransition : value)
  : result (value * value) :=
  match typeof requestedTransition with
  | TObject =>
      name ← get_prop "name" requestedTransition;
      params ← get_prop "params" requestedTransition;
      Ok (name, params)
  | _ => Ok (requestedTransition, VUndefined)
  end.

(** "Unpack the next state": its name and its parameters. *)
Definition unpack_state (nextStateDescriptor requestedTransition : value)
  : result (string * value) :=
  match typeof nextStateDescriptor with
  | TObject =>
      name ← get_prop "name" nextStateDescriptor;
      match name with
      | VString name =>
          params ← get_prop "params" nextStateDescriptor;
          Ok (name, params)
      | _ => Throw (Error "Cannot decode state descriptor")
      end
  | TString =>
      params ← get_prop "params" requestedTransition;
      Ok (to_key nextStateDescriptor, params)
  | _ => Throw (Error "Cannot decode state descriptor")
  end.

(** The key of [this.stateName in this.transitions]; the maps of the
    model hold the own properties of the objects. *)
Definition stateName_key (fs : fields) : string :=
  to_key (stateName fs).

(** The next-state descriptor for a requested transition, with the call
    of the resolver when there is one. *)
Definition resolve (requestedTransition name params : value) (sm : t)
  : result (value * trace) :=
  let fs := Entity.fields sm in
  let isState :=
    match name with
    | VString s => bool_decide (is_Some (states fs !! s))
    | _ => false
    end in
  match transitions fs !! stateName_key fs with
  | None =>
      if isState then Ok (requestedTransition, [])
      else Throw (Error ("Cannot find transition for state '"
                           +:+ stateName_key fs +:+ "'"))
  | Some (Resolver transitionDescriptor) =>
      d ← transitionDescriptor name params (this_value sm);
      Ok (d, [ResolverCall name params (this_value sm)])
  | Some (Descriptor (VString s)) => Ok (VString s, [])
  | Some (Descriptor _) => Throw (Error "Cannot decode transition descriptor")
  end.

Definition update (frameInfo : FrameInfo) (sm : t) : result (t * trace) :=
  let sm := Entity.update Entity.no_hooks frameInfo sm in
  match state (Entity.fields sm) with
  | NoState => Ok (sm, [])
  | _ =>
      c ← get_state (Entity.fields sm);
      let c := e_update frameInfo c in
      let tr := [ChildCall (CallUpdate (stateName (Entity.fields sm)))] in
      let sm := Entity.set_fields (put_state c (Entity.fields sm)) sm in
      let requestedTransition := e_requestedTransition c in
      if truthy requestedTransition then
        '(name, params) ← unpack_transition requestedTransition;
        '(nextStateDescriptor, tr1) ← resolve requestedTransition name params sm;
        '(nextStateName, nextStateParams) ←
          unpack_state nextStateDescriptor requestedTransition;
        '(sm, tr2) ← _changeState nextStateName nextStateParams sm;
        Ok (sm, tr ++ tr1 ++ tr2)
      else Ok (sm, tr)
  end.

Definition teardown (frameInfo : FrameInfo) (sm : t) : result (t * trace) :=
  '(sm, tr) ←
    match state (Entity.fields sm) with
    | NoState => Ok (sm, [])
    | _ =>
        c ← get_state (Entity.fields sm);
        let fs := put_state (e_teardown frameInfo c) (Entity.fields sm) in
        Ok (Entity.set_fields (set_stateName VNull (stateParams fs)
                                 (set_state NoState fs)) sm,
            [ChildCall (CallTeardown (stateName (Entity.fields sm)))])
    end;
  Ok (Entity.teardown Entity.no_hooks frameInfo sm, tr).

End WithChildren.
Arguments EntityResolvable C : clear implicits.
Arguments current C : clear implicits.
Arguments fields C : clear implicits.
Arguments t C : clear implicits.
End StateMachine.

(** ** makeTransitionTable *)

(** An entry of the table: a string, or a function of the name of the
    transition, its parameters, the name of the previous state and the
    parameters of the previous state. *)
Inductive tableEntry :=
| TableString (s : string)
| TableFunction (f : value -> value -> value -> value -> result value).

(** The function [f] that [makeTransitionTable(table)] returns. *)
Definition makeTransitionTable_f (table : gmap string tableEntry)
    (requestedTransitionName requestedTransitionParams
       previousStateName previousStateParams : value) : result value :=
  match table !! to_key requestedTransitionName with
  | Some (TableFunction transitionDescriptor) =>
      transitionDescriptor requestedTransitionName requestedTransitionParams
        previousStateName previousStateParams
  | Some (TableString s) => Ok (VString s)
  | None =>
      Throw (Error ("Cannot find state " +:+ to_key requestedTransitionName))
  end.

(** [makeTransitionTable(table)] as an entry of [transitions]; a caller
    that passes three arguments leaves the fourth [undefined]. *)
Definition makeTransitionTable (table : gmap string tableEntry)
  : StateMachine.TransitionResolvable :=
  StateMachine.Resolver
    (fun name params context =>
       makeTransitionTable_f table name params context VUndefined).

(** * The words of the statements *)

(** What the theorems below say of a pass over the children, of a run of
    a sequence and of the calls it makes, and the entities they are tried
    on. *)

Section ParallelWords.
Context {C : Type} `{EntityLike C}.

(** What one pass does to the children and their flags, child by child:
    an active child is updated, and torn down and marked inactive when it
    then asks for a transition; an inactive child is left alone. *)
Fixpoint pass_children (f : FrameInfo) (es : list (option C)) (act : list bool)
  : list (option C) * list bool :=
  match es, act with
  | Some c :: es, true :: act =>
      let c1 := e_update f c in
      let '(es', act') := pass_children f es act in
      if truthy (e_requestedTransition c1)
      then (Some (e_teardown f c1) :: es', false :: act')
      else (Some c1 :: es', true :: act')
  | e :: es, a :: act =>
      let '(es', act') := pass_children f es act in (e :: es', a :: act')
  | _, _ => (es, act)
  end.

(** The calls of one pass, from the child at index [i] on. *)
Fixpoint pass_calls (f : FrameInfo) (i : nat) (es : list (option C))
    (act : list bool) : list (Call nat) :=
  match es, act with
  | Some c :: es, true :: act =>
      CallUpdate i
        :: (if truthy (e_requestedTransition (e_update f c))
            then [CallTeardown i] else [])
        ++ pass_calls f (S i) es act
  | _ :: es, _ :: act => pass_calls f (S i) es act
  | _, _ => []
  end.

(** No element of the array is [null]. *)
Definition no_null (es : list (option C)) : bool :=
  forallb (fun e => match e with Some _ => true | None => false end) es.


(** The body of the loop at the index that follows [pre]. *)
Definition child_after (f : FrameInfo) (c : C) (a : bool) : option C * bool :=
  if a then
    if truthy (e_requestedTransition (e_update f c))
    then (Some (e_teardown f (e_update f c)), false)
    else (Some (e_update f c), true)
  else (Some c, false).

Definition child_calls (f : FrameInfo) (i : nat) (c : C) (a : bool)
  : list (Call nat) :=
  if a then
    CallUpdate i
      :: (if truthy (e_requestedTransition (e_update f c))
          then [CallTeardown i] else [])
  else [].


End ParallelWords.

Section DeflatingWords.
Context {C : Type} `{EntityLike C}.

(** The child is still running after its update. *)
Definition running (c : C) : bool := negb (truthy (e_requestedTransition c)).

(** The children that are left after a pass: those that do not ask for a
    transition once updated. *)
Definition survivors (f : FrameInfo) (es : list C) : list C :=
  List.filter running (map (e_update f) es).

(** The calls of a pass; [i] is the index in the live list of the first
    child of [es]. *)
Fixpoint deflating_calls (f : FrameInfo) (i : nat) (es : list C)
  : list (Call nat) :=
  match es with
  | [] => []
  | c :: es =>
      let c := e_update f c in
      CallUpdate i ::
        if truthy (e_requestedTransition c)
        then (if e_isSetup c then [CallTeardown i] else [])
               ++ deflating_calls f i es
        else deflating_calls f (S i) es
  end.


End DeflatingWords.

Section SwitchingWords.
Context {C : Type} `{EntityLike C}.

(** No child is active. *)
Definition idle (s : SwitchingEntity.t C) : Prop :=
  SwitchingEntity.activeEntityIndex (Entity.fields s) = (-1)%Z.


End SwitchingWords.

Section SequenceWords.
Context {C : Type} `{EntityLike C}.

(** The children keep the contract of the base class on [isSetup]
    (see [isSetup_lifecycle]). *)
Definition lawful : Prop :=
  (forall f cfg (c : C), e_isSetup (e_setup f cfg c) = true) /\
  (forall f (c : C), e_isSetup (e_update f c) = e_isSetup c).

(** The calls of a trace that set a child up or tear it down. *)
Definition lifecycle (tr : list (Call nat)) : list (Call nat) :=
  List.filter (fun c => match c with CallUpdate _ => false | _ => true end) tr.

(** [m] visits of the children of a sequence of length [n], one after
    the other and around again: each is a set-up and a tear-down. *)
Definition visits (cfg : value) (n m : nat) : list (Call nat) :=
  flat_map (fun j => [CallSetup (j mod n) cfg; CallTeardown (j mod n)]) (seq 0 m).

(** A sequence over the concrete entities [cs]. *)
Definition seq_state su ls rt cfg lf (cs : list C) lp idx cur : EntitySequence.t C :=
  Entity.mk su ls rt cfg lf
    {| EntitySequence.entities := map EntitySequence.Concrete cs;
       EntitySequence.loop := lp;
       EntitySequence.currentEntityIndex := idx;
       EntitySequence.currentEntity := cur;
       EntitySequence.lastRequestedTransition := VUndefined |}.


(** The sequence is at its [m]-th visit: the child at [m mod n] is set
    up and current, and the sequence has not asked for a transition. *)
Inductive running_at (lp : bool) (cfg : value) (n m : nat)
  : EntitySequence.t C -> list (Call nat) -> Prop :=
| Running su ls rt fr cs c idx tr :
    idx = m mod n ->
    length cs = n -> truthy rt = false ->
    cs !! idx = Some c -> e_isSetup c = true ->
    (lp = false -> m < n) ->
    lifecycle tr = visits cfg n m ++ [CallSetup idx cfg] ->
    running_at lp cfg n m
      (seq_state su ls rt cfg (Some fr) cs lp idx (EntitySequence.Listed idx)) tr.

(** The sequence does not loop and its last child has completed: it
    asks for the transition of that child. *)
Inductive done_at (cfg : value) (n : nat)
  : EntitySequence.t C -> list (Call nat) -> Prop :=
| Done su ls fr cs c f tr :
    length cs = n -> truthy (e_requestedTransition c) = true ->
    cs !! (n - 1) = Some (e_teardown f c) ->
    lifecycle tr = visits cfg n n ->
    done_at cfg n
      (seq_state su ls (e_requestedTransition c) cfg (Some fr) cs false (n - 1)
         (EntitySequence.Listed (n - 1))) tr.


(** Children of one kind that complete in their turn: the kind is kept
    by the methods, and a child of the kind that is set up asks for a
    transition after its update on each of the frames at hand. *)
Definition prompt (family : C -> Prop) (frames : list FrameInfo) : Prop :=
  (forall f cfg c, family c -> family (e_setup f cfg c)) /\
  (forall f c, family c -> family (e_update f c)) /\
  (forall f c, family c -> family (e_teardown f c)) /\
  (forall f c, f ∈ frames -> family c -> e_isSetup c = true ->
     truthy (e_requestedTransition (e_update f c)) = true).

(** [running_at] for children of a kind. *)
Inductive running_in (family : C -> Prop) (lp : bool) (cfg : value) (n m : nat)
  : EntitySequence.t C -> list (Call nat) -> Prop :=
| RunningIn su ls rt fr cs c idx tr :
    Forall family cs ->
    idx = m mod n ->
    length cs = n -> truthy rt = false ->
    cs !! idx = Some c -> e_isSetup c = true ->
    (lp = false -> m < n) ->
    lifecycle tr = visits cfg n m ++ [CallSetup idx cfg] ->
    running_in family lp cfg n m
      (seq_state su ls rt cfg (Some fr) cs lp idx (EntitySequence.Listed idx)) tr.

End SequenceWords.

(** ** The entities of the examples *)

(** A frame at [ms] milliseconds since the start. *)
Definition frame (ms : Z) : FrameInfo :=
  {| playTime := ms; timeSinceStart := ms; timeSinceLastFrame := 16;
     timeScale := 1; gameState := "playing" |}.


(** Two children [A] and [B] that complete on the same update: two
    [WaitingEntity] of 10 ms, updated at 16 ms. *)
Definition race : Alternative.t Leaf.t :=
  Alternative.new
    [Alternative.OfEntity (Leaf.new (Leaf.WaitingEntity 10));
     Alternative.OfEntity (Leaf.new (Leaf.WaitingEntity 10))].

Definition race_before : Alternative.t Leaf.t :=
  Alternative.setup (frame 0) VNull race.

Definition race_after : Alternative.t Leaf.t :=
  Alternative.update (frame 16) race_before.


(** Three children: the first and the third are [WaitingEntity] of 10 ms,
    the second is a [NullEntity], which never asks for a transition. *)
Definition three_children : list (ParallelEntity.entry Leaf.t) :=
  [ParallelEntity.OfEntity (Leaf.new (Leaf.WaitingEntity 10));
   ParallelEntity.OfEntity (Leaf.new Leaf.NullEntity);
   ParallelEntity.OfEntity (Leaf.new (Leaf.WaitingEntity 10))].

(** The [ParallelEntity] of [three_children] with [autoTransition], after
    [setup]. *)
Definition parallel3 : ParallelEntity.t Leaf.t :=
  match
    p ← ParallelEntity.new three_children true;
    ParallelEntity.setup (frame 0) VNull p
  with
  | Ok (p, _) => p
  | Throw _ => Entity.new (ParallelEntity.Build_fields [] [] [] true)
  end.


(** Three [WaitingEntity] of 10, 30 and 50 ms that follow each other. *)
Definition three_waits : list Leaf.t :=
  [Leaf.new (Leaf.WaitingEntity 10); Leaf.new (Leaf.WaitingEntity 30);
   Leaf.new (Leaf.WaitingEntity 50)].


(** The [WaitingEntity] of at most 64 ms: they complete at their first
    update at 64 ms. *)
Definition waits_64 (c : Leaf.t) : Prop :=
  exists w, Entity.fields c = Leaf.WaitingEntity w /\ (w <= 64)%Z.


(** A table function that tells a name from an object by its third
    argument. *)
Definition by_typeof (requestedTransitionName requestedTransitionParams
    previousStateName previousStateParams : value) : result value :=
  match typeof previousStateName with
  | TString => Ok (VString "by_name")
  | _ => Ok (VString "by_object")
  end.

Definition win_table : gmap string tableEntry :=
  <["win" := TableFunction by_typeof]> ∅.

(** The state [start] asks for the transition "win" as soon as it is set
    up; its entry in [transitions] is made by [makeTransitionTable]. *)
Definition machine_ctx : StateMachine.t Leaf.t :=
  StateMachine.new
    (<["start" := StateMachine.Concrete
                    (Leaf.new (Leaf.TransitoryEntity (VString "win")))]>
       (<["by_name" := StateMachine.Concrete (Leaf.new Leaf.NullEntity)]>
          (<["by_object" := StateMachine.Concrete (Leaf.new Leaf.NullEntity)]> ∅)))
    (<["start" := makeTransitionTable win_table]> ∅)
    StateMachine.default_options.

Definition machine_ctx_ready : StateMachine.t Leaf.t :=
  match StateMachine.setup (frame 0) VNull machine_ctx with
  | Ok (sm, _) => sm
  | Throw _ => machine_ctx
  end.


(** The machine of the specification: "win" leads from [start] to
    [middle], "finish" from [middle] to the ending state "end". *)
Definition machine3 : StateMachine.t Leaf.t :=
  StateMachine.new
    (<["start" := StateMachine.Concrete
                    (Leaf.new (Leaf.TransitoryEntity (VString "win")))]>
       (<["middle" := StateMachine.Concrete
                        (Leaf.new (Leaf.TransitoryEntity (VString "finish")))]> ∅))
    (<["start" := makeTransitionTable (<["win" := TableString "middle"]> ∅)]>
       (<["middle" := makeTransitionTable (<["finish" := TableString "end"]> ∅)]> ∅))
    StateMachine.default_options.



(** ** More words: loops over the children of a ParallelEntity *)

Section ParallelLoopWords.
Context {C : Type} `{EntityLike C}.

(** A loop over the children in the order of their indices: [step]
    gives, for the child at an index and its flag, the child and the
    flag after the iteration and the calls the iteration makes. *)
Fixpoint walk (step : nat -> C -> bool -> C * bool * list (Call nat)) (i : nat)
    (es : list (option C)) (act : list bool)
  : list (option C) * list bool * list (Call nat) :=
  match es, act with
  | Some c :: es, a :: act =>
      let '(c', a', t) := step i c a in
      let '(es', act', tr) := walk step (S i) es act in
      (Some c' :: es', a' :: act', t ++ tr)
  | _, _ => (es, act, [])
  end.

(** [setup]: a child that is not set up is set up with the
    configuration that [processEntityConfig] makes for it; every flag
    is raised. *)
Definition setup_step (f : FrameInfo) (cfg : value) (cfgs : list alteredConfig)
    (i : nat) (c : C) (a : bool) : C * bool * list (Call nat) :=
  if e_isSetup c then (c, true, [])
  else
    let cfg' := processEntityConfig cfg (default (ACValue VUndefined) (cfgs !! i)) in
    (e_setup f cfg' c, true, [CallSetup i cfg']).

(** [teardown]: an active child is torn down and its flag is lowered. *)
Definition teardown_step (f : FrameInfo) (i : nat) (c : C) (a : bool)
  : C * bool * list (Call nat) :=
  if a then (e_teardown f c, false, [CallTeardown i]) else (c, false, []).

(** [onSignal]: an active child receives the signal. *)
Definition signal_step (f : FrameInfo) (signal : string) (data : value)
    (i : nat) (c : C) (a : bool) : C * bool * list (Call nat) :=
  if a then (e_onSignal f signal data c, true, [CallOnSignal i signal data])
  else (c, false, []).

(** The three arrays have one length and [entities] holds no [null]. *)
Definition well_formed (p : ParallelEntity.t C) : Prop :=
  no_null (ParallelEntity.entities (Entity.fields p)) = true /\
  length (ParallelEntity.entityConfigs (Entity.fields p))
    = length (ParallelEntity.entities (Entity.fields p)) /\
  length (ParallelEntity.entityIsActive (Entity.fields p))
    = length (ParallelEntity.entities (Entity.fields p)).

(** The number of times that the child at [i] is torn down in a trace. *)
Definition teardowns_of (i : nat) (tr : list (Call nat)) : nat :=
  length (List.filter (fun c => match c with
                                | CallTeardown j => j =? i
                                | _ => false
                                end) tr).

(** The arrays are well formed and the parent has seen a frame. *)
Definition ready (p : ParallelEntity.t C) : Prop :=
  well_formed p /\ Entity.lastFrameInfo p <> None.

End ParallelLoopWords.

(** The [ParallelEntity] of [three_children] as the constructor leaves
    it. *)
Definition parallel3_new : ParallelEntity.t Leaf.t :=
  match ParallelEntity.new three_children true with
  | Ok p => p
  | Throw _ => Entity.new (ParallelEntity.Build_fields [] [] [] true)
  end.

(** ** More words: the listener registry *)

(** The listeners that a call [_off(emitter, event, cb)] selects: the
    callback decides when it is given, else the event name, else the
    emitter, and a call without arguments selects every listener. *)
Definition selected (em : option nat) (ev : option string) (c : option nat)
    (l : IEventListener) : Prop :=
  match c, ev, em with
  | Some c, _, _ => cb l = c
  | None, Some s, _ =>
      if String.eqb s ""
      then match em with Some em => emitter l = em | None => True end
      else event l = s
  | None, None, Some em => emitter l = em
  | None, None, None => True
  end.

Global Instance selected_dec em ev c l : Decision (selected em ev c l).
Proof.
  unfold selected.
  destruct c, ev as [s|], em; try destruct (String.eqb s ""); apply _.
Defined.

(** ** More words: the leaves *)

(** The transition that a leaf asks for when [setup] returns. *)
Definition transition_at_setup (k : Leaf.kind) : value :=
  match k with
  | Leaf.TransitoryEntity transition => transition
  | Leaf.FunctionCallEntity => VBool true
  | Leaf.Decision f => VBool f
  | _ => VNull
  end.

(** The frame is at or past the time that a [WaitingEntity] waits for. *)
Definition time_is_up (wait : Z) (frameInfo : FrameInfo) : bool :=
  (timeSinceStart frameInfo >=? wait)%Z.

(** ** More words: children that keep the contract of the base class *)

Section Discipline.
Context {C : Type} `{EntityLike C}.

(** The flag [isSetup] of a child is raised by [setup], lowered by
    [teardown] and left alone by [update] and [onSignal] (see
    [isSetup_lifecycle]). *)
Definition disciplined : Prop :=
  (forall f cfg (c : C), e_isSetup (e_setup f cfg c) = true) /\
  (forall f (c : C), e_isSetup (e_update f c) = e_isSetup c) /\
  (forall f sg d (c : C), e_isSetup (e_onSignal f sg d c) = e_isSetup c) /\
  (forall f (c : C), e_isSetup (e_teardown f c) = false).

(** A [DeflatingCompositeEntity] between [setup] and [teardown]: it is
    set up, has seen a frame, and every child of its list is set up. *)
Definition all_set_up (d : DeflatingCompositeEntity.t C) : Prop :=
  Entity.isSetup d = true /\
  Entity.lastFrameInfo d <> None /\
  Forall (fun c => e_isSetup c = true)
    (DeflatingCompositeEntity.entities (Entity.fields d)).

End Discipline.

(** A [DeflatingCompositeEntity] with two [WaitingEntity] of 10 and
    30 ms, before [setup]. *)
Definition deflating2 : DeflatingCompositeEntity.t Leaf.t :=
  match
    '(d, _) ← DeflatingCompositeEntity.addEntity (Leaf.new (Leaf.WaitingEntity 10))
                (DeflatingCompositeEntity.new true);
    DeflatingCompositeEntity.addEntity (Leaf.new (Leaf.WaitingEntity 30)) d
  with
  | Ok (d, _) => d
  | Throw _ => DeflatingCompositeEntity.new true
  end.

(** ** More words: the active child of a SwitchingEntity *)

Section SwitchingMoreWords.
Context {C : Type} `{EntityLike C}.

(** The children of a list are set up exactly at the index [idx]. *)
Definition only_at (es : list C) (idx : Z) : Prop :=
  forall i c, es !! i = Some c -> e_isSetup c = bool_decide (Z.of_nat i = idx).

(** The [SwitchingEntity] has seen a frame, its index is below the
    length of the list, and a child is set up exactly when it is the one
    at the index. *)
Definition one_active (s : SwitchingEntity.t C) : Prop :=
  Entity.lastFrameInfo s <> None /\
  (SwitchingEntity.activeEntityIndex (Entity.fields s)
   < Z.of_nat (length (SwitchingEntity.entities (Entity.fields s))))%Z /\
  only_at (SwitchingEntity.entities (Entity.fields s))
    (SwitchingEntity.activeEntityIndex (Entity.fields s)).

(** The same without the frame: the state of a [SwitchingEntity] that
    [setup] may find, set up earlier or not. *)
Definition settled (s : SwitchingEntity.t C) : Prop :=
  (SwitchingEntity.activeEntityIndex (Entity.fields s)
   < Z.of_nat (length (SwitchingEntity.entities (Entity.fields s))))%Z /\
  only_at (SwitchingEntity.entities (Entity.fields s))
    (SwitchingEntity.activeEntityIndex (Entity.fields s)).

(** The calls under which [one_active] is kept: an entity that is added
    is not set up, [switchToIndex] gets an index below the length of the
    list, and [removeEntity] does not take out a child that comes before
    the active one. *)
Definition allowed (c : SwitchingEntity.call C) (s : SwitchingEntity.t C) : bool :=
  match c with
  | SwitchingEntity.Plain (SwitchingEntity.OpAddEntity e _) => negb (e_isSetup e)
  | SwitchingEntity.Plain (SwitchingEntity.OpRemoveEntity (Member i)) =>
      (SwitchingEntity.activeEntityIndex (Entity.fields s) <=? Z.of_nat i)%Z
  | SwitchingEntity.SwitchToIndex index =>
      (index <? Z.of_nat (length (SwitchingEntity.entities (Entity.fields s))))%Z
  | _ => true
  end.

(** Every call of the list is [allowed] in the state in which it is
    made. *)
Fixpoint allowed_all (cs : list (SwitchingEntity.call C))
    (s : SwitchingEntity.t C) : bool :=
  match cs with
  | [] => true
  | c :: cs =>
      allowed c s &&
      match SwitchingEntity.perform c s with
      | Ok (s', _) => allowed_all cs s'
      | Throw _ => true
      end
  end.

End SwitchingMoreWords.

(** A [SwitchingEntity] with a [NullEntity], a [Block] and a
    [WaitingEntity] of 10 ms, as the constructor and [addEntity] leave
    it; the same after [setup]; and the same after [switchToIndex(1)]. *)
Definition switching3_new : SwitchingEntity.t Leaf.t :=
  let s := SwitchingEntity.addEntity (Leaf.new Leaf.NullEntity) (ACValue VUndefined)
             SwitchingEntity.new in
  let s := SwitchingEntity.addEntity (Leaf.new Leaf.Block) (ACValue VUndefined) s in
  SwitchingEntity.addEntity (Leaf.new (Leaf.WaitingEntity 10)) (ACValue VUndefined) s.

Definition switching3 : SwitchingEntity.t Leaf.t :=
  match SwitchingEntity.setup (frame 0) VNull switching3_new with
  | Ok (s, _) => s
  | Throw _ => switching3_new
  end.

Definition switching3_at1 : SwitchingEntity.t Leaf.t :=
  match SwitchingEntity.switchToIndex 1 switching3 with
  | Ok (s, _) => s
  | Throw _ => switching3
  end.

(** The sequence of [three_waits], without [loop], as [setup] at 0 ms
    leaves it: the first child is set up and current. *)
Definition wait10_up : Leaf.t :=
  e_setup (frame 0) VNull (Leaf.new (Leaf.WaitingEntity 10)).

Definition three_waits_started : list Leaf.t :=
  [wait10_up; Leaf.new (Leaf.WaitingEntity 30); Leaf.new (Leaf.WaitingEntity 50)].

Definition waits_running : EntitySequence.t Leaf.t :=
  seq_state true [] VNull VNull (Some (frame 0)) three_waits_started false 0
    (EntitySequence.Listed 0).

(** A sequence of one [WaitingEntity] of 10 ms that has completed at
    16 ms. *)
Definition wait10_down : Leaf.t :=
  e_teardown (frame 16) (e_update (frame 16) wait10_up).

Definition wait_ended : EntitySequence.t Leaf.t :=
  seq_state true [] (VBool true) VNull (Some (frame 16)) [wait10_down] false 0
    (EntitySequence.Listed 0).

(** A machine without a table: [start] asks for "middle", which is the
    name of a state. *)
Definition machine_direct : StateMachine.t Leaf.t :=
  StateMachine.new
    (<["start" := StateMachine.Concrete
                    (Leaf.new (Leaf.TransitoryEntity (VString "middle")))]>
       (<["middle" := StateMachine.Concrete (Leaf.new Leaf.NullEntity)]> ∅))
    ∅ StateMachine.default_options.

(** The same states with a table that sends [start] to "middle"
    whatever it asks for; here it asks for "anything". *)
Definition machine_plain : StateMachine.t Leaf.t :=
  StateMachine.new
    (<["start" := StateMachine.Concrete
                    (Leaf.new (Leaf.TransitoryEntity (VString "anything")))]>
       (<["middle" := StateMachine.Concrete (Leaf.new Leaf.NullEntity)]> ∅))
    (<["start" := StateMachine.Descriptor (VString "middle")]> ∅)
    StateMachine.default_options.


(** A machine after [setup] at 0 ms. *)
Definition started (sm : StateMachine.t Leaf.t) : StateMachine.t Leaf.t :=
  match StateMachine.setup (frame 0) VNull sm with
  | Ok (sm, _) => sm
  | Throw _ => sm
  end.

(** A [TransitoryEntity] after [setup] at 0 ms. *)
Definition transitory_up (transition : string) : Leaf.t :=
  e_setup (frame 0) VNull (Leaf.new (Leaf.TransitoryEntity (VString transition))).

(** ** More words: the constructor of a ParallelEntity *)

Section ParallelEntryWords.
Context {C : Type} `{EntityLike C}.

(** The entity and the configuration that an element of the
    constructor's array stands for. *)
Definition entry_entity (en : ParallelEntity.entry C) : option C :=
  match en with
  | ParallelEntity.OfEntity e => Some e
  | ParallelEntity.OfObject e _ => e
  end.

Definition entry_config (en : ParallelEntity.entry C) : alteredConfig :=
  match en with
  | ParallelEntity.OfEntity _ => ACValue VNull
  | ParallelEntity.OfObject _ entityConfig => entityConfig
  end.

End ParallelEntryWords.

(** A machine whose starting state is made by a function: the entity
    asks for the transition that the parameters of the state name. *)
Definition machine_made : StateMachine.t Leaf.t :=
  StateMachine.new
    (<["start" := StateMachine.Factory
                    (fun params machine => Leaf.new (Leaf.TransitoryEntity params))]> ∅)
    ∅
    {| StateMachine.o_startingState := Value "start";
       StateMachine.o_endingStates := ["end"];
       StateMachine.o_startingStateParams := Thunk (fun _ => VString "end");
       StateMachine.o_startingProgress := VObject [] |}.

(** ** More words: the children of a ParallelEntity between [setup] and [teardown] *)

Section ParallelTidyWords.
Context {C : Type} `{EntityLike C}.

(** A child is set up exactly when its flag is raised. *)
Definition flags_match (es : list (option C)) (act : list bool) : Prop :=
  forall i c a, es !! i = Some (Some c) -> act !! i = Some a -> e_isSetup c = a.

(** A [ParallelEntity] between [setup] and [teardown]: it is ready and
    set up, and its flags match its children. *)
Definition tidy (p : ParallelEntity.t C) : Prop :=
  ready p /\
  Entity.isSetup p = true /\
  flags_match (ParallelEntity.entities (Entity.fields p))
    (ParallelEntity.entityIsActive (Entity.fields p)).

(** The call is not [teardown]. *)
Definition stays_up (o : ParallelEntity.op C) : bool :=
  match o with
  | ParallelEntity.OpTeardown _ => false
  | _ => true
  end.

End ParallelTidyWords.


(** * Verification *)

(** ** The base class: the set-up flag and the listener registry *)

Section EntityFacts.
Context {U : Type} (h : Entity.Hooks U).

Lemma isSetup_setup f cfg (e : Entity.t U) :
  Entity.keeps_isSetup h -> Entity.isSetup (Entity.setup h f cfg e) = true.
Proof.
  intros (Hs & _ & _). unfold Entity.setup. now rewrite Hs.
Qed.






Lemma filter_not_in_self (l : list IEventListener) :
  filter (fun x => x ∉ l) l = [].
Proof.
  assert (H : forall l', (forall x, x ∈ l' -> x ∈ l) ->
              filter (fun x => x ∉ l) l' = []).
  { induction l' as [|a l' IH]; intros Hin; [reflexivity|].
    rewrite filter_cons. destruct (decide (a ∉ l)) as [Hn|_].
    - exfalso. apply Hn, Hin. left.
    - apply IH. intros x Hx. apply Hin. now right. }
  apply H. auto.
Qed.


End EntityFacts.

Lemma leaf_keeps_isSetup : Entity.keeps_isSetup Leaf.hooks.
Proof.
  repeat split.
  - intros f cfg e. simpl. unfold Leaf._setup. now destruct (Entity.fields e).
  - intros f e. simpl. unfold Leaf._update.
    destruct (Entity.fields e); try reflexivity.
    now destruct (_ >=? _)%Z.
Qed.


(** A [WaitForEvent] registers its listener in [_setup] and has no
    [_teardown] of its own: the base class releases the listener. *)
Example wait_for_event_listener :
  let e := Entity.setup Leaf.hooks (frame 0) VNull
             (Leaf.new (Leaf.WaitForEvent 7 "pointertap")) in
  Entity.eventListeners e
    = [{| emitter := 7; event := "pointertap"; cb := Leaf._handleEvent_id |}] /\
  Entity.eventListeners (Entity.teardown Leaf.hooks (frame 16) e) = [].
Proof. split; reflexivity. Qed.

(** ** Alternative: which child names the transition *)

Section AlternativeFacts.
Context {C : Type} `{EntityLike C}.

Lemma update_pairs_spec f (ps : list (Alternative.entityPair C)) rt :
  let ps' := map (fun p => {| Alternative.entity := e_update f (Alternative.entity p);
                              Alternative.transition := Alternative.transition p |}) ps in
  Alternative.update_pairs f ps rt =
    (ps', match Alternative.last_completed ps' with
          | Some p => VString (Alternative.transition p)
          | None => rt
          end).
Proof.
  revert rt. induction ps as [|p ps IH]; intros rt; [reflexivity|].
  cbn zeta in *. cbn [Alternative.update_pairs map]. rewrite IH. f_equal.
  unfold Alternative.last_completed. cbn [List.filter].
  unfold Alternative.completed at 2. cbn [Alternative.entity].
  destruct (truthy (e_requestedTransition (e_update f (Alternative.entity p)))).
  - destruct (List.filter _ _) as [|q qs] eqn:E; [reflexivity|].
    rewrite last_cons_cons.
    destruct (last (q :: qs)) eqn:El; [reflexivity|].
    now apply last_None in El.
  - reflexivity.
Qed.

(** C1, as the code has it.  After [update], when some child has asked
    for a transition, the transition of the [Alternative] is the label of
    the last child in the list that did, and it is left as it was when no
    child did.  Every child has been updated once. *)
Theorem alternative_last_completed_wins f (a : Alternative.t C) :
  let a' := Alternative.update f a in
  Alternative.entityPairs (Entity.fields a') =
    map (fun p => {| Alternative.entity := e_update f (Alternative.entity p);
                     Alternative.transition := Alternative.transition p |})
        (Alternative.entityPairs (Entity.fields a)) /\
  Entity.requestedTransition a' =
    match Alternative.last_completed (Alternative.entityPairs (Entity.fields a')) with
    | Some p => VString (Alternative.transition p)
    | None => Entity.requestedTransition a
    end.
Proof.
  cbn zeta. unfold Alternative.update, Entity.update. cbn [Entity._update Alternative.hooks].
  unfold Alternative._update. rewrite update_pairs_spec. cbn zeta.
  split; reflexivity.
Qed.

(** The label of a child that the constructor received as a bare entity
    is its index in the list, written as a string. *)
Lemma alternative_default_label (es : list C) i e :
  es !! i = Some e ->
  Alternative.entityPairs (Entity.fields (Alternative.new (map Alternative.OfEntity es)))
    !! i
  = Some {| Alternative.entity := e; Alternative.transition := toString i |}.
Proof.
  intros He. unfold Alternative.new. cbn [Entity.new Entity.fields Alternative.entityPairs].
  rewrite list_lookup_imap. change (map ?g ?l) with (g <$> l).
  now rewrite list_lookup_fmap, He.
Qed.

(** The hooks of [Alternative] leave [isSetup] alone: [isSetup_lifecycle]
    holds for it, whatever its children are. *)
Lemma alternative_keeps_isSetup : Entity.keeps_isSetup (@Alternative.hooks C _).
Proof.
  repeat split.
  - intros f cfg a. cbn [Entity._setup Alternative.hooks]. unfold Alternative._setup.
    now destruct (Alternative.setup_pairs _ _ _ _).
  - intros f a. cbn [Entity._update Alternative.hooks]. unfold Alternative._update.
    now destruct (Alternative.update_pairs _ _ _).
Qed.

End AlternativeFacts.

(** C1 as the specification states it does not hold: no child of [race_before] has asked
    for a transition, both have in [race_after], the first of them is
    labelled "0", and the transition of the [Alternative] is "1". *)
Lemma alternative_first_completed_loses :
  Alternative.first_completed (Alternative.entityPairs (Entity.fields race_before))
    = None /\
  map Alternative.completed (Alternative.entityPairs (Entity.fields race_after))
    = [true; true] /\
  Alternative.transition
    <$> Alternative.first_completed (Alternative.entityPairs (Entity.fields race_after))
    = Some "0" /\
  Entity.requestedTransition race_after = VString "1" /\
  Entity.requestedTransition race_after <> VString "0".
Proof. repeat split; try reflexivity. discriminate. Qed.

(** ** ParallelEntity: one pass of [update] *)

Section ParallelFacts.
Context {C : Type} `{EntityLike C}.

Lemma array_set_middle (pre : list bool) a b rest :
  array_set (length pre) b (pre ++ a :: rest) = pre ++ b :: rest.
Proof.
  unfold array_set. rewrite length_app. simpl.
  destruct (Nat.ltb_spec (length pre) (length pre + S (length rest))); [|lia].
  replace (length pre) with (length pre + 0) at 1 by lia.
  now rewrite insert_app_r.
Qed.

Lemma insert_middle {A} (pre : list A) a b rest :
  <[length pre:=b]> (pre ++ a :: rest) = pre ++ b :: rest.
Proof.
  replace (length pre) with (length pre + 0) at 1 by lia.
  now rewrite insert_app_r.
Qed.

Lemma snoc_app {A} (pre : list A) a rest : pre ++ a :: rest = (pre ++ [a]) ++ rest.
Proof. now rewrite <- app_assoc. Qed.

Lemma update_body_at f cfgs auto pre preA (c : C) a rest restA tr :
  length pre = length preA ->
  ParallelEntity.update_body f (length pre)
    ({| ParallelEntity.entities := pre ++ Some c :: rest;
        ParallelEntity.entityConfigs := cfgs;
        ParallelEntity.entityIsActive := preA ++ a :: restA;
        ParallelEntity.autoTransition := auto |}, tr)
  = Ok ({| ParallelEntity.entities := (pre ++ [(child_after f c a).1]) ++ rest;
           ParallelEntity.entityConfigs := cfgs;
           ParallelEntity.entityIsActive := (preA ++ [(child_after f c a).2]) ++ restA;
           ParallelEntity.autoTransition := auto |},
        tr ++ child_calls f (length pre) c a).
Proof.
  intros Hpre.
  unfold ParallelEntity.update_body, ParallelEntity.active_at,
    ParallelEntity.entity_at, child_after, child_calls.
  cbn [ParallelEntity.entities ParallelEntity.entityIsActive].
  rewrite (list_lookup_middle pre rest (Some c) (length pre) eq_refl).
  rewrite (list_lookup_middle preA restA a (length pre) Hpre).
  rewrite <- !snoc_app.
  destruct a; simpl; [|now rewrite app_nil_r].
  destruct (truthy (e_requestedTransition (e_update f c))); simpl.
  - unfold ParallelEntity.set_entityIsActive, ParallelEntity.set_entities. simpl.
    rewrite insert_middle. rewrite Hpre. rewrite array_set_middle.
    reflexivity.
  - unfold ParallelEntity.set_entities. simpl. now rewrite insert_middle.
Qed.

Lemma pass_children_cons f (c : C) a es act :
  pass_children f (Some c :: es) (a :: act) =
    ((child_after f c a).1 :: (pass_children f es act).1,
     (child_after f c a).2 :: (pass_children f es act).2).
Proof.
  simpl. unfold child_after.
  destruct (pass_children f es act) as [es' act'].
  destruct a; [|reflexivity]. now destruct (truthy _).
Qed.

Lemma pass_calls_cons f i (c : C) a es act :
  pass_calls f i (Some c :: es) (a :: act) =
    child_calls f i c a ++ pass_calls f (S i) es act.
Proof. unfold child_calls. now destruct a. Qed.

Lemma update_loop_spec f cfgs auto (rest : list (option C)) :
  forall pre preA restA tr,
    length pre = length preA -> length rest = length restA ->
    no_null rest = true ->
    foldl (fun r i => s ← r; ParallelEntity.update_body f i s)
      (Ok ({| ParallelEntity.entities := pre ++ rest;
              ParallelEntity.entityConfigs := cfgs;
              ParallelEntity.entityIsActive := preA ++ restA;
              ParallelEntity.autoTransition := auto |}, tr))
      (seq (length pre) (length rest))
    = Ok ({| ParallelEntity.entities := pre ++ (pass_children f rest restA).1;
             ParallelEntity.entityConfigs := cfgs;
             ParallelEntity.entityIsActive := preA ++ (pass_children f rest restA).2;
             ParallelEntity.autoTransition := auto |},
          tr ++ pass_calls f (length pre) rest restA).
Proof.
  induction rest as [|e rest IH]; intros pre preA restA tr Hpre Hlen Hnn.
  - destruct restA; [|discriminate]. simpl. now rewrite !app_nil_r.
  - destruct restA as [|a restA]; [discriminate|].
    injection Hlen as Hlen. destruct e as [c|]; [|discriminate].
    simpl in Hnn.
    cbn [length seq foldl]. cbn [mbind result_bind].
    rewrite update_body_at by assumption.
    rewrite pass_children_cons, pass_calls_cons. cbn [fst snd].
    replace (S (length pre)) with (length (pre ++ [(child_after f c a).1]))
      by (rewrite length_app; simpl; lia).
    rewrite IH; [|rewrite !length_app; simpl; lia|assumption|assumption].
    now rewrite <- !app_assoc.
Qed.

Lemma for_upto_update f es cfgs act auto :
  length es = length act -> no_null es = true ->
  for_upto (length es) (ParallelEntity.update_body f)
    ({| ParallelEntity.entities := es;
        ParallelEntity.entityConfigs := cfgs;
        ParallelEntity.entityIsActive := act;
        ParallelEntity.autoTransition := auto |}, [])
  = Ok ({| ParallelEntity.entities := (pass_children f es act).1;
           ParallelEntity.entityConfigs := cfgs;
           ParallelEntity.entityIsActive := (pass_children f es act).2;
           ParallelEntity.autoTransition := auto |},
        pass_calls f 0 es act).
Proof.
  intros Hlen Hnn.
  exact (update_loop_spec f cfgs auto es [] [] act [] eq_refl Hlen Hnn).
Qed.

Lemma pass_children_length f (es : list (option C)) :
  forall act,
    length (pass_children f es act).1 = length es /\
    length (pass_children f es act).2 = length act.
Proof.
  induction es as [|e es IH]; intros act; [now destruct act|].
  destruct act as [|a act]; [now destruct e|].
  specialize (IH act). simpl.
  destruct (pass_children f es act) as [es' act']. simpl in IH.
  destruct e as [c|], a; simpl; try lia.
  destruct (truthy _); simpl; lia.
Qed.

Lemma pass_children_lookup f (es : list (option C)) :
  forall act i c (a : bool),
    es !! i = Some (Some c) -> act !! i = Some a ->
    if a then
      if truthy (e_requestedTransition (e_update f c)) then
        (pass_children f es act).1 !! i = Some (Some (e_teardown f (e_update f c))) /\
        (pass_children f es act).2 !! i = Some false
      else
        (pass_children f es act).1 !! i = Some (Some (e_update f c)) /\
        (pass_children f es act).2 !! i = Some true
    else
      (pass_children f es act).1 !! i = Some (Some c) /\
      (pass_children f es act).2 !! i = Some false.
Proof.
  induction es as [|e es IH]; intros act i c a Hes Hact; [discriminate|].
  destruct act as [|a0 act]; [discriminate|].
  destruct i as [|i].
  - injection Hes as ->. injection Hact as ->. simpl.
    destruct (pass_children f es act) as [es' act'].
    destruct a; [|now split].
    destruct (truthy _); now split.
  - simpl in Hes, Hact. specialize (IH act i c a Hes Hact).
    simpl. destruct (pass_children f es act) as [es' act'].
    destruct e as [c0|], a0; simpl; try exact IH.
    destruct (truthy (e_requestedTransition (e_update f c0))); exact IH.
Qed.

(** C4.  For a [ParallelEntity] whose three arrays have one length and
    hold no [null], [update] returns, and
    - the calls on the children are those of [pass_calls]: the active
      children in the order of the list, each updated and, when it then
      asks for a transition, torn down before the next child is visited;
    - the arrays keep their length;
    - a child that was active and asks for a transition after its update
      has been torn down and is inactive, one that does not ask stays
      active, and a child that was inactive is as before;
    - with [autoTransition] the transition of the [ParallelEntity] is
      [true] when no flag is set after the pass, and otherwise it is the
      one it had. *)
Theorem parallel_update_pass f (p : ParallelEntity.t C) :
  let fs := Entity.fields p in
  no_null (ParallelEntity.entities fs) = true ->
  length (ParallelEntity.entities fs) = length (ParallelEntity.entityIsActive fs) ->
  exists p' tr,
    ParallelEntity.update f p = Ok (p', tr) /\
    let fs' := Entity.fields p' in
    tr = pass_calls f 0 (ParallelEntity.entities fs) (ParallelEntity.entityIsActive fs) /\
    length (ParallelEntity.entities fs') = length (ParallelEntity.entities fs) /\
    length (ParallelEntity.entityIsActive fs') = length (ParallelEntity.entityIsActive fs) /\
    (forall i c,
       ParallelEntity.entities fs !! i = Some (Some c) ->
       if ParallelEntity.active_at i fs then
         if truthy (e_requestedTransition (e_update f c)) then
           ParallelEntity.entities fs' !! i = Some (Some (e_teardown f (e_update f c))) /\
           ParallelEntity.active_at i fs' = false
         else
           ParallelEntity.entities fs' !! i = Some (Some (e_update f c)) /\
           ParallelEntity.active_at i fs' = true
       else
         ParallelEntity.entities fs' !! i = Some (Some c) /\
         ParallelEntity.active_at i fs' = false) /\
    Entity.requestedTransition p' =
      if ParallelEntity.autoTransition fs
         && negb (existsb (fun e => e) (ParallelEntity.entityIsActive fs'))
      then VBool true else Entity.requestedTransition p.
Proof.
  destruct p as [su ls rt cfg lf [es cfgs act auto]]. cbn zeta.
  cbn [Entity.fields ParallelEntity.entities ParallelEntity.entityIsActive
       ParallelEntity.autoTransition].
  intros Hnn Hlen.
  unfold ParallelEntity.update, Entity.update.
  cbn [Entity._update Entity.no_hooks Entity.set_lastFrameInfo Entity.fields
       Entity.isSetup Entity.eventListeners Entity.requestedTransition
       Entity.entityConfig Entity.lastFrameInfo ParallelEntity.entities].
  rewrite (for_upto_update f es cfgs act auto Hlen Hnn). cbn [mbind result_bind app].
  destruct (pass_children_length f es act) as [Hl1 Hl2].
  pose proof (pass_children_lookup f es act) as Hlk.
  destruct (pass_children f es act) as [es' act'] eqn:Epc. cbn [fst snd] in *.
  cbn [ParallelEntity.autoTransition ParallelEntity.entityIsActive].
  assert (Hper : forall i c,
    es !! i = Some (Some c) ->
    if default false (act !! i) then
      if truthy (e_requestedTransition (e_update f c)) then
        es' !! i = Some (Some (e_teardown f (e_update f c))) /\
        default false (act' !! i) = false
      else es' !! i = Some (Some (e_update f c)) /\ default false (act' !! i) = true
    else es' !! i = Some (Some c) /\ default false (act' !! i) = false).
  { intros i c Hi.
    destruct (act !! i) as [a|] eqn:Ha.
    - specialize (Hlk i c a Hi Ha).
      cbn [default]. destruct a.
      + destruct (truthy _); destruct Hlk as [-> ->]; now split.
      + destruct Hlk as [-> ->]; now split.
    - apply lookup_ge_None in Ha. apply lookup_lt_Some in Hi. lia. }
  destruct (auto && negb (existsb (fun e => e) act')) eqn:Eauto.
  - eexists _, _. split; [reflexivity|].
    cbn [Entity.fields Entity.set_fields Entity.set_requestedTransition
         Entity.requestedTransition ParallelEntity.entities
         ParallelEntity.entityIsActive ParallelEntity.active_at].
    repeat split; try assumption; try reflexivity.
    now rewrite Eauto.
  - eexists _, _. split; [reflexivity|].
    cbn [Entity.fields Entity.set_fields Entity.set_requestedTransition
         Entity.requestedTransition ParallelEntity.entities
         ParallelEntity.entityIsActive ParallelEntity.active_at].
    repeat split; try assumption; try reflexivity.
    now rewrite Eauto.
Qed.

End ParallelFacts.

(** [parallel_update_pass] on [parallel3] at 16 ms: the first and the
    third child complete and are torn down, the second stays active and
    the parent does not complete. *)
Lemma parallel_update_pass_witness :
  exists p' tr,
    ParallelEntity.update (frame 16) parallel3 = Ok (p', tr) /\
    tr = [CallUpdate 0; CallTeardown 0; CallUpdate 1; CallUpdate 2; CallTeardown 2] /\
    ParallelEntity.entityIsActive (Entity.fields p') = [false; true; false] /\
    Entity.requestedTransition p' = VNull.
Proof.
  destruct (parallel_update_pass (frame 16) parallel3 eq_refl eq_refl)
    as (p' & tr & Hup & Htr & _).
  exists p', tr. split; [exact Hup|]. split; [exact Htr|].
  vm_compute in Hup. injection Hup as <- _. split; reflexivity.
Defined.

(** The second update of [parallel3], when the second child is a
    [WaitingEntity] of 30 ms instead: the last child completes and the
    parent asks for its transition. *)
Example parallel_completes_with_last_child :
  (p ← ParallelEntity.new
         [ParallelEntity.OfEntity (Leaf.new (Leaf.WaitingEntity 10));
          ParallelEntity.OfEntity (Leaf.new (Leaf.WaitingEntity 30))] true;
   '(p, _) ← ParallelEntity.setup (frame 0) VNull p;
   '(p, _) ← ParallelEntity.update (frame 16) p;
   '(q, tr) ← ParallelEntity.update (frame 32) p;
   Ok (Entity.requestedTransition p, Entity.requestedTransition q, tr))
  = Ok (VNull, VBool true, [CallUpdate 1; CallTeardown 1]).
Proof. reflexivity. Qed.

(** ** FunctionalEntity: the children of the constructor *)

Section FunctionalFacts.
Context {C : Type} `{EntityLike C}.

Lemma foldl_throw {S X : Type} (body : X -> S -> result S) e (l : list X) :
  foldl (fun r i => s ← r; body i s) (Throw e) l = Throw e.
Proof. induction l as [|x l IH]; [reflexivity|exact IH]. Qed.

(** What the constructor leaves in the three arrays: [null] where the
    children should be, the children where the configurations should
    be. *)
Lemma functional_new_fields (childEntities : list C) :
  forall p0 : ParallelEntity.t C,
    Entity.isSetup p0 = false ->
    exists p,
      foldl (fun r childEntity =>
               p ← r;
               '(p, _) ← ParallelEntity.addEntity None
                            (ACValue (as_value childEntity)) p;
               Ok p) (Ok p0) childEntities = Ok p /\
      Entity.isSetup p = false /\
      ParallelEntity.entities (Entity.fields p) =
        ParallelEntity.entities (Entity.fields p0)
          ++ replicate (length childEntities) None /\
      ParallelEntity.entityConfigs (Entity.fields p) =
        ParallelEntity.entityConfigs (Entity.fields p0)
          ++ map (fun c => ACValue (as_value c)) childEntities /\
      ParallelEntity.entityIsActive (Entity.fields p) =
        ParallelEntity.entityIsActive (Entity.fields p0)
          ++ replicate (length childEntities) true.
Proof.
  induction childEntities as [|c cs IH]; intros p0 Hp0.
  - exists p0. simpl. now rewrite !app_nil_r.
  - cbn [foldl mbind result_bind].
    unfold ParallelEntity.addEntity at 2.
    cbn [Entity.isSetup Entity.set_fields]. rewrite Hp0.
    destruct (IH (Entity.set_fields
                    {| ParallelEntity.entities :=
                         ParallelEntity.entities (Entity.fields p0) ++ [None];
                       ParallelEntity.entityConfigs :=
                         ParallelEntity.entityConfigs (Entity.fields p0)
                           ++ [ACValue (as_value c)];
                       ParallelEntity.entityIsActive :=
                         ParallelEntity.entityIsActive (Entity.fields p0) ++ [true];
                       ParallelEntity.autoTransition :=
                         ParallelEntity.autoTransition (Entity.fields p0) |} p0))
      as (p & Hp & Hs & He & Hc & Ha); [exact Hp0|].
    exists p. split; [exact Hp|]. split; [exact Hs|].
    cbn [Entity.fields Entity.set_fields ParallelEntity.entities
         ParallelEntity.entityConfigs ParallelEntity.entityIsActive] in He, Hc, Ha.
    rewrite He, Hc, Ha, <- !app_assoc. now split.
Qed.

(** C9 on the code.  A [FunctionalEntity] built with [n + 1] children
    holds [null] in [entities] and the children in [entityConfigs]:
    [setup] throws a [TypeError] at the first element, before any child
    is set up, and so does [update]. *)
Theorem functional_children_are_lost (fns : FunctionalEntity.functions C)
    (child : C) (others : list C) f cfg :
  exists p,
    FunctionalEntity.new (child :: others) = Ok p /\
    ParallelEntity.entities (Entity.fields p)
      = replicate (S (length others)) None /\
    ParallelEntity.entityConfigs (Entity.fields p)
      = map (fun c => ACValue (as_value c)) (child :: others) /\
    FunctionalEntity.setup fns f cfg p = Throw TypeError /\
    FunctionalEntity.update fns f p = Throw TypeError.
Proof.
  unfold FunctionalEntity.new, ParallelEntity.new. cbn [foldl].
  destruct (functional_new_fields (child :: others)
              (Entity.new {| ParallelEntity.entities := [];
                             ParallelEntity.entityConfigs := [];
                             ParallelEntity.entityIsActive := [];
                             ParallelEntity.autoTransition := false |}) eq_refl)
    as (p & Hp & Hs & He & Hc & Ha).
  exists p. split; [exact Hp|].
  cbn [Entity.new Entity.fields ParallelEntity.entities ParallelEntity.entityConfigs
       ParallelEntity.entityIsActive app length] in He, Hc, Ha.
  split; [exact He|]. split; [exact Hc|].
  destruct p as [su ls rt c0 lf [es cfgs act auto]].
  cbn [Entity.fields ParallelEntity.entities ParallelEntity.entityConfigs
       ParallelEntity.entityIsActive] in He, Hc, Ha. subst es act.
  split.
  - unfold FunctionalEntity.setup, ParallelEntity.setup, for_upto.
    cbn [Entity.setup Entity.fields Entity._setup Entity.no_hooks
         Entity.set_requestedTransition Entity.set_isSetup Entity.set_lastFrameInfo
         Entity.set_entityConfig Entity.isSetup Entity.eventListeners
         Entity.requestedTransition Entity.entityConfig Entity.lastFrameInfo
         ParallelEntity.entities].
    rewrite length_replicate. cbn [seq foldl replicate].
    cbn [mbind result_bind ParallelEntity.setup_body ParallelEntity.entity_at
         ParallelEntity.entities lookup list_lookup].
    now rewrite foldl_throw.
  - unfold FunctionalEntity.update, ParallelEntity.update, for_upto.
    cbn [Entity.update Entity.fields Entity._update Entity.no_hooks
         Entity.set_lastFrameInfo Entity.isSetup Entity.eventListeners
         Entity.requestedTransition Entity.entityConfig Entity.lastFrameInfo
         ParallelEntity.entities].
    rewrite length_replicate. cbn [seq foldl replicate].
    cbn [mbind result_bind ParallelEntity.update_body ParallelEntity.entity_at
         ParallelEntity.active_at ParallelEntity.entityIsActive
         ParallelEntity.entities lookup list_lookup default from_option id].
    now rewrite foldl_throw.
Qed.

End FunctionalFacts.

(** [new FunctionalEntity({}, [new Block()])], then [setup]. *)
Example functional_one_child :
  (p ← FunctionalEntity.new [Leaf.new Leaf.Block];
   FunctionalEntity.setup
     {| FunctionalEntity.f_setup := None; FunctionalEntity.f_update := None;
        FunctionalEntity.f_teardown := None; FunctionalEntity.f_onSignal := None;
        FunctionalEntity.f_requestTransition := None |}
     (frame 0) VNull p)
  = Throw TypeError.
Proof. reflexivity. Qed.

(** ** DeflatingCompositeEntity: one pass of [update] *)

Section DeflatingFacts.
Context {C : Type} `{EntityLike C}.

Lemma delete_middle {A} (pre : list A) a rest :
  delete (length pre) (pre ++ a :: rest) = pre ++ rest.
Proof. induction pre as [|x pre IH]; [reflexivity|]. simpl. now rewrite IH. Qed.

Lemma deflating_loop_spec f (rest : list C) :
  forall fuel kept tr,
    length rest <= fuel ->
    DeflatingCompositeEntity.update_loop fuel f (length kept) (kept ++ rest) tr
    = (kept ++ survivors f rest, tr ++ deflating_calls f (length kept) rest).
Proof.
  induction rest as [|c rest IH]; intros fuel kept tr Hfuel.
  - unfold survivors. simpl. rewrite !app_nil_r.
    destruct fuel; [reflexivity|]. simpl.
    now rewrite (proj2 (lookup_ge_None kept (length kept)) (Nat.le_refl _)).
  - destruct fuel as [|fuel]; [simpl in Hfuel; lia|]. simpl in Hfuel.
    cbn [DeflatingCompositeEntity.update_loop].
    rewrite (list_lookup_middle kept rest c (length kept) eq_refl).
    unfold survivors. cbn [map List.filter deflating_calls]. unfold running at 1.
    destruct (truthy (e_requestedTransition (e_update f c))) eqn:Ert; cbn [negb].
    + rewrite delete_middle. rewrite IH by lia. unfold survivors. f_equal.
      destruct (e_isSetup (e_update f c)); rewrite <- !app_assoc; reflexivity.
    + rewrite insert_middle, (snoc_app kept).
      replace (S (length kept)) with (length (kept ++ [e_update f c]))
        by (rewrite length_app; simpl; lia).
      rewrite IH by lia. unfold survivors.
      now rewrite <- !app_assoc.
Qed.

(** The bound of the loop: once the fuel covers the list, more of it
    changes nothing. *)
Lemma deflating_loop_fuel f (es : list C) fuel :
  length es <= fuel ->
  DeflatingCompositeEntity.update_loop fuel f 0 es [] =
  DeflatingCompositeEntity.update_loop (length es) f 0 es [].
Proof.
  intros Hfuel.
  pose proof (deflating_loop_spec f es fuel [] [] Hfuel) as H1.
  pose proof (deflating_loop_spec f es (length es) [] [] (Nat.le_refl _)) as H2.
  cbn [app length] in H1, H2. now rewrite H1, H2.
Qed.

(** C5.  After [update] the list holds the children that do not ask for
    a transition once updated, in their order: the others have been
    spliced out, after a [teardown] when they were set up, and the list
    is shorter by their number.  With [autoTransition] the transition of
    the composite is [true] when the list is empty after the pass, and
    otherwise it is the one it had. *)
Theorem deflating_update_pass f (d : DeflatingCompositeEntity.t C) :
  let es := DeflatingCompositeEntity.entities (Entity.fields d) in
  let d' := (DeflatingCompositeEntity.update f d).1 in
  let es' := DeflatingCompositeEntity.entities (Entity.fields d') in
  es' = survivors f es /\
  (DeflatingCompositeEntity.update f d).2 = deflating_calls f 0 es /\
  length es' + length (List.filter (fun c => negb (running c)) (map (e_update f) es))
    = length es /\
  Entity.requestedTransition d' =
    if DeflatingCompositeEntity.autoTransition (Entity.fields d)
       && bool_decide (es' = [])
    then VBool true else Entity.requestedTransition d.
Proof.
  destruct d as [su ls rt cfg lf [es auto]]. cbn zeta.
  unfold DeflatingCompositeEntity.update, Entity.update.
  cbn [Entity._update Entity.no_hooks Entity.set_lastFrameInfo Entity.fields
       Entity.isSetup Entity.eventListeners Entity.requestedTransition
       Entity.entityConfig Entity.lastFrameInfo
       DeflatingCompositeEntity.entities].
  pose proof (deflating_loop_spec f es (length es) [] [] (Nat.le_refl _)) as Hloop.
  cbn [app length] in Hloop. rewrite Hloop.
  assert (Hlen : length (survivors f es)
                 + length (List.filter (fun c => negb (running c)) (map (e_update f) es))
                 = length es).
  { unfold survivors. rewrite <- (length_map (e_update f) es).
    generalize (map (e_update f) es). intros l.
    induction l as [|c l IH]; [reflexivity|]. simpl.
    destruct (running c); simpl; lia. }
  assert (Hnil : (length (survivors f es) =? 0) = bool_decide (survivors f es = [])).
  { destruct (survivors f es); reflexivity. }
  cbn [Entity.set_fields Entity.fields DeflatingCompositeEntity.set_entities
       DeflatingCompositeEntity.autoTransition DeflatingCompositeEntity.entities
       Entity.isSetup Entity.eventListeners Entity.requestedTransition
       Entity.entityConfig Entity.lastFrameInfo].
  rewrite Hnil.
  destruct (auto && bool_decide (survivors f es = [])) eqn:E; cbn; rewrite ?E;
    (split; [reflexivity|split; [reflexivity|split; [exact Hlen|reflexivity]]]).
Qed.

End DeflatingFacts.

(** Children [A] and [B]: [A] completes on the first update, [B] on the
    second; the parent completes with the second. *)
Example deflating_two_children :
  let A := Leaf.new (Leaf.WaitingEntity 10) in
  let B := Leaf.new (Leaf.WaitingEntity 30) in
  ('(d, _) ← DeflatingCompositeEntity.addEntity A (DeflatingCompositeEntity.new true);
  '(d, _) ← DeflatingCompositeEntity.addEntity B d;
  let '(d0, _) := DeflatingCompositeEntity.setup (frame 0) VNull d in
  let '(d1, tr1) := DeflatingCompositeEntity.update (frame 16) d0 in
  let '(d2, tr2) := DeflatingCompositeEntity.update (frame 32) d1 in
  Ok (map Entity.fields (DeflatingCompositeEntity.entities (Entity.fields d1)),
      Entity.requestedTransition d1, tr1,
      DeflatingCompositeEntity.entities (Entity.fields d2),
      Entity.requestedTransition d2, tr2))
  = Ok ([Leaf.WaitingEntity 30], VNull,
        [CallUpdate 0; CallTeardown 0; CallUpdate 0],
        [], VBool true, [CallUpdate 0; CallTeardown 0]).
Proof. reflexivity. Qed.

(** ** SwitchingEntity: who activates a child *)

Section SwitchingFacts.
Context {C : Type} `{EntityLike C}.

Lemma switching_step_idle (o : SwitchingEntity.op C) (s s' : SwitchingEntity.t C) tr :
  idle s -> SwitchingEntity.step o s = Ok (s', tr) -> idle s' /\ tr = [].
Proof.
  unfold idle. destruct s as [su ls rt cfg lf [es cfgs idx]].
  cbn [Entity.fields SwitchingEntity.activeEntityIndex]. intros ->.
  destruct o; intros Hstep; [cbn in Hstep..| |cbn in Hstep].
  - injection Hstep as <- <-. now split.
  - injection Hstep as <- <-. now split.
  - injection Hstep as <- <-. now split.
  - injection Hstep as <- <-. now split.
  - injection Hstep as <- <-. now split.
  - cbn [SwitchingEntity.step] in Hstep.
    unfold SwitchingEntity.removeEntity in Hstep.
    cbn [Entity.fields SwitchingEntity.activeEntityIndex] in Hstep.
    match type of Hstep with
    | context [(?x =? -1)%Z] => destruct (x =? -1)%Z
    end; [discriminate|].
    cbn [mbind result_bind] in Hstep. injection Hstep as <- <-. now split.
  - injection Hstep as <- <-. now split.
Qed.

Lemma switching_run_idle (os : list (SwitchingEntity.op C)) :
  forall (s s' : SwitchingEntity.t C) tr,
    idle s -> SwitchingEntity.run os s = Ok (s', tr) -> idle s' /\ tr = [].
Proof.
  induction os as [|o os IH]; intros s s' tr Hs Hrun.
  - injection Hrun as <- <-. now split.
  - cbn [SwitchingEntity.run] in Hrun.
    destruct (SwitchingEntity.step o s) as [[s1 tr1]|e] eqn:E1; [|discriminate].
    cbn [mbind result_bind] in Hrun.
    destruct (SwitchingEntity.run os s1) as [[s2 tr2]|e] eqn:E2; [|discriminate].
    cbn [mbind result_bind] in Hrun. injection Hrun as <- <-.
    destruct (switching_step_idle o s s1 tr1 Hs E1) as [Hs1 ->].
    destruct (IH s1 s2 tr2 Hs1 E2) as [Hs2 ->]. now split.
Qed.

(** C10.
    - [setup] on a [SwitchingEntity] whose [activeEntityIndex] is [-1]
      (a fresh one) or [0] is the [setup] of the base class and nothing
      more: it calls no child and leaves the lists and the index as they
      are.
    - Starting from a fresh [SwitchingEntity], no sequence of calls of
      the other public methods ([setup], [update], [onSignal],
      [teardown], [addEntity], [removeEntity], [removeAllEntities]) calls
      a child or moves the index away from [-1].
    - [switchToIndex] with an index of the list, once [setup] has given
      a frame, sets up that child and makes it the active one. *)
Theorem switching_setup_activates_nothing :
  (forall f cfg (s : SwitchingEntity.t C),
     (SwitchingEntity.activeEntityIndex (Entity.fields s) <= 0)%Z ->
     SwitchingEntity.setup f cfg s =
       Ok (Entity.setup Entity.no_hooks f cfg s, [])) /\
  (forall os (s : SwitchingEntity.t C) tr,
     SwitchingEntity.run os SwitchingEntity.new = Ok (s, tr) ->
     SwitchingEntity.activeEntityIndex (Entity.fields s) = (-1)%Z /\ tr = []) /\
  (forall f (s : SwitchingEntity.t C) i c,
     SwitchingEntity.activeEntityIndex (Entity.fields s) = (-1)%Z ->
     Entity.lastFrameInfo s = Some f ->
     SwitchingEntity.entities (Entity.fields s) !! i = Some c ->
     exists s',
       SwitchingEntity.switchToIndex (Z.of_nat i) s =
         Ok (s', [CallSetup i (processEntityConfig (Entity.entityConfig s)
                                 (SwitchingEntity.config_at (Z.of_nat i) (Entity.fields s)))]) /\
       SwitchingEntity.activeEntityIndex (Entity.fields s') = Z.of_nat i /\
       SwitchingEntity.entities (Entity.fields s') !! i =
         Some (e_setup f (processEntityConfig (Entity.entityConfig s)
                            (SwitchingEntity.config_at (Z.of_nat i) (Entity.fields s))) c)).
Proof.
  split; [|split].
  - intros f cfg [su ls rt c0 lf [es cfgs idx]] Hidx.
    cbn [Entity.fields SwitchingEntity.activeEntityIndex] in Hidx.
    unfold SwitchingEntity.setup. cbn.
    destruct (Z.ltb_spec 0 idx); [lia|reflexivity].
  - intros os s tr Hrun.
    exact (switching_run_idle os SwitchingEntity.new s tr eq_refl Hrun).
  - intros f [su ls rt c0 lf [es cfgs idx]] i c Hidx Hlf Hi.
    cbn [Entity.fields SwitchingEntity.activeEntityIndex Entity.lastFrameInfo
         SwitchingEntity.entities Entity.entityConfig] in *. subst idx lf.
    unfold SwitchingEntity.switchToIndex.
    cbn [Entity.fields SwitchingEntity.activeEntityIndex Z.leb Z.compare
         mbind result_bind Entity.set_fields Entity.lastFrameInfo
         Entity.entityConfig Entity.isSetup Entity.eventListeners
         Entity.requestedTransition SwitchingEntity.set_activeEntityIndex
         SwitchingEntity.entities SwitchingEntity.entityConfigs].
    destruct (Z.leb_spec 0 (Z.of_nat i)); [|lia].
    unfold SwitchingEntity.entity_at.
    destruct (Z.ltb_spec (Z.of_nat i) 0); [lia|].
    unfold SwitchingEntity.set_activeEntityIndex, SwitchingEntity.config_at.
    cbn [SwitchingEntity.entities SwitchingEntity.entityConfigs].
    rewrite Nat2Z.id, Hi.
    cbn [mbind result_bind the_frame app].
    eexists. split; [reflexivity|]. split; [reflexivity|].
    cbn [SwitchingEntity.put Entity.fields Entity.set_fields
         SwitchingEntity.set_entities SwitchingEntity.entities].
    rewrite Nat2Z.id. apply list_lookup_insert_eq. now apply lookup_lt_Some in Hi.
Qed.

End SwitchingFacts.

(** A fresh [SwitchingEntity] with two children: [setup] and an [update]
    call no child; [switchToIndex(0)] sets the first one up; a second
    [setup] (the index is 0) still calls no child. *)
Example switching_two_children :
  let s := SwitchingEntity.addEntity (Leaf.new Leaf.Block) (ACValue VUndefined)
             (SwitchingEntity.addEntity (Leaf.new Leaf.NullEntity)
                (ACValue VUndefined) SwitchingEntity.new) in
  ('(s, tr0) ← SwitchingEntity.setup (frame 0) VNull s;
   '(s, tr1) ← SwitchingEntity.update (frame 16) s;
   '(s, tr2) ← SwitchingEntity.switchToIndex 0 s;
   '(s, tr3) ← SwitchingEntity.setup (frame 32) VNull s;
   Ok (tr0, tr1, tr2, tr3,
       SwitchingEntity.activeEntityIndex (Entity.fields s)))
  = Ok ([], [], [CallSetup 0 VNull], [], 0%Z).
Proof. reflexivity. Qed.

(** ** EntitySequence: the order of the set-ups and tear-downs *)

Section SequenceFacts.
Context {C : Type} `{EntityLike C}.

Lemma lookup_concrete (cs : list C) i c :
  cs !! i = Some c ->
  map EntitySequence.Concrete cs !! i = Some (EntitySequence.Concrete c).
Proof. intros Hc. change (map ?f ?l) with (f <$> l). now rewrite list_lookup_fmap, Hc. Qed.

Lemma insert_concrete (cs : list C) i c :
  <[i:=EntitySequence.Concrete c]> (map EntitySequence.Concrete cs)
  = map EntitySequence.Concrete (<[i:=c]> cs).
Proof. change (map ?f ?l) with (f <$> l). now rewrite list_fmap_insert. Qed.

Lemma sequence_deactivate su ls rt cfg f (cs : list C) lp idx c :
  cs !! idx = Some c -> e_isSetup c = true ->
  EntitySequence._deactivateEntity
    (seq_state su ls rt cfg (Some f) cs lp idx (EntitySequence.Listed idx))
  = Ok (seq_state su ls rt cfg (Some f) (<[idx:=e_teardown f c]> cs) lp idx
          (EntitySequence.Listed idx),
        [CallTeardown idx]).
Proof.
  intros Hc Hs. unfold EntitySequence._deactivateEntity, seq_state.
  cbn [Entity.fields EntitySequence.currentEntity EntitySequence.get_current
       EntitySequence.entities].
  rewrite (lookup_concrete cs idx c Hc). cbn [mbind result_bind]. rewrite Hs.
  cbn [Entity.lastFrameInfo the_frame mbind result_bind
       EntitySequence.put_current EntitySequence.currentEntity
       EntitySequence.set_entities EntitySequence.entities
       EntitySequence.currentEntityIndex Entity.set_fields].
  rewrite <- insert_concrete. reflexivity.
Qed.

Lemma sequence_activate su ls rt cfg f (cs : list C) lp idx cur c :
  cs !! idx = Some c ->
  EntitySequence._activateEntity (seq_state su ls rt cfg (Some f) cs lp idx cur)
  = Ok (seq_state su ls rt cfg (Some f) (<[idx:=e_setup f cfg c]> cs) lp idx
          (EntitySequence.Listed idx),
        [CallSetup idx cfg]).
Proof.
  intros Hc. unfold EntitySequence._activateEntity, seq_state.
  cbn [Entity.fields EntitySequence.currentEntityIndex EntitySequence.entities].
  rewrite (lookup_concrete cs idx c Hc).
  cbn [EntitySequence.get_current EntitySequence.set_currentEntity
       EntitySequence.currentEntity EntitySequence.entities].
  rewrite (lookup_concrete cs idx c Hc).
  cbn [mbind result_bind Entity.lastFrameInfo the_frame Entity.entityConfig
       EntitySequence.put_current EntitySequence.currentEntity
       EntitySequence.set_entities EntitySequence.entities
       EntitySequence.currentEntityIndex Entity.set_fields
       EntitySequence.loop EntitySequence.lastRequestedTransition].
  rewrite <- insert_concrete. reflexivity.
Qed.

(** The three ways in which [update] leaves a running sequence. *)
Lemma sequence_update su ls rt cfg lf f (cs : list C) lp idx c :
  lawful -> cs !! idx = Some c -> e_isSetup c = true ->
  let c1 := e_update f c in
  EntitySequence.update f
    (seq_state su ls rt cfg lf cs lp idx (EntitySequence.Listed idx))
  = if truthy (e_requestedTransition c1) then
      if S idx <? length cs then
        match cs !! S idx with
        | Some c2 =>
            Ok (seq_state su ls rt cfg (Some f)
                  (<[S idx:=e_setup f cfg c2]> (<[idx:=e_teardown f c1]> cs))
                  lp (S idx) (EntitySequence.Listed (S idx)),
                [CallUpdate idx; CallTeardown idx; CallSetup (S idx) cfg])
        | None => Throw TypeError
        end
      else if lp then
        match <[idx:=e_teardown f c1]> cs !! 0 with
        | Some c2 =>
            Ok (seq_state su ls rt cfg (Some f)
                  (<[0:=e_setup f cfg c2]> (<[idx:=e_teardown f c1]> cs))
                  lp 0 (EntitySequence.Listed 0),
                [CallUpdate idx; CallTeardown idx; CallSetup 0 cfg])
        | None => Throw TypeError
        end
      else
        Ok (seq_state su ls (e_requestedTransition c1) cfg (Some f)
              (<[idx:=e_teardown f c1]> cs) lp idx (EntitySequence.Listed idx),
            [CallUpdate idx; CallTeardown idx])
    else
      Ok (seq_state su ls rt cfg (Some f) (<[idx:=c1]> cs) lp idx
            (EntitySequence.Listed idx),
          [CallUpdate idx]).
Proof.
  intros [Hsetup Hupdate] Hc Hs. cbn zeta.
  assert (Hidx : idx < length cs) by now apply lookup_lt_Some in Hc.
  unfold EntitySequence.update, seq_state.
  cbn [Entity.update Entity._update Entity.no_hooks Entity.set_lastFrameInfo
       Entity.fields Entity.isSetup Entity.eventListeners
       Entity.requestedTransition Entity.entityConfig Entity.lastFrameInfo
       EntitySequence.lastRequestedTransition truthy
       EntitySequence.entities EntitySequence.currentEntityIndex].
  rewrite length_map.
  destruct (Nat.leb_spec (length cs) idx) as [Hle|_]; [lia|].
  cbn [EntitySequence.get_current EntitySequence.currentEntity
       EntitySequence.entities].
  rewrite (lookup_concrete cs idx c Hc). cbn [mbind result_bind].
  cbn [EntitySequence.put_current EntitySequence.currentEntity
       EntitySequence.set_entities EntitySequence.entities
       EntitySequence.currentEntityIndex Entity.set_fields
       EntitySequence.loop EntitySequence.lastRequestedTransition
       Entity.isSetup Entity.eventListeners
       Entity.requestedTransition Entity.entityConfig Entity.lastFrameInfo].
  match goal with
  | |- context [Entity.set_fields ?a ?b] =>
      replace (Entity.set_fields a b)
        with (seq_state su ls rt cfg (Some f) (<[idx:=e_update f c]> cs) lp idx
                (EntitySequence.Listed idx))
        by (unfold seq_state; rewrite <- insert_concrete; reflexivity)
  end.
  destruct (truthy (e_requestedTransition (e_update f c))) eqn:Ert; [|reflexivity].
  assert (Hc1 : <[idx:=e_update f c]> cs !! idx = Some (e_update f c))
    by now apply list_lookup_insert_eq.
  assert (Hs1 : e_isSetup (e_update f c) = true) by now rewrite Hupdate.
  pose proof (sequence_deactivate su ls rt cfg f (<[idx:=e_update f c]> cs)
                lp idx (e_update f c) Hc1 Hs1) as Hde.
  rewrite list_insert_insert_eq in Hde.
  unfold EntitySequence._advance.
  simpl (EntitySequence.currentEntityIndex _).
  simpl (EntitySequence.loop _).
  simpl (EntitySequence.entities _).
  rewrite length_map, length_insert.
  rewrite Hde. cbn [mbind result_bind].
  destruct (S idx <? length cs) eqn:Elt.
  - replace (EntitySequence.set_index _ _)
      with (seq_state su ls rt cfg (Some f) (<[idx:=e_teardown f (e_update f c)]> cs)
              lp (S idx) (EntitySequence.Listed idx)).
    2:{ unfold EntitySequence.set_index, seq_state. cbn. now rewrite Nat.add_1_r. }
    destruct (cs !! S idx) as [c2|] eqn:Ec2.
    + rewrite (sequence_activate su ls rt cfg f _ lp (S idx) _ c2)
        by (rewrite list_lookup_insert_ne by lia; exact Ec2).
      reflexivity.
    + apply lookup_ge_None in Ec2. apply Nat.ltb_lt in Elt. lia.
  - destruct lp.
    + replace (EntitySequence.set_index _ _)
        with (seq_state su ls rt cfg (Some f) (<[idx:=e_teardown f (e_update f c)]> cs)
                true 0 (EntitySequence.Listed idx)) by reflexivity.
      destruct (<[idx:=e_teardown f (e_update f c)]> cs !! 0) as [c2|] eqn:Ec2.
      * rewrite (sequence_activate su ls rt cfg f _ true 0 _ c2 Ec2). reflexivity.
      * apply lookup_ge_None in Ec2. rewrite length_insert in Ec2. lia.
    + reflexivity.
Qed.

Lemma next_mod n m :
  0 < n -> S m mod n = if S (m mod n) <? n then S (m mod n) else 0.
Proof.
  intros Hn.
  assert (Hr : m mod n < n) by (apply Nat.mod_upper_bound; lia).
  pose proof (Nat.div_mod_eq m n) as Hm.
  destruct (Nat.ltb_spec (S (m mod n)) n) as [Hlt|Hge].
  - symmetry. apply (Nat.mod_unique (S m) n (m / n)); lia.
  - symmetry. apply (Nat.mod_unique (S m) n (S (m / n))); lia.
Qed.

Lemma visits_S cfg n m :
  visits cfg n (S m) =
    visits cfg n m ++ [CallSetup (m mod n) cfg; CallTeardown (m mod n)].
Proof. unfold visits. now rewrite seq_S, flat_map_app. Qed.

(** Within the first round the visits are those of the indices in their
    order. *)
Lemma visits_first_round cfg n m :
  m <= n ->
  visits cfg n m =
    flat_map (fun j => [CallSetup j cfg; CallTeardown j]) (seq 0 m).
Proof.
  intros Hm. unfold visits.
  assert (Hk : forall k, k + m <= n ->
            flat_map (fun j => [CallSetup (j mod n) cfg; CallTeardown (j mod n)])
              (seq k m)
            = flat_map (fun j => [CallSetup j cfg; CallTeardown j]) (seq k m)).
  { induction m as [|m IH]; intros k Hk; [reflexivity|].
    cbn [seq flat_map]. rewrite Nat.mod_small by lia.
    rewrite IH by lia. reflexivity. }
  now apply Hk.
Qed.

Lemma lifecycle_app tr tr' : lifecycle (tr ++ tr') = lifecycle tr ++ lifecycle tr'.
Proof. unfold lifecycle. induction tr as [|c tr IH]; [reflexivity|].
  simpl. destruct c; simpl; now rewrite IH. Qed.

Lemma sequence_step lp cfg n m s tr f :
  lawful -> running_at lp cfg n m s tr ->
  exists s' tr',
    EntitySequence.update f s = Ok (s', tr') /\
    (running_at lp cfg n m s' (tr ++ tr') \/
     running_at lp cfg n (S m) s' (tr ++ tr') \/
     (lp = false /\ done_at cfg n s' (tr ++ tr'))).
Proof.
  intros Hlaw Hrun. pose proof Hlaw as [Hsetup Hupdate].
  destruct Hrun as [su ls rt fr cs c idx tr Hidx Hlen Hrt Hc Hs Hlp Htr].
  assert (Hlt : idx < n) by (apply lookup_lt_Some in Hc; lia).
  assert (Hn : 0 < n) by lia.
  rewrite (sequence_update su ls rt cfg (Some fr) f cs lp idx c Hlaw Hc Hs).
  cbn zeta. rewrite Hlen.
  destruct (truthy (e_requestedTransition (e_update f c))) eqn:Ert.
  - pose proof (next_mod n m Hn) as Hnext. rewrite <- Hidx in Hnext.
    destruct (S idx <? n) eqn:Elt.
    + apply Nat.ltb_lt in Elt.
      destruct (cs !! S idx) as [c2|] eqn:Ec2;
        [|apply lookup_ge_None in Ec2; lia].
      eexists _, _. split; [reflexivity|]. right. left.
      eapply Running.
      * now rewrite Hnext.
      * now rewrite !length_insert.
      * exact Hrt.
      * apply list_lookup_insert_eq. rewrite length_insert. lia.
      * apply Hsetup.
      * intros Hf. specialize (Hlp Hf). rewrite Nat.mod_small in Hidx by lia. lia.
      * rewrite lifecycle_app, Htr, visits_S, <- Hidx, <- !app_assoc. reflexivity.
    + apply Nat.ltb_ge in Elt. destruct lp.
      * destruct (<[idx:=e_teardown f (e_update f c)]> cs !! 0) as [c2|] eqn:Ec2;
          [|apply lookup_ge_None in Ec2; rewrite length_insert in Ec2; lia].
        eexists _, _. split; [reflexivity|]. right. left.
        eapply Running.
        -- now rewrite Hnext.
        -- now rewrite !length_insert.
        -- exact Hrt.
        -- apply list_lookup_insert_eq. rewrite length_insert. lia.
        -- apply Hsetup.
        -- discriminate.
        -- rewrite lifecycle_app, Htr, visits_S, <- Hidx, <- !app_assoc. reflexivity.
      * specialize (Hlp eq_refl). rewrite Nat.mod_small in Hidx by lia.
        assert (Hm : m = n - 1) by lia.
        assert (Hi : idx = n - 1) by lia.
        assert (HSm : S m = n) by lia.
        eexists _, _. split; [reflexivity|]. right. right. split; [reflexivity|].
        rewrite Hi. apply (Done cfg n su ls f _ (e_update f c) f).
        -- now rewrite length_insert.
        -- exact Ert.
        -- apply list_lookup_insert_eq. lia.
        -- replace (visits cfg n n) with (visits cfg n (S m)) by now rewrite HSm.
           rewrite lifecycle_app, Htr, visits_S, (Nat.mod_small m n) by lia.
           rewrite <- Hidx, <- !app_assoc, <- Hi. reflexivity.
  - eexists _, _. split; [reflexivity|]. left.
    eapply Running.
    + exact Hidx.
    + now rewrite length_insert.
    + exact Hrt.
    + apply list_lookup_insert_eq. lia.
    + now rewrite Hupdate.
    + exact Hlp.
    + rewrite lifecycle_app, Htr. simpl. now rewrite app_nil_r.
Qed.

Lemma sequence_drive lp cfg n frames :
  lawful ->
  forall s tr,
    ((exists m, running_at lp cfg n m s tr) \/ (lp = false /\ done_at cfg n s tr)) ->
    exists s' tr',
      EntitySequence.drive frames s = Ok (s', tr') /\
      ((exists m, running_at lp cfg n m s' (tr ++ tr')) \/
       (lp = false /\ done_at cfg n s' (tr ++ tr'))).
Proof.
  intros Hlaw. induction frames as [|f frames IH]; intros s tr Hs.
  - exists s, []. rewrite app_nil_r. now split.
  - cbn [EntitySequence.drive]. destruct Hs as [[m Hrun]|[Hlp Hdone]].
    + assert (Hrt : truthy (Entity.requestedTransition s) = false)
        by (destruct Hrun; assumption).
      rewrite Hrt.
      destruct (sequence_step lp cfg n m s tr f Hlaw Hrun)
        as (s1 & tr1 & Hup & Hnext).
      rewrite Hup. cbn [mbind result_bind].
      destruct (IH s1 (tr ++ tr1)) as (s2 & tr2 & Hdr & Hfin).
      { destruct Hnext as [Hr|[Hr|Hd]]; [left; eauto|left; eauto|right; exact Hd]. }
      rewrite Hdr. cbn [mbind result_bind].
      exists s2, (tr1 ++ tr2). split; [reflexivity|]. now rewrite app_assoc.
    + assert (Hrt : truthy (Entity.requestedTransition s) = true)
        by (destruct Hdone; assumption).
      rewrite Hrt. exists s, []. rewrite app_nil_r. split; [reflexivity|].
      right. now split.
Qed.

Lemma sequence_setup lp cfg f0 (cs : list C) :
  lawful -> cs <> [] ->
  exists s,
    EntitySequence.setup f0 cfg
      (EntitySequence.new (map EntitySequence.Concrete cs) lp)
    = Ok (s, [CallSetup 0 cfg]) /\
    running_at lp cfg (length cs) 0 s [CallSetup 0 cfg].
Proof.
  intros [Hsetup _] Hne. destruct cs as [|c0 cs]; [contradiction|].
  unfold EntitySequence.setup, EntitySequence.new.
  change (EntitySequence._activateEntity _)
    with (EntitySequence._activateEntity
            (seq_state true [] VNull cfg (Some f0) (c0 :: cs) lp 0
               EntitySequence.NoEntity)).
  rewrite (sequence_activate true [] VNull cfg f0 (c0 :: cs) lp 0 _ c0 eq_refl).
  eexists. split; [reflexivity|].
  eapply Running.
  - now rewrite Nat.Div0.mod_0_l.
  - now rewrite length_insert.
  - reflexivity.
  - reflexivity.
  - apply Hsetup.
  - intros _. simpl. lia.
  - reflexivity.
Qed.

(** A child of the kind completes at every update: the step of
    [sequence_step] is then always the one to the next visit. *)
Lemma sequence_step_prompt family frames lp cfg n m s tr f :
  lawful -> prompt family frames -> f ∈ frames ->
  running_in family lp cfg n m s tr ->
  exists s' tr',
    EntitySequence.update f s = Ok (s', tr') /\
    ((running_in family lp cfg n (S m) s' (tr ++ tr') /\ (lp = true \/ S m < n)) \/
     (lp = false /\ S m = n /\ done_at cfg n s' (tr ++ tr'))).
Proof.
  intros Hlaw (Hfs & Hfu & Hft & Hfc) Hf Hrun. pose proof Hlaw as [Hsetup Hupdate].
  destruct Hrun as [su ls rt fr cs c idx tr Hfam Hidx Hlen Hrt Hc Hs Hlp Htr].
  assert (Hlt : idx < n) by (apply lookup_lt_Some in Hc; lia).
  assert (Hn : 0 < n) by lia.
  assert (Hcf : family c).
  { rewrite Forall_forall in Hfam. apply Hfam. now apply list_elem_of_lookup_2 in Hc. }
  rewrite (sequence_update su ls rt cfg (Some fr) f cs lp idx c Hlaw Hc Hs).
  cbn zeta. rewrite Hlen.
  rewrite (Hfc f c Hf Hcf Hs).
  pose proof (next_mod n m Hn) as Hnext. rewrite <- Hidx in Hnext.
  assert (Hdown : Forall family (<[idx:=e_teardown f (e_update f c)]> cs))
    by (apply Forall_insert; auto).
  destruct (S idx <? n) eqn:Elt.
  - apply Nat.ltb_lt in Elt.
    destruct (cs !! S idx) as [c2|] eqn:Ec2;
      [|apply lookup_ge_None in Ec2; lia].
    assert (Hc2f : family c2).
    { rewrite Forall_forall in Hfam. apply Hfam. now apply list_elem_of_lookup_2 in Ec2. }
    eexists _, _. split; [reflexivity|]. left. split.
    + eapply RunningIn.
      * apply Forall_insert; auto.
      * now rewrite Hnext.
      * now rewrite !length_insert.
      * exact Hrt.
      * apply list_lookup_insert_eq. rewrite length_insert. lia.
      * apply Hsetup.
      * intros Hf'. specialize (Hlp Hf'). rewrite Nat.mod_small in Hidx by lia. lia.
      * rewrite lifecycle_app, Htr, visits_S, <- Hidx, <- !app_assoc. reflexivity.
    + destruct lp; [now left|right].
      specialize (Hlp eq_refl). rewrite Nat.mod_small in Hidx by lia. lia.
  - apply Nat.ltb_ge in Elt. destruct lp.
    + destruct (<[idx:=e_teardown f (e_update f c)]> cs !! 0) as [c2|] eqn:Ec2;
        [|apply lookup_ge_None in Ec2; rewrite length_insert in Ec2; lia].
      assert (Hc2f : family c2).
      { rewrite Forall_forall in Hdown. apply Hdown.
        now apply list_elem_of_lookup_2 in Ec2. }
      eexists _, _. split; [reflexivity|]. left. split; [|now left].
      eapply RunningIn.
      * apply Forall_insert; auto.
      * now rewrite Hnext.
      * now rewrite !length_insert.
      * exact Hrt.
      * apply list_lookup_insert_eq. rewrite length_insert. lia.
      * apply Hsetup.
      * discriminate.
      * rewrite lifecycle_app, Htr, visits_S, <- Hidx, <- !app_assoc. reflexivity.
    + specialize (Hlp eq_refl). rewrite Nat.mod_small in Hidx by lia.
      assert (Hm : m = n - 1) by lia.
      assert (Hi : idx = n - 1) by lia.
      assert (HSm : S m = n) by lia.
      eexists _, _. split; [reflexivity|]. right. split; [reflexivity|].
      split; [exact HSm|].
      rewrite Hi. apply (Done cfg n su ls f _ (e_update f c) f).
      * now rewrite length_insert.
      * now apply Hfc.
      * apply list_lookup_insert_eq. lia.
      * replace (visits cfg n n) with (visits cfg n (S m)) by now rewrite HSm.
        rewrite lifecycle_app, Htr, visits_S, (Nat.mod_small m n) by lia.
        rewrite <- Hidx, <- !app_assoc, <- Hi. reflexivity.
Qed.

Lemma sequence_drive_prompt family frames lp cfg n :
  lawful -> prompt family frames ->
  forall (later : list FrameInfo) m s tr,
    (forall f, f ∈ later -> f ∈ frames) ->
    running_in family lp cfg n m s tr ->
    exists s' tr',
      EntitySequence.drive later s = Ok (s', tr') /\
      if lp || (m + length later <? n)
      then running_in family lp cfg n (m + length later) s' (tr ++ tr')
      else done_at cfg n s' (tr ++ tr').
Proof.
  intros Hlaw Hprompt. induction later as [|f later IH]; intros m s tr Hin Hrun.
  - exists s, []. rewrite app_nil_r. split; [reflexivity|].
    cbn [length]. rewrite Nat.add_0_r.
    assert (Hm : lp || (m <? n) = true).
    { destruct lp; [reflexivity|]. cbn [orb]. apply Nat.ltb_lt.
      destruct Hrun. auto. }
    now rewrite Hm.
  - cbn [EntitySequence.drive length].
    assert (Hrt : truthy (Entity.requestedTransition s) = false)
      by (destruct Hrun; assumption).
    rewrite Hrt.
    destruct (sequence_step_prompt family frames lp cfg n m s tr f Hlaw Hprompt)
      as (s1 & tr1 & Hup & Hnext); [apply Hin; left|exact Hrun|].
    rewrite Hup. cbn [mbind result_bind].
    destruct Hnext as [[Hr _]|(Hlp & HSm & Hd)].
    + destruct (IH (S m) s1 (tr ++ tr1)) as (s2 & tr2 & Hdr & Hfin);
        [intros f' Hf'; apply Hin; now right|exact Hr|].
      rewrite Hdr. cbn [mbind result_bind].
      exists s2, (tr1 ++ tr2). split; [reflexivity|].
      replace (m + S (length later)) with (S m + length later) by lia.
      now rewrite app_assoc.
    + assert (Hstop : EntitySequence.drive later s1 = Ok (s1, [])).
      { destruct later as [|f' later']; [reflexivity|].
        cbn [EntitySequence.drive].
        assert (Hrt1 : truthy (Entity.requestedTransition s1) = true)
          by (destruct Hd; assumption).
        now rewrite Hrt1. }
      rewrite Hstop. cbn [mbind result_bind].
      exists s1, (tr1 ++ []). split; [reflexivity|]. rewrite app_nil_r.
      subst lp. cbn [orb].
      destruct (Nat.ltb_spec (m + S (length later)) n); [lia|exact Hd].
Qed.

Lemma sequence_setup_prompt family frames lp cfg f0 (cs : list C) :
  lawful -> prompt family frames -> Forall family cs -> cs <> [] ->
  exists s,
    EntitySequence.setup f0 cfg
      (EntitySequence.new (map EntitySequence.Concrete cs) lp)
    = Ok (s, [CallSetup 0 cfg]) /\
    running_in family lp cfg (length cs) 0 s [CallSetup 0 cfg].
Proof.
  intros [Hsetup _] (Hfs & _) Hfam Hne. destruct cs as [|c0 cs]; [contradiction|].
  unfold EntitySequence.setup, EntitySequence.new.
  change (EntitySequence._activateEntity _)
    with (EntitySequence._activateEntity
            (seq_state true [] VNull cfg (Some f0) (c0 :: cs) lp 0
               EntitySequence.NoEntity)).
  rewrite (sequence_activate true [] VNull cfg f0 (c0 :: cs) lp 0 _ c0 eq_refl).
  eexists. split; [reflexivity|].
  eapply RunningIn.
  - apply Forall_insert; [exact Hfam|]. apply Hfs. now inversion Hfam.
  - now rewrite Nat.Div0.mod_0_l.
  - now rewrite length_insert.
  - reflexivity.
  - reflexivity.
  - apply Hsetup.
  - intros _. simpl. lia.
  - reflexivity.
Qed.

(** C6.  A sequence over the [n] concrete entities [cs], for children
    that keep the contract of the base class on [isSetup].

    One update.  When the sequence runs its child at [idx], [update]
    updates that child and
    - does nothing more when the child does not ask for a transition;
    - else tears the child down and sets up the child at [idx + 1],
      when there is one;
    - else, with [loop], tears the child down and sets up child 0
      again, and the sequence does not ask for a transition;
    - else, without [loop], tears the child down and asks for the
      transition that the child asked for.

    A whole run, for children that complete in their turn.  The
    sequence is set up and then updated frame by frame for as long as it
    has not asked for a transition, and every child completes at its
    first update.  After [k] frames, with [loop] or with [k < n], the
    sequence is at visit [k]: the set-ups and tear-downs are one pair
    for each of the [k] earlier visits, in the order of the indices and
    around again, and then the set-up of the child at [k mod n]; so
    with [loop] the completion of the last child is followed by the
    set-up of child 0.  Without [loop] and with [k >= n] the sequence
    has asked for the transition of the last child, and the set-ups and
    tear-downs are exactly one pair for each of the [n] children in the
    order of the indices.

    Any run.  Whatever the children do, while the sequence is running
    it is at some visit [m], with the set-ups and tear-downs of the [m]
    earlier visits behind it, and once it has asked for a transition
    it does not loop, each child has had exactly one set-up and one
    tear-down in the order of the indices, and the transition is the
    one of the last child. *)
Theorem sequence_runs_in_order (lp : bool) (cs : list C) f0 cfg frames :
  lawful -> cs <> [] ->
  let n := length cs in
  (forall su ls rt lf f (cs' : list C) idx c,
     cs' !! idx = Some c -> e_isSetup c = true ->
     let s := seq_state su ls rt cfg lf cs' lp idx (EntitySequence.Listed idx) in
     let c1 := e_update f c in
     let down := <[idx:=e_teardown f c1]> cs' in
     (truthy (e_requestedTransition c1) = false ->
      EntitySequence.update f s
      = Ok (seq_state su ls rt cfg (Some f) (<[idx:=c1]> cs') lp idx
              (EntitySequence.Listed idx),
            [CallUpdate idx])) /\
     (truthy (e_requestedTransition c1) = true ->
      (forall c2, cs' !! S idx = Some c2 ->
         EntitySequence.update f s
         = Ok (seq_state su ls rt cfg (Some f) (<[S idx:=e_setup f cfg c2]> down)
                 lp (S idx) (EntitySequence.Listed (S idx)),
               [CallUpdate idx; CallTeardown idx; CallSetup (S idx) cfg])) /\
      (S idx = length cs' -> lp = true ->
         exists c2, down !! 0 = Some c2 /\
           EntitySequence.update f s
           = Ok (seq_state su ls rt cfg (Some f) (<[0:=e_setup f cfg c2]> down)
                   lp 0 (EntitySequence.Listed 0),
                 [CallUpdate idx; CallTeardown idx; CallSetup 0 cfg])) /\
      (S idx = length cs' -> lp = false ->
         EntitySequence.update f s
         = Ok (seq_state su ls (e_requestedTransition c1) cfg (Some f) down
                 lp idx (EntitySequence.Listed idx),
               [CallUpdate idx; CallTeardown idx])))) /\
  (forall family, prompt family frames -> Forall family cs ->
     let k := length frames in
     exists s tr,
       EntitySequence.play f0 cfg frames
         (EntitySequence.new (map EntitySequence.Concrete cs) lp) = Ok (s, tr) /\
       if lp || (k <? n) then
         truthy (Entity.requestedTransition s) = false /\
         EntitySequence.currentEntityIndex (Entity.fields s) = k mod n /\
         lifecycle tr = visits cfg n k ++ [CallSetup (k mod n) cfg]
       else
         truthy (Entity.requestedTransition s) = true /\
         lifecycle tr =
           flat_map (fun j => [CallSetup j cfg; CallTeardown j]) (seq 0 n) /\
         exists f c,
           Entity.requestedTransition s = e_requestedTransition c /\
           EntitySequence.entities (Entity.fields s) !! (n - 1)
             = Some (EntitySequence.Concrete (e_teardown f c))) /\
  exists s tr,
    EntitySequence.play f0 cfg frames
      (EntitySequence.new (map EntitySequence.Concrete cs) lp) = Ok (s, tr) /\
    ((truthy (Entity.requestedTransition s) = false /\
      exists m,
        (lp = false -> m < n) /\
        EntitySequence.currentEntityIndex (Entity.fields s) = m mod n /\
        lifecycle tr = visits cfg n m ++ [CallSetup (m mod n) cfg])
     \/
     (lp = false /\
      truthy (Entity.requestedTransition s) = true /\
      lifecycle tr =
        flat_map (fun j => [CallSetup j cfg; CallTeardown j]) (seq 0 n) /\
      exists f c,
        Entity.requestedTransition s = e_requestedTransition c /\
        EntitySequence.entities (Entity.fields s) !! (n - 1)
          = Some (EntitySequence.Concrete (e_teardown f c)))).
Proof.
  intros Hlaw Hne n. split; [|split].
  - intros su ls rt lf f cs' idx c Hc Hs. cbn zeta.
    pose proof (sequence_update su ls rt cfg lf f cs' lp idx c Hlaw Hc Hs) as Hup.
    cbn zeta in Hup.
    assert (Hidx : idx < length cs') by now apply lookup_lt_Some in Hc.
    split; [intros Ert; now rewrite Ert in Hup|].
    intros Ert. rewrite Ert in Hup. split; [|split].
    + intros c2 Hc2. rewrite Hc2 in Hup.
      assert (Hlt : S idx < length cs') by now apply lookup_lt_Some in Hc2.
      destruct (Nat.ltb_spec (S idx) (length cs')); [exact Hup|lia].
    + intros Hlen ->. destruct (Nat.ltb_spec (S idx) (length cs')); [lia|].
      destruct (<[idx:=e_teardown f (e_update f c)]> cs' !! 0) as [c2|] eqn:Ec2.
      * now exists c2.
      * apply lookup_ge_None in Ec2. rewrite length_insert in Ec2. lia.
    + intros Hlen ->. destruct (Nat.ltb_spec (S idx) (length cs')); [lia|exact Hup].
  - intros family Hprompt Hfam. cbn zeta.
    destruct (sequence_setup_prompt family frames lp cfg f0 cs Hlaw Hprompt Hfam Hne)
      as (s0 & Hset & Hrun0).
    destruct (sequence_drive_prompt family frames lp cfg n Hlaw Hprompt frames 0 s0
                [CallSetup 0 cfg]) as (s & tr & Hdr & Hfin); [auto|exact Hrun0|].
    unfold EntitySequence.play. rewrite Hset. cbn [mbind result_bind].
    rewrite Hdr. cbn [mbind result_bind].
    exists s, ([CallSetup 0 cfg] ++ tr). split; [reflexivity|].
    cbn [Nat.add] in Hfin.
    destruct (lp || (length frames <? n)).
    + destruct Hfin as [su ls rt fr cs' c idx tr' Hf Hidx Hlen Hrt Hc Hs Hm Htr].
      split; [exact Hrt|]. subst idx. now split.
    + destruct Hfin as [su ls fr cs' c f tr' Hlen Hrt Hc Htr].
      split; [exact Hrt|]. split.
      * rewrite Htr. now apply visits_first_round.
      * exists f, c. split; [reflexivity|].
        cbn [seq_state Entity.fields EntitySequence.entities].
        now apply lookup_concrete.
  - destruct (sequence_setup lp cfg f0 cs Hlaw Hne) as (s0 & Hset & Hrun0).
    destruct (sequence_drive lp cfg n frames Hlaw s0 [CallSetup 0 cfg])
      as (s & tr & Hdr & Hfin); [left; eauto|].
    unfold EntitySequence.play. rewrite Hset. cbn [mbind result_bind].
    rewrite Hdr. cbn [mbind result_bind].
    exists s, ([CallSetup 0 cfg] ++ tr). split; [reflexivity|].
    destruct Hfin as [[m Hrun]|[Hlp Hdone]].
    + left. destruct Hrun as [su ls rt fr cs' c idx tr' Hidx Hlen Hrt Hc Hs Hm Htr].
      split; [exact Hrt|]. exists m. subst idx. now repeat split.
    + right. split; [exact Hlp|].
      destruct Hdone as [su ls fr cs' c f tr' Hlen Hrt Hc Htr].
      split; [exact Hrt|]. split.
      * rewrite Htr. now apply visits_first_round.
      * exists f, c. split; [reflexivity|].
        cbn [seq_state Entity.fields EntitySequence.entities].
        now apply lookup_concrete.
Qed.

End SequenceFacts.

Lemma leaf_lawful : @lawful Leaf.t Leaf_like.
Proof.
  destruct leaf_keeps_isSetup as (Hs & Hu & _). split.
  - intros f cfg c. apply (isSetup_setup Leaf.hooks). exact leaf_keeps_isSetup.
  - intros f c. cbn [e_isSetup e_update Leaf_like Entity_like].
    unfold Entity.update. now rewrite Hu.
Qed.

Lemma waits_64_prompt : prompt waits_64 [frame 64; frame 64; frame 64].
Proof.
  unfold prompt, waits_64. repeat split.
  - intros f cfg [su ls rt c0 lf k] (w & Hk & Hw). cbn in Hk. subst k.
    exists w. now split.
  - intros f [su ls rt c0 lf k] (w & Hk & Hw). cbn in Hk. subst k.
    exists w. split; [|exact Hw]. cbn.
    now destruct (timeSinceStart f >=? w)%Z.
  - intros f [su ls rt c0 lf k] (w & Hk & Hw). cbn in Hk. subst k.
    exists w. now split.
  - intros f [su ls rt c0 lf k] Hf (w & Hk & Hw) _. cbn in Hk. subst k.
    assert (f = frame 64) as ->.
    { repeat (apply elem_of_cons in Hf as [Hf|Hf]; [exact Hf|]).
      now apply elem_of_nil in Hf. }
    cbn. destruct (Z.geb_spec 64 w); [reflexivity|lia].
Qed.

Lemma three_waits_64 : Forall waits_64 three_waits.
Proof. repeat constructor; eexists; (split; [reflexivity|lia]). Qed.

(** [sequence_runs_in_order] on [three_waits] with three updates at
    64 ms, when every child completes at its first update.  Without
    [loop] the sequence ends with the transition of the last child
    after one set-up and one tear-down for each child; with [loop] the
    last child is torn down and child 0 is set up again. *)
Lemma sequence_runs_in_order_witness :
  (exists s tr,
     EntitySequence.play (frame 0) VNull [frame 64; frame 64; frame 64]
       (EntitySequence.new (map EntitySequence.Concrete three_waits) false)
       = Ok (s, tr) /\
     truthy (Entity.requestedTransition s) = true /\
     lifecycle tr =
       [CallSetup 0 VNull; CallTeardown 0; CallSetup 1 VNull; CallTeardown 1;
        CallSetup 2 VNull; CallTeardown 2]) /\
  (exists s tr,
     EntitySequence.play (frame 0) VNull [frame 64; frame 64; frame 64]
       (EntitySequence.new (map EntitySequence.Concrete three_waits) true)
       = Ok (s, tr) /\
     truthy (Entity.requestedTransition s) = false /\
     EntitySequence.currentEntityIndex (Entity.fields s) = 0 /\
     lifecycle tr =
       [CallSetup 0 VNull; CallTeardown 0; CallSetup 1 VNull; CallTeardown 1;
        CallSetup 2 VNull; CallTeardown 2; CallSetup 0 VNull]).
Proof.
  split.
  - destruct (sequence_runs_in_order false three_waits (frame 0) VNull
                [frame 64; frame 64; frame 64] leaf_lawful)
      as (_ & Hrun & _); [discriminate|].
    destruct (Hrun waits_64 waits_64_prompt three_waits_64)
      as (s & tr & Hplay & Hrt & Htr & _).
    exists s, tr. split; [exact Hplay|]. split; [exact Hrt|exact Htr].
  - destruct (sequence_runs_in_order true three_waits (frame 0) VNull
                [frame 64; frame 64; frame 64] leaf_lawful)
      as (_ & Hrun & _); [discriminate|].
    destruct (Hrun waits_64 waits_64_prompt three_waits_64)
      as (s & tr & Hplay & Hrt & Hidx & Htr).
    exists s, tr. split; [exact Hplay|]. split; [exact Hrt|].
    split; [exact Hidx|exact Htr].
Defined.

(** The children of [three_waits] complete at 16, 32 and 64 ms: one
    set-up and one tear-down for each, and the transition of the last
    child at the end. *)
Example sequence_three_waits :
  ('(s, tr) ← EntitySequence.play (frame 0) VNull
                [frame 16; frame 32; frame 48; frame 64]
                (EntitySequence.new (map EntitySequence.Concrete three_waits) false);
   Ok (lifecycle tr, Entity.requestedTransition s))
  = Ok ([CallSetup 0 VNull; CallTeardown 0; CallSetup 1 VNull; CallTeardown 1;
         CallSetup 2 VNull; CallTeardown 2], VBool true).
Proof. reflexivity. Qed.

(** The same children with [loop]: when the last one completes it is
    torn down and child 0 is set up again; the sequence goes on. *)
Example sequence_loops :
  ('(s, tr) ← EntitySequence.play (frame 0) VNull [frame 16; frame 32; frame 64]
                (EntitySequence.new (map EntitySequence.Concrete three_waits) true);
   Ok (lifecycle tr, EntitySequence.currentEntityIndex (Entity.fields s),
       Entity.requestedTransition s))
  = Ok ([CallSetup 0 VNull; CallTeardown 0; CallSetup 1 VNull; CallTeardown 1;
         CallSetup 2 VNull; CallTeardown 2; CallSetup 0 VNull], 0, VNull).
Proof. reflexivity. Qed.

(** ** StateMachine: the visited states and the call of the resolver *)

Section MachineFacts.
Context {C : Type} `{EntityLike C}.

Lemma push_visited_spec name (sm sm' : StateMachine.t C) :
  StateMachine.push_visited name sm = Ok sm' ->
  exists vs,
    StateMachine.visitedStates (Entity.fields sm) = Some vs /\
    sm' = Entity.set_fields
            (StateMachine.set_visitedStates (Some (vs ++ [name])) (Entity.fields sm))
            sm.
Proof.
  unfold StateMachine.push_visited.
  destruct (StateMachine.visitedStates (Entity.fields sm)) as [vs|]; [|discriminate].
  intros [= <-]. now exists vs.
Qed.

Lemma visited_put_state c (fs : StateMachine.fields C) :
  StateMachine.visitedStates (StateMachine.put_state c fs)
  = StateMachine.visitedStates fs.
Proof. unfold StateMachine.put_state. now destruct (StateMachine.state fs). Qed.

(** What a call of [_changeState] that returns has done to
    [visitedStates], to the transition and to the name of the state. *)
Lemma changeState_visited name params (sm sm' : StateMachine.t C) tr :
  StateMachine._changeState name params sm = Ok (sm', tr) ->
  exists vs,
    StateMachine.visitedStates (Entity.fields sm) = Some vs /\
    StateMachine.visitedStates (Entity.fields sm') = Some (vs ++ [name]) /\
    (StateMachine.is_ending name (Entity.fields sm) = true ->
     Entity.requestedTransition sm' = VString name) /\
    (StateMachine.is_ending name (Entity.fields sm) = false ->
     StateMachine.stateName (Entity.fields sm') = VString name).
Proof.
  unfold StateMachine._changeState.
  destruct (StateMachine.is_ending name (Entity.fields sm)) eqn:Eend.
  - destruct (StateMachine.push_visited name _) as [sm1|] eqn:Epush; [|discriminate].
    cbn [mbind result_bind]. intros [= <- <-].
    apply push_visited_spec in Epush as (vs & Hvs & ->).
    exists vs. cbn in *. repeat split; try assumption; try reflexivity. discriminate.
  - intros Hcs.
    (* the tear-down of the previous state *)
    match type of Hcs with
    | (?a ≫= _) = _ => destruct a as [[sm1 tr1]|] eqn:Etd; [|discriminate]
    end.
    cbn [mbind result_bind] in Hcs.
    assert (Hv1 : StateMachine.visitedStates (Entity.fields sm1)
                  = StateMachine.visitedStates (Entity.fields sm)).
    { destruct (StateMachine.state (Entity.fields sm));
        [now injection Etd as <- _| |];
        (destruct (StateMachine.get_state _); [|discriminate];
         destruct (the_frame _); [|discriminate];
         cbn [mbind result_bind] in Etd; injection Etd as <- _;
         cbn [Entity.fields Entity.set_fields]; apply visited_put_state). }
    clear Etd.
    (* the set-up of the next state *)
    match type of Hcs with
    | (?a ≫= _) = _ => destruct a as [[sm2 tr2]|] eqn:Esu; [|discriminate]
    end.
    cbn [mbind result_bind] in Hcs.
    assert (Hv2 : StateMachine.visitedStates (Entity.fields sm2)
                  = StateMachine.visitedStates (Entity.fields sm1)).
    { destruct (StateMachine.states (Entity.fields sm1) !! name) as [d|];
        [|discriminate].
      destruct d as [e|make];
        (cbv beta iota zeta in Esu;
         destruct (StateMachine.get_state _); [|discriminate];
         destruct (the_frame _); [|discriminate];
         cbn [mbind result_bind] in Esu; injection Esu as <- _;
         cbn [Entity.fields Entity.set_fields]; rewrite visited_put_state;
         reflexivity). }
    destruct (StateMachine.push_visited name _) as [sm3|] eqn:Epush; [|discriminate].
    cbn [mbind result_bind] in Hcs. injection Hcs as <- <-.
    apply push_visited_spec in Epush as (vs & Hvs & ->).
    cbn [Entity.fields Entity.set_fields StateMachine.set_stateName
         StateMachine.visitedStates] in Hvs.
    exists vs. rewrite <- Hv1, <- Hv2. split; [exact Hvs|].
    split; [reflexivity|]. split; [discriminate|]. reflexivity.
Qed.

Lemma ending_put_state name c (fs : StateMachine.fields C) :
  StateMachine.is_ending name (StateMachine.put_state c fs)
  = StateMachine.is_ending name fs.
Proof. unfold StateMachine.put_state. now destruct (StateMachine.state fs). Qed.

Lemma update_visited f (sm sm' : StateMachine.t C) tr :
  StateMachine.update f sm = Ok (sm', tr) ->
  StateMachine.visitedStates (Entity.fields sm')
    = StateMachine.visitedStates (Entity.fields sm) \/
  exists vs name,
    StateMachine.visitedStates (Entity.fields sm) = Some vs /\
    StateMachine.visitedStates (Entity.fields sm') = Some (vs ++ [name]) /\
    (StateMachine.is_ending name (Entity.fields sm) = true ->
     Entity.requestedTransition sm' = VString name) /\
    (StateMachine.is_ending name (Entity.fields sm) = false ->
     StateMachine.stateName (Entity.fields sm') = VString name).
Proof.
  unfold StateMachine.update.
  remember (Entity.update Entity.no_hooks f sm) as sm0 eqn:Esm0.
  assert (Hf0 : Entity.fields sm0 = Entity.fields sm) by now rewrite Esm0.
  clear Esm0.
  intros Hup.
  assert (Hgo :
    (c ← StateMachine.get_state (Entity.fields sm0);
     let c := e_update f c in
     let tr := [StateMachine.ChildCall
                  (CallUpdate (StateMachine.stateName (Entity.fields sm0)))] in
     let sm1 := Entity.set_fields (StateMachine.put_state c (Entity.fields sm0)) sm0 in
     let requestedTransition := e_requestedTransition c in
     if truthy requestedTransition then
       '(name, params) ← StateMachine.unpack_transition requestedTransition;
       '(nextStateDescriptor, tr1) ←
         StateMachine.resolve requestedTransition name params sm1;
       '(nextStateName, nextStateParams) ←
         StateMachine.unpack_state nextStateDescriptor requestedTransition;
       '(sm2, tr2) ← StateMachine._changeState nextStateName nextStateParams sm1;
       Ok (sm2, tr ++ tr1 ++ tr2)
     else Ok (sm1, tr)) = Ok (sm', tr) ->
    StateMachine.visitedStates (Entity.fields sm')
      = StateMachine.visitedStates (Entity.fields sm) \/
    exists vs name,
      StateMachine.visitedStates (Entity.fields sm) = Some vs /\
      StateMachine.visitedStates (Entity.fields sm') = Some (vs ++ [name]) /\
      (StateMachine.is_ending name (Entity.fields sm) = true ->
       Entity.requestedTransition sm' = VString name) /\
      (StateMachine.is_ending name (Entity.fields sm) = false ->
       StateMachine.stateName (Entity.fields sm') = VString name)).
  { clear Hup. intros Hup.
    destruct (StateMachine.get_state (Entity.fields sm0)) as [c|]; [|discriminate].
    cbn [mbind result_bind] in Hup. cbv zeta in Hup.
    destruct (truthy (e_requestedTransition (e_update f c))).
    - destruct (StateMachine.unpack_transition _) as [[name params]|];
        [|discriminate].
      cbn [mbind result_bind] in Hup.
      destruct (StateMachine.resolve _ _ _ _) as [[d tr1]|]; [|discriminate].
      cbn [mbind result_bind] in Hup.
      destruct (StateMachine.unpack_state _ _) as [[n p]|]; [|discriminate].
      cbn [mbind result_bind] in Hup.
      destruct (StateMachine._changeState _ _ _) as [[sm2 tr2]|] eqn:Ecs;
        [|discriminate].
      cbn [mbind result_bind] in Hup. injection Hup as <- <-.
      apply changeState_visited in Ecs as (vs & Hvs & Hvs' & Hend & Hname).
      cbn [Entity.fields Entity.set_fields] in Hvs, Hend, Hname.
      rewrite visited_put_state, Hf0 in Hvs.
      rewrite ending_put_state, Hf0 in Hend, Hname.
      right. exists vs, n. auto.
    - injection Hup as <- <-. left.
      cbn [Entity.fields Entity.set_fields].
      now rewrite visited_put_state, Hf0. }
  destruct (StateMachine.state (Entity.fields sm0)).
  - injection Hup as <- <-. left. now rewrite Hf0.
  - now apply Hgo.
  - now apply Hgo.
Qed.

(** C3, as the code has it.
    - When the name handed to [_changeState] is one of the ending
      states, the call returns with the transition of the machine set to
      that name and the name appended to [visitedStates]; nothing else
      of the machine changes and the machine calls nothing: no factory,
      no set-up, no tear-down.
    - When [setup] returns, [visitedStates] holds the name of the
      starting state and nothing else.
    - A call of [_changeState] that returns appends its name to
      [visitedStates], and so does an [update] in which the state
      changes; an [update] without a change of state leaves the list as
      it is.
    So [visitedStates] lists the starting state and then every state
    entered and the ending state reached, in the order of the visits. *)
Theorem machine_visitedStates :
  (forall (sm : StateMachine.t C) name params vs,
     name ∈ StateMachine.endingStates (Entity.fields sm) ->
     StateMachine.visitedStates (Entity.fields sm) = Some vs ->
     StateMachine._changeState name params sm =
       Ok (Entity.set_fields
             (StateMachine.set_visitedStates (Some (vs ++ [name])) (Entity.fields sm))
             (Entity.set_requestedTransition (VString name) sm), [])) /\
  (forall f cfg (sm sm' : StateMachine.t C) tr,
     StateMachine.setup f cfg sm = Ok (sm', tr) ->
     StateMachine.visitedStates (Entity.fields sm')
       = Some [force (StateMachine.startingState (Entity.fields sm))]) /\
  (forall name params (sm sm' : StateMachine.t C) tr,
     StateMachine._changeState name params sm = Ok (sm', tr) ->
     exists vs,
       StateMachine.visitedStates (Entity.fields sm) = Some vs /\
       StateMachine.visitedStates (Entity.fields sm') = Some (vs ++ [name]) /\
       (StateMachine.is_ending name (Entity.fields sm) = true ->
        Entity.requestedTransition sm' = VString name) /\
       (StateMachine.is_ending name (Entity.fields sm) = false ->
        StateMachine.stateName (Entity.fields sm') = VString name)) /\
  (forall f (sm sm' : StateMachine.t C) tr,
     StateMachine.update f sm = Ok (sm', tr) ->
     StateMachine.visitedStates (Entity.fields sm')
       = StateMachine.visitedStates (Entity.fields sm) \/
     exists vs name,
       StateMachine.visitedStates (Entity.fields sm) = Some vs /\
       StateMachine.visitedStates (Entity.fields sm') = Some (vs ++ [name]) /\
       (StateMachine.is_ending name (Entity.fields sm) = true ->
        Entity.requestedTransition sm' = VString name) /\
       (StateMachine.is_ending name (Entity.fields sm) = false ->
        StateMachine.stateName (Entity.fields sm') = VString name)).
Proof.
  split; [|split; [|split]].
  - intros sm name params vs Hend Hvs.
    unfold StateMachine._changeState, StateMachine.is_ending.
    rewrite (bool_decide_eq_true_2 _ Hend).
    unfold StateMachine.push_visited.
    cbn [Entity.fields Entity.set_requestedTransition]. rewrite Hvs.
    reflexivity.
  - intros f cfg sm sm' tr Hsetup. unfold StateMachine.setup in Hsetup.
    apply changeState_visited in Hsetup as (vs & Hvs & Hvs' & _).
    cbn in Hvs. injection Hvs as <-. exact Hvs'.
  - exact changeState_visited.
  - exact update_visited.
Qed.

(** C2, as the code has it.  When the child of the current state asks
    for a transition and the entry of [transitions] for the current
    state is a function, [update] calls that function once, with the
    name of the transition, its parameters and the machine itself, and
    goes on with the descriptor that the function returns.  The third
    argument is an object; it is never a string. *)
Theorem machine_resolver_arguments f (sm : StateMachine.t C) c resolver name params :
  let sm0 := Entity.update Entity.no_hooks f sm in
  let c1 := e_update f c in
  let sm1 := Entity.set_fields (StateMachine.put_state c1 (Entity.fields sm0)) sm0 in
  let requestedTransition := e_requestedTransition c1 in
  StateMachine.get_state (Entity.fields sm) = Ok c ->
  truthy requestedTransition = true ->
  StateMachine.unpack_transition requestedTransition = Ok (name, params) ->
  StateMachine.transitions (Entity.fields sm)
    !! StateMachine.stateName_key (Entity.fields sm)
    = Some (StateMachine.Resolver resolver) ->
  StateMachine.update f sm =
    (nextStateDescriptor ← resolver name params (StateMachine.this_value sm1);
     '(nextStateName, nextStateParams) ←
       StateMachine.unpack_state nextStateDescriptor requestedTransition;
     '(sm2, tr) ← StateMachine._changeState nextStateName nextStateParams sm1;
     Ok (sm2,
         [StateMachine.ChildCall
            (CallUpdate (StateMachine.stateName (Entity.fields sm)));
          StateMachine.ResolverCall name params (StateMachine.this_value sm1)]
         ++ tr)) /\
  (forall s, StateMachine.this_value sm1 <> VString s).
Proof.
  cbn zeta. intros Hget Hrt Hunpack Htrans. split; [|discriminate].
  unfold StateMachine.update.
  remember (Entity.update Entity.no_hooks f sm) as sm0 eqn:Esm0.
  assert (Hf0 : Entity.fields sm0 = Entity.fields sm) by now rewrite Esm0.
  clear Esm0.
  assert (Hstate : StateMachine.state (Entity.fields sm0) <> StateMachine.NoState).
  { rewrite Hf0. intros Hno. unfold StateMachine.get_state in Hget.
    rewrite Hno in Hget. discriminate. }
  assert (Hres :
    StateMachine.resolve (e_requestedTransition (e_update f c)) name params
      (Entity.set_fields
         (StateMachine.put_state (e_update f c) (Entity.fields sm0)) sm0)
    = (d ← resolver name params
             (StateMachine.this_value
                (Entity.set_fields
                   (StateMachine.put_state (e_update f c) (Entity.fields sm0)) sm0));
       Ok (d, [StateMachine.ResolverCall name params
                 (StateMachine.this_value
                    (Entity.set_fields
                       (StateMachine.put_state (e_update f c) (Entity.fields sm0))
                       sm0))]))).
  { unfold StateMachine.resolve. cbn [Entity.fields Entity.set_fields].
    replace (StateMachine.transitions (StateMachine.put_state (e_update f c) (Entity.fields sm0)))
      with (StateMachine.transitions (Entity.fields sm))
      by (rewrite Hf0; unfold StateMachine.put_state;
          now destruct (StateMachine.state (Entity.fields sm))).
    replace (StateMachine.stateName_key (StateMachine.put_state (e_update f c) (Entity.fields sm0)))
      with (StateMachine.stateName_key (Entity.fields sm))
      by (rewrite Hf0; unfold StateMachine.put_state, StateMachine.stateName_key;
          now destruct (StateMachine.state (Entity.fields sm))).
    now rewrite Htrans. }
  assert (Hbody :
    (c0 ← StateMachine.get_state (Entity.fields sm0);
     let c1 := e_update f c0 in
     let tr := [StateMachine.ChildCall
                  (CallUpdate (StateMachine.stateName (Entity.fields sm0)))] in
     let sm1 := Entity.set_fields (StateMachine.put_state c1 (Entity.fields sm0)) sm0 in
     let requestedTransition := e_requestedTransition c1 in
     if truthy requestedTransition then
       '(name, params) ← StateMachine.unpack_transition requestedTransition;
       '(nextStateDescriptor, tr1) ←
         StateMachine.resolve requestedTransition name params sm1;
       '(nextStateName, nextStateParams) ←
         StateMachine.unpack_state nextStateDescriptor requestedTransition;
       '(sm2, tr2) ← StateMachine._changeState nextStateName nextStateParams sm1;
       Ok (sm2, tr ++ tr1 ++ tr2)
     else Ok (sm1, tr))
    = (nextStateDescriptor ←
         resolver name params
           (StateMachine.this_value
              (Entity.set_fields
                 (StateMachine.put_state (e_update f c) (Entity.fields sm0)) sm0));
       '(nextStateName, nextStateParams) ←
         StateMachine.unpack_state nextStateDescriptor
           (e_requestedTransition (e_update f c));
       '(sm2, tr) ←
         StateMachine._changeState nextStateName nextStateParams
           (Entity.set_fields
              (StateMachine.put_state (e_update f c) (Entity.fields sm0)) sm0);
       Ok (sm2,
           [StateMachine.ChildCall
              (CallUpdate (StateMachine.stateName (Entity.fields sm)));
            StateMachine.ResolverCall name params
              (StateMachine.this_value
                 (Entity.set_fields
                    (StateMachine.put_state (e_update f c) (Entity.fields sm0))
                    sm0))]
           ++ tr))).
  { rewrite Hf0 at 1. rewrite Hget. cbn [mbind result_bind]. cbv zeta.
    rewrite Hrt, Hunpack. cbn [mbind result_bind]. rewrite Hres.
    destruct (resolver name params _) as [d|e]; [|reflexivity].
    cbn [mbind result_bind].
    destruct (StateMachine.unpack_state _ _) as [[n p]|e]; [|reflexivity].
    cbn [mbind result_bind].
    destruct (StateMachine._changeState _ _ _) as [[sm2 tr2]|e]; [|reflexivity].
    cbn [mbind result_bind]. rewrite Hf0. reflexivity. }
  destruct (StateMachine.state (Entity.fields sm0)); [contradiction| |]; exact Hbody.
Qed.

End MachineFacts.

(** C2 as the specification states it does not hold: the machine is in the state "start";
    called with the name of that state as its third argument the table
    function answers "by_name"; the machine goes to "by_object". *)
Lemma machine_resolver_gets_machine :
  StateMachine.stateName (Entity.fields machine_ctx_ready) = VString "start" /\
  makeTransitionTable_f win_table (VString "win") VUndefined (VString "start")
    VUndefined = Ok (VString "by_name") /\
  ('(sm, _) ← StateMachine.update (frame 16) machine_ctx_ready;
   Ok (StateMachine.stateName (Entity.fields sm)))
  = Ok (VString "by_object").
Proof. repeat split; reflexivity. Qed.

(** [machine_resolver_arguments] on [machine_ctx_ready] at 16 ms. *)
Lemma machine_resolver_arguments_witness :
  let child := Entity.mk true [] (VString "win") VNull (Some (frame 0))
                 (Leaf.TransitoryEntity (VString "win")) in
  let sm0 := Entity.update Entity.no_hooks (frame 16) machine_ctx_ready in
  let c1 := e_update (frame 16) child in
  let sm1 := Entity.set_fields (StateMachine.put_state c1 (Entity.fields sm0)) sm0 in
  StateMachine.update (frame 16) machine_ctx_ready =
    (nextStateDescriptor ←
       makeTransitionTable_f win_table (VString "win") VUndefined
         (StateMachine.this_value sm1) VUndefined;
     '(nextStateName, nextStateParams) ←
       StateMachine.unpack_state nextStateDescriptor (e_requestedTransition c1);
     '(sm2, tr) ← StateMachine._changeState nextStateName nextStateParams sm1;
     Ok (sm2,
         [StateMachine.ChildCall
            (CallUpdate (StateMachine.stateName (Entity.fields machine_ctx_ready)));
          StateMachine.ResolverCall (VString "win") VUndefined
            (StateMachine.this_value sm1)]
         ++ tr)) /\
  (forall s, StateMachine.this_value sm1 <> VString s).
Proof.
  apply (machine_resolver_arguments (frame 16) machine_ctx_ready
           (Entity.mk true [] (VString "win") VNull (Some (frame 0))
              (Leaf.TransitoryEntity (VString "win")))
           (fun name params context =>
              makeTransitionTable_f win_table name params context VUndefined)
           (VString "win") VUndefined);
    vm_compute; reflexivity.
Defined.

(** C3 as the specification states it does not hold: after [setup] the list already holds
    the starting state, and at the end of the run it is
    ["start"; "middle"; "end"], not ["middle"; "end"].  The last update
    reaches the ending state: it updates the child of [middle] and calls
    nothing else. *)
Lemma machine_visits_starting_state :
  ('(sm, _) ← StateMachine.setup (frame 0) VNull machine3;
   Ok (StateMachine.visitedStates (Entity.fields sm)))
  = Ok (Some ["start"]) /\
  ('(sm, _) ← StateMachine.setup (frame 0) VNull machine3;
   '(sm, _) ← StateMachine.update (frame 16) sm;
   '(sm, tr) ← StateMachine.update (frame 32) sm;
   Ok (StateMachine.visitedStates (Entity.fields sm),
       Entity.requestedTransition sm,
       List.filter (fun e => match e with
                             | StateMachine.ResolverCall _ _ _ => false
                             | _ => true
                             end) tr))
  = Ok (Some ["start"; "middle"; "end"], VString "end",
        [StateMachine.ChildCall (CallUpdate (VString "middle"))]) /\
  Some ["start"; "middle"; "end"] <> Some ["middle"; "end"].
Proof. repeat split; try reflexivity. discriminate. Qed.

(** ** ParallelEntity: [setup], [teardown], [onSignal] and the arrays *)

(** The fields of a record that is written out. *)
Ltac entity_fields :=
  cbn [Entity.fields Entity.set_fields Entity.set_requestedTransition
       Entity.set_isSetup Entity.set_lastFrameInfo Entity.set_entityConfig
       Entity.set_eventListeners Entity.isSetup Entity.eventListeners
       Entity.requestedTransition Entity.entityConfig Entity.lastFrameInfo
       ParallelEntity.entities ParallelEntity.entityConfigs
       ParallelEntity.entityIsActive ParallelEntity.autoTransition
       ParallelEntity.set_entities ParallelEntity.set_entityIsActive] in *.

Section ParallelMoreFacts.
Context {C : Type} `{EntityLike C}.

(** A loop whose body rewrites the child and the flag at its index does,
    over the whole list, what [walk] says. *)
Lemma parallel_loop (body : nat -> ParallelEntity.fields C * ParallelEntity.trace ->
                             result (ParallelEntity.fields C * ParallelEntity.trace))
    (step : nat -> C -> bool -> C * bool * list (Call nat)) cfgs auto :
  (forall pre preA c a rest restA tr,
     length pre = length preA ->
     body (length pre)
       ({| ParallelEntity.entities := pre ++ Some c :: rest;
           ParallelEntity.entityConfigs := cfgs;
           ParallelEntity.entityIsActive := preA ++ a :: restA;
           ParallelEntity.autoTransition := auto |}, tr)
     = Ok ({| ParallelEntity.entities :=
                (pre ++ [Some (step (length pre) c a).1.1]) ++ rest;
              ParallelEntity.entityConfigs := cfgs;
              ParallelEntity.entityIsActive :=
                (preA ++ [(step (length pre) c a).1.2]) ++ restA;
              ParallelEntity.autoTransition := auto |},
           tr ++ (step (length pre) c a).2)) ->
  forall rest pre preA restA tr,
    length pre = length preA -> length rest = length restA ->
    no_null rest = true ->
    foldl (fun r i => s ← r; body i s)
      (Ok ({| ParallelEntity.entities := pre ++ rest;
              ParallelEntity.entityConfigs := cfgs;
              ParallelEntity.entityIsActive := preA ++ restA;
              ParallelEntity.autoTransition := auto |}, tr))
      (seq (length pre) (length rest))
    = Ok ({| ParallelEntity.entities :=
               pre ++ (walk step (length pre) rest restA).1.1;
             ParallelEntity.entityConfigs := cfgs;
             ParallelEntity.entityIsActive :=
               preA ++ (walk step (length pre) rest restA).1.2;
             ParallelEntity.autoTransition := auto |},
          tr ++ (walk step (length pre) rest restA).2).
Proof.
  intros Hbody. induction rest as [|e rest IH]; intros pre preA restA tr Hpre Hlen Hnn.
  - destruct restA; [|discriminate]. simpl. now rewrite !app_nil_r.
  - destruct restA as [|a restA]; [discriminate|].
    injection Hlen as Hlen. destruct e as [c|]; [|discriminate]. simpl in Hnn.
    cbn [length seq foldl]. cbn [mbind result_bind].
    rewrite Hbody by assumption.
    replace (S (length pre))
      with (length (pre ++ [Some (step (length pre) c a).1.1]))
      by (rewrite length_app; simpl; lia).
    rewrite IH; [|rewrite !length_app; simpl; lia|assumption|assumption].
    rewrite length_app. cbn [length]. rewrite Nat.add_1_r.
    cbn [walk].
    destruct (step (length pre) c a) as [[c' a'] t].
    destruct (walk step (S (length pre)) rest restA) as [[es' act'] tr'].
    cbn [fst snd]. now rewrite <- !app_assoc.
Qed.

Lemma walk_length step (es : list (option C)) :
  forall k act,
    length (walk step k es act).1.1 = length es /\
    length (walk step k es act).1.2 = length act.
Proof.
  induction es as [|e es IH]; intros k act; [now destruct act|].
  destruct e as [c|]; [|now destruct act].
  destruct act as [|a act]; [now split|].
  specialize (IH (S k) act). cbn [walk].
  destruct (step k c a) as [[c' a'] t].
  destruct (walk step (S k) es act) as [[es' act'] tr'].
  cbn [fst snd length] in *. lia.
Qed.

Lemma walk_no_null step (es : list (option C)) :
  forall k act,
    length es = length act -> no_null es = true ->
    no_null (walk step k es act).1.1 = true.
Proof.
  induction es as [|e es IH]; intros k act Hlen Hnn; [now destruct act|].
  destruct e as [c|]; [|discriminate].
  destruct act as [|a act]; [discriminate|].
  injection Hlen as Hlen. simpl in Hnn.
  specialize (IH (S k) act Hlen Hnn). cbn [walk].
  destruct (step k c a) as [[c' a'] t].
  destruct (walk step (S k) es act) as [[es' act'] tr']. exact IH.
Qed.

Lemma walk_lookup step (es : list (option C)) :
  forall k act i c a,
    no_null es = true ->
    es !! i = Some (Some c) -> act !! i = Some a ->
    (walk step k es act).1.1 !! i = Some (Some (step (k + i) c a).1.1) /\
    (walk step k es act).1.2 !! i = Some (step (k + i) c a).1.2.
Proof.
  induction es as [|e es IH]; intros k act i c a Hnn Hes Hact; [discriminate|].
  destruct e as [c0|]; [|discriminate]. simpl in Hnn.
  destruct act as [|a0 act]; [discriminate|].
  cbn [walk]. destruct i as [|i].
  - injection Hes as ->. injection Hact as ->. rewrite Nat.add_0_r.
    destruct (step k c a) as [[c' a'] t].
    destruct (walk step (S k) es act) as [[es' act'] tr']. now split.
  - simpl in Hes, Hact.
    specialize (IH (S k) act i c a Hnn Hes Hact).
    replace (k + S i) with (S k + i) by lia.
    destruct (step k c0 a0) as [[c' a'] t].
    destruct (walk step (S k) es act) as [[es' act'] tr']. exact IH.
Qed.

Lemma array_set_at n (pre : list bool) a b rest :
  n = length pre -> array_set n b (pre ++ a :: rest) = pre ++ b :: rest.
Proof. intros ->. apply array_set_middle. Qed.

Lemma setup_body_at f cfg cfgs auto pre preA (c : C) a rest restA tr :
  length pre = length preA ->
  ParallelEntity.setup_body f cfg (length pre)
    ({| ParallelEntity.entities := pre ++ Some c :: rest;
        ParallelEntity.entityConfigs := cfgs;
        ParallelEntity.entityIsActive := preA ++ a :: restA;
        ParallelEntity.autoTransition := auto |}, tr)
  = Ok ({| ParallelEntity.entities :=
             (pre ++ [Some (setup_step f cfg cfgs (length pre) c a).1.1]) ++ rest;
           ParallelEntity.entityConfigs := cfgs;
           ParallelEntity.entityIsActive :=
             (preA ++ [(setup_step f cfg cfgs (length pre) c a).1.2]) ++ restA;
           ParallelEntity.autoTransition := auto |},
        tr ++ (setup_step f cfg cfgs (length pre) c a).2).
Proof.
  intros Hpre.
  unfold ParallelEntity.setup_body, ParallelEntity.entity_at,
    ParallelEntity.config_at, setup_step.
  cbn [ParallelEntity.entities ParallelEntity.entityConfigs].
  rewrite (list_lookup_middle pre rest (Some c) (length pre) eq_refl).
  cbn [mbind result_bind]. rewrite <- !snoc_app.
  destruct (e_isSetup c); cbn [negb fst snd];
    unfold ParallelEntity.set_entityIsActive, ParallelEntity.set_entities;
    cbn [ParallelEntity.entities ParallelEntity.entityConfigs
         ParallelEntity.entityIsActive ParallelEntity.autoTransition];
    rewrite insert_middle; rewrite (array_set_at _ preA) by exact Hpre;
    rewrite ?app_nil_r; reflexivity.
Qed.

Lemma teardown_body_at f cfgs auto pre preA (c : C) a rest restA tr :
  length pre = length preA ->
  ParallelEntity.teardown_body f (length pre)
    ({| ParallelEntity.entities := pre ++ Some c :: rest;
        ParallelEntity.entityConfigs := cfgs;
        ParallelEntity.entityIsActive := preA ++ a :: restA;
        ParallelEntity.autoTransition := auto |}, tr)
  = Ok ({| ParallelEntity.entities :=
             (pre ++ [Some (teardown_step f (length pre) c a).1.1]) ++ rest;
           ParallelEntity.entityConfigs := cfgs;
           ParallelEntity.entityIsActive :=
             (preA ++ [(teardown_step f (length pre) c a).1.2]) ++ restA;
           ParallelEntity.autoTransition := auto |},
        tr ++ (teardown_step f (length pre) c a).2).
Proof.
  intros Hpre.
  unfold ParallelEntity.teardown_body, ParallelEntity.active_at,
    ParallelEntity.entity_at, teardown_step.
  cbn [ParallelEntity.entities ParallelEntity.entityIsActive].
  rewrite (list_lookup_middle pre rest (Some c) (length pre) eq_refl).
  rewrite (list_lookup_middle preA restA a (length pre) Hpre).
  rewrite <- !snoc_app.
  destruct a; simpl; [|now rewrite app_nil_r].
  unfold ParallelEntity.set_entityIsActive, ParallelEntity.set_entities. simpl.
  rewrite insert_middle. rewrite (array_set_at _ preA) by exact Hpre. reflexivity.
Qed.

Lemma onSignal_body_at f sg d cfgs auto pre preA (c : C) a rest restA tr :
  length pre = length preA ->
  ParallelEntity.onSignal_body f sg d (length pre)
    ({| ParallelEntity.entities := pre ++ Some c :: rest;
        ParallelEntity.entityConfigs := cfgs;
        ParallelEntity.entityIsActive := preA ++ a :: restA;
        ParallelEntity.autoTransition := auto |}, tr)
  = Ok ({| ParallelEntity.entities :=
             (pre ++ [Some (signal_step f sg d (length pre) c a).1.1]) ++ rest;
           ParallelEntity.entityConfigs := cfgs;
           ParallelEntity.entityIsActive :=
             (preA ++ [(signal_step f sg d (length pre) c a).1.2]) ++ restA;
           ParallelEntity.autoTransition := auto |},
        tr ++ (signal_step f sg d (length pre) c a).2).
Proof.
  intros Hpre.
  unfold ParallelEntity.onSignal_body, ParallelEntity.active_at,
    ParallelEntity.entity_at, signal_step.
  cbn [ParallelEntity.entities ParallelEntity.entityIsActive].
  rewrite (list_lookup_middle pre rest (Some c) (length pre) eq_refl).
  rewrite (list_lookup_middle preA restA a (length pre) Hpre).
  rewrite <- !snoc_app.
  destruct a; simpl; [|now rewrite app_nil_r].
  unfold ParallelEntity.set_entities. simpl.
  rewrite insert_middle. reflexivity.
Qed.

Lemma for_upto_walk
    (body : nat -> ParallelEntity.fields C * ParallelEntity.trace ->
            result (ParallelEntity.fields C * ParallelEntity.trace))
    step cfgs auto (es : list (option C)) act :
  (forall pre preA c a rest restA tr,
     length pre = length preA ->
     body (length pre)
       ({| ParallelEntity.entities := pre ++ Some c :: rest;
           ParallelEntity.entityConfigs := cfgs;
           ParallelEntity.entityIsActive := preA ++ a :: restA;
           ParallelEntity.autoTransition := auto |}, tr)
     = Ok ({| ParallelEntity.entities :=
                (pre ++ [Some (step (length pre) c a).1.1]) ++ rest;
              ParallelEntity.entityConfigs := cfgs;
              ParallelEntity.entityIsActive :=
                (preA ++ [(step (length pre) c a).1.2]) ++ restA;
              ParallelEntity.autoTransition := auto |},
           tr ++ (step (length pre) c a).2)) ->
  length es = length act -> no_null es = true ->
  for_upto (length es) body
    ({| ParallelEntity.entities := es;
        ParallelEntity.entityConfigs := cfgs;
        ParallelEntity.entityIsActive := act;
        ParallelEntity.autoTransition := auto |}, [])
  = Ok ({| ParallelEntity.entities := (walk step 0 es act).1.1;
           ParallelEntity.entityConfigs := cfgs;
           ParallelEntity.entityIsActive := (walk step 0 es act).1.2;
           ParallelEntity.autoTransition := auto |},
        (walk step 0 es act).2).
Proof.
  intros Hbody Hlen Hnn.
  exact (parallel_loop body step cfgs auto Hbody es [] [] act [] eq_refl Hlen Hnn).
Qed.

Lemma parallel_setup_eq f cfg su ls rt c0 lf (es : list (option C)) cfgs act auto :
  length es = length act -> no_null es = true ->
  ParallelEntity.setup f cfg
    (Entity.mk su ls rt c0 lf
       {| ParallelEntity.entities := es; ParallelEntity.entityConfigs := cfgs;
          ParallelEntity.entityIsActive := act;
          ParallelEntity.autoTransition := auto |})
  = Ok (Entity.mk true ls VNull cfg (Some f)
          {| ParallelEntity.entities := (walk (setup_step f cfg cfgs) 0 es act).1.1;
             ParallelEntity.entityConfigs := cfgs;
             ParallelEntity.entityIsActive :=
               (walk (setup_step f cfg cfgs) 0 es act).1.2;
             ParallelEntity.autoTransition := auto |},
        (walk (setup_step f cfg cfgs) 0 es act).2).
Proof.
  intros Hlen Hnn. unfold ParallelEntity.setup, Entity.setup.
  cbn [Entity._setup Entity.no_hooks Entity.set_requestedTransition
       Entity.set_isSetup Entity.set_lastFrameInfo Entity.set_entityConfig
       Entity.fields Entity.isSetup Entity.eventListeners
       Entity.requestedTransition Entity.entityConfig Entity.lastFrameInfo
       ParallelEntity.entities].
  rewrite (for_upto_walk _ (setup_step f cfg cfgs) cfgs auto es act
             (setup_body_at f cfg cfgs auto) Hlen Hnn).
  reflexivity.
Qed.

Lemma parallel_teardown_eq f su ls rt c0 lf (es : list (option C)) cfgs act auto :
  length es = length act -> no_null es = true ->
  ParallelEntity.teardown f
    (Entity.mk su ls rt c0 lf
       {| ParallelEntity.entities := es; ParallelEntity.entityConfigs := cfgs;
          ParallelEntity.entityIsActive := act;
          ParallelEntity.autoTransition := auto |})
  = Ok (Entity.mk false [] rt VNull (Some f)
          {| ParallelEntity.entities := (walk (teardown_step f) 0 es act).1.1;
             ParallelEntity.entityConfigs := cfgs;
             ParallelEntity.entityIsActive := (walk (teardown_step f) 0 es act).1.2;
             ParallelEntity.autoTransition := auto |},
        (walk (teardown_step f) 0 es act).2).
Proof.
  intros Hlen Hnn. unfold ParallelEntity.teardown.
  cbn [Entity.fields ParallelEntity.entities].
  rewrite (for_upto_walk _ (teardown_step f) cfgs auto es act
             (teardown_body_at f cfgs auto) Hlen Hnn).
  cbn [mbind result_bind]. unfold Entity.teardown, Entity._off.
  cbn [Entity._teardown Entity.no_hooks Entity.set_lastFrameInfo Entity.set_fields
       Entity.set_eventListeners Entity.set_entityConfig Entity.set_isSetup
       Entity.fields Entity.isSetup Entity.eventListeners
       Entity.requestedTransition Entity.entityConfig Entity.lastFrameInfo].
  now rewrite filter_not_in_self.
Qed.

Lemma parallel_onSignal_eq f sg d su ls rt c0 lf (es : list (option C)) cfgs act auto :
  length es = length act -> no_null es = true ->
  ParallelEntity.onSignal f sg d
    (Entity.mk su ls rt c0 lf
       {| ParallelEntity.entities := es; ParallelEntity.entityConfigs := cfgs;
          ParallelEntity.entityIsActive := act;
          ParallelEntity.autoTransition := auto |})
  = Ok (Entity.mk su ls rt c0 (Some f)
          {| ParallelEntity.entities := (walk (signal_step f sg d) 0 es act).1.1;
             ParallelEntity.entityConfigs := cfgs;
             ParallelEntity.entityIsActive := (walk (signal_step f sg d) 0 es act).1.2;
             ParallelEntity.autoTransition := auto |},
        (walk (signal_step f sg d) 0 es act).2).
Proof.
  intros Hlen Hnn. unfold ParallelEntity.onSignal, Entity.onSignal.
  cbn [Entity._onSignal Entity.no_hooks Entity.set_lastFrameInfo
       Entity.fields Entity.isSetup Entity.eventListeners
       Entity.requestedTransition Entity.entityConfig Entity.lastFrameInfo
       ParallelEntity.entities].
  rewrite (for_upto_walk _ (signal_step f sg d) cfgs auto es act
             (onSignal_body_at f sg d cfgs auto) Hlen Hnn).
  reflexivity.
Qed.

(** [setup] of a [ParallelEntity] whose arrays have one length and hold
    no [null] returns.  The parent is set up with the configuration it
    received.  A child that was not set up has been set up with the
    configuration that [processEntityConfig] makes from the parent's
    configuration and the child's own entry; a child that was set up
    already is left as it is; every child is marked active.  The
    set-ups are made in the order of the list. *)
Theorem parallel_setup_pass f cfg (p : ParallelEntity.t C) :
  let fs := Entity.fields p in
  no_null (ParallelEntity.entities fs) = true ->
  length (ParallelEntity.entities fs) = length (ParallelEntity.entityIsActive fs) ->
  exists p' tr,
    ParallelEntity.setup f cfg p = Ok (p', tr) /\
    let fs' := Entity.fields p' in
    Entity.isSetup p' = true /\
    Entity.entityConfig p' = cfg /\
    tr = (walk (setup_step f cfg (ParallelEntity.entityConfigs fs)) 0
            (ParallelEntity.entities fs) (ParallelEntity.entityIsActive fs)).2 /\
    length (ParallelEntity.entities fs') = length (ParallelEntity.entities fs) /\
    (forall i c,
       ParallelEntity.entities fs !! i = Some (Some c) ->
       ParallelEntity.entities fs' !! i =
         Some (Some (if e_isSetup c then c
                     else e_setup f
                            (processEntityConfig cfg (ParallelEntity.config_at i fs))
                            c)) /\
       ParallelEntity.active_at i fs' = true).
Proof.
  destruct p as [su ls rt c0 lf [es cfgs act auto]]. cbn zeta.
  cbn [Entity.fields ParallelEntity.entities ParallelEntity.entityIsActive
       ParallelEntity.entityConfigs].
  intros Hnn Hlen.
  rewrite (parallel_setup_eq f cfg su ls rt c0 lf es cfgs act auto Hlen Hnn).
  eexists _, _. split; [reflexivity|].
  cbn [Entity.fields Entity.isSetup Entity.entityConfig ParallelEntity.entities
       ParallelEntity.entityIsActive ParallelEntity.active_at].
  split; [reflexivity|]. split; [reflexivity|]. split; [reflexivity|].
  split; [apply walk_length|].
  intros i c Hi.
  assert (Ha : exists a, act !! i = Some a).
  { apply lookup_lt_is_Some. apply lookup_lt_Some in Hi. lia. }
  destruct Ha as [a Ha].
  destruct (walk_lookup (setup_step f cfg cfgs) es 0 act i c a Hnn Hi Ha) as [H1 H2].
  unfold ParallelEntity.active_at. cbn [ParallelEntity.entityIsActive].
  rewrite H1, H2. unfold setup_step, ParallelEntity.config_at.
  cbn [Nat.add ParallelEntity.entityConfigs].
  destruct (e_isSetup c); now split.
Qed.

Lemma teardowns_of_app i tr tr' :
  teardowns_of i (tr ++ tr') = teardowns_of i tr + teardowns_of i tr'.
Proof. unfold teardowns_of. now rewrite List.filter_app, length_app. Qed.

Lemma walk_teardowns f (es : list (option C)) :
  forall k act i,
    no_null es = true -> length es = length act ->
    teardowns_of i (walk (teardown_step f) k es act).2 =
      if decide (k <= i) then (if default false (act !! (i - k)) then 1 else 0)
      else 0.
Proof.
  induction es as [|e es IH]; intros k act i Hnn Hlen.
  - destruct act; [|discriminate]. simpl. now destruct (decide (k <= i)).
  - destruct e as [c|]; [|discriminate]. simpl in Hnn.
    destruct act as [|a act]; [discriminate|]. injection Hlen as Hlen.
    specialize (IH (S k) act i Hnn Hlen). cbn [walk].
    destruct (walk (teardown_step f) (S k) es act) as [[es' act'] tr'].
    cbn [snd] in IH.
    destruct (teardown_step f k c a) as [[c' a'] t] eqn:Estep. cbn [snd].
    rewrite teardowns_of_app, IH.
    assert (Ht : teardowns_of i t = if a && (k =? i) then 1 else 0).
    { unfold teardown_step in Estep. destruct a; injection Estep as <- <- <-.
      - unfold teardowns_of. simpl. now destruct (k =? i).
      - reflexivity. }
    rewrite Ht.
    destruct (decide (k <= i)) as [Hki|Hki].
    + destruct (decide (S k <= i)) as [HSki|HSki].
      * replace (i - k) with (S (i - S k)) by lia. simpl.
        destruct (Nat.eqb_spec k i); [lia|]. now rewrite andb_false_r.
      * assert (i = k) by lia. subst i. rewrite Nat.sub_diag, Nat.eqb_refl.
        simpl. rewrite andb_true_r. destruct a; reflexivity.
    + destruct (decide (S k <= i)); [lia|].
      destruct (Nat.eqb_spec k i); [lia|]. now rewrite andb_false_r.
Qed.

Lemma pass_teardowns f (es : list (option C)) :
  forall k act i,
    no_null es = true -> length es = length act ->
    teardowns_of i (pass_calls f k es act) =
      if decide (k <= i) then
        match es !! (i - k), act !! (i - k) with
        | Some (Some c), Some true =>
            if truthy (e_requestedTransition (e_update f c)) then 1 else 0
        | _, _ => 0
        end
      else 0.
Proof.
  induction es as [|e es IH]; intros k act i Hnn Hlen.
  - destruct act; [|discriminate]. simpl. now destruct (decide (k <= i)).
  - destruct e as [c|]; [|discriminate]. simpl in Hnn.
    destruct act as [|a act]; [discriminate|]. injection Hlen as Hlen.
    specialize (IH (S k) act i Hnn Hlen).
    rewrite pass_calls_cons, teardowns_of_app, IH.
    assert (Ht : teardowns_of i (child_calls f k c a) =
                 if a && (k =? i) && truthy (e_requestedTransition (e_update f c))
                 then 1 else 0).
    { unfold child_calls, teardowns_of. destruct a; [|reflexivity].
      destruct (truthy _); simpl; [|now rewrite andb_false_r].
      now destruct (k =? i). }
    rewrite Ht.
    destruct (decide (k <= i)) as [Hki|Hki].
    + destruct (decide (S k <= i)) as [HSki|HSki].
      * replace (i - k) with (S (i - S k)) by lia. simpl.
        destruct (Nat.eqb_spec k i); [lia|]. now rewrite andb_false_r.
      * assert (i = k) by lia. subst i. rewrite Nat.sub_diag, Nat.eqb_refl.
        simpl. rewrite andb_true_r. destruct a; [|reflexivity].
        simpl. destruct (truthy _); reflexivity.
    + destruct (decide (S k <= i)); [lia|].
      destruct (Nat.eqb_spec k i); [lia|]. now rewrite andb_false_r.
Qed.

(** [teardown] of such a [ParallelEntity] returns.  Every child that was
    active has been torn down once, in the order of the list, and no
    other child is called; no child is active afterwards; the parent is
    torn down last: it is not set up any more, holds no listener and no
    configuration. *)
Theorem parallel_teardown_pass f (p : ParallelEntity.t C) :
  let fs := Entity.fields p in
  no_null (ParallelEntity.entities fs) = true ->
  length (ParallelEntity.entities fs) = length (ParallelEntity.entityIsActive fs) ->
  exists p' tr,
    ParallelEntity.teardown f p = Ok (p', tr) /\
    let fs' := Entity.fields p' in
    Entity.isSetup p' = false /\
    Entity.eventListeners p' = [] /\
    Entity.entityConfig p' = VNull /\
    tr = (walk (teardown_step f) 0
            (ParallelEntity.entities fs) (ParallelEntity.entityIsActive fs)).2 /\
    (forall i c,
       ParallelEntity.entities fs !! i = Some (Some c) ->
       ParallelEntity.entities fs' !! i =
         Some (Some (if ParallelEntity.active_at i fs then e_teardown f c else c)) /\
       teardowns_of i tr = (if ParallelEntity.active_at i fs then 1 else 0) /\
       ParallelEntity.active_at i fs' = false).
Proof.
  destruct p as [su ls rt c0 lf [es cfgs act auto]]. cbn zeta.
  cbn [Entity.fields ParallelEntity.entities ParallelEntity.entityIsActive
       ParallelEntity.entityConfigs].
  intros Hnn Hlen.
  rewrite (parallel_teardown_eq f su ls rt c0 lf es cfgs act auto Hlen Hnn).
  eexists _, _. split; [reflexivity|].
  cbn [Entity.fields Entity.isSetup Entity.entityConfig Entity.eventListeners
       ParallelEntity.entities ParallelEntity.entityIsActive].
  split; [reflexivity|]. split; [reflexivity|]. split; [reflexivity|].
  split; [reflexivity|].
  intros i c Hi.
  assert (Ha : exists a, act !! i = Some a).
  { apply lookup_lt_is_Some. apply lookup_lt_Some in Hi. lia. }
  destruct Ha as [a Ha].
  destruct (walk_lookup (teardown_step f) es 0 act i c a Hnn Hi Ha) as [H1 H2].
  unfold ParallelEntity.active_at. cbn [ParallelEntity.entityIsActive].
  rewrite H1, H2, (walk_teardowns f es 0 act i Hnn Hlen), Nat.sub_0_r, Ha.
  destruct (decide (0 <= i)); [|lia].
  unfold teardown_step. cbn [default from_option id].
  destruct a; now repeat split.
Qed.

(** [onSignal] of such a [ParallelEntity] returns; the signal has gone
    to the children that are active, in the order of the list, and to
    no other, and the flags are as they were. *)
Theorem parallel_onSignal_pass f sg d (p : ParallelEntity.t C) :
  let fs := Entity.fields p in
  no_null (ParallelEntity.entities fs) = true ->
  length (ParallelEntity.entities fs) = length (ParallelEntity.entityIsActive fs) ->
  exists p' tr,
    ParallelEntity.onSignal f sg d p = Ok (p', tr) /\
    let fs' := Entity.fields p' in
    tr = (walk (signal_step f sg d) 0
            (ParallelEntity.entities fs) (ParallelEntity.entityIsActive fs)).2 /\
    (forall i c,
       ParallelEntity.entities fs !! i = Some (Some c) ->
       ParallelEntity.entities fs' !! i =
         Some (Some (if ParallelEntity.active_at i fs
                     then e_onSignal f sg d c else c)) /\
       ParallelEntity.active_at i fs' = ParallelEntity.active_at i fs).
Proof.
  destruct p as [su ls rt c0 lf [es cfgs act auto]]. cbn zeta.
  cbn [Entity.fields ParallelEntity.entities ParallelEntity.entityIsActive
       ParallelEntity.entityConfigs].
  intros Hnn Hlen.
  rewrite (parallel_onSignal_eq f sg d su ls rt c0 lf es cfgs act auto Hlen Hnn).
  eexists _, _. split; [reflexivity|].
  cbn [Entity.fields ParallelEntity.entities ParallelEntity.entityIsActive].
  split; [reflexivity|].
  intros i c Hi.
  assert (Ha : exists a, act !! i = Some a).
  { apply lookup_lt_is_Some. apply lookup_lt_Some in Hi. lia. }
  destruct Ha as [a Ha].
  destruct (walk_lookup (signal_step f sg d) es 0 act i c a Hnn Hi Ha) as [H1 H2].
  unfold ParallelEntity.active_at. cbn [ParallelEntity.entityIsActive].
  rewrite H1, H2, Ha. unfold signal_step. cbn [default from_option id].
  destruct a; now split.
Qed.

Lemma no_null_lookup (es : list (option C)) i :
  no_null es = true -> i < length es -> exists c, es !! i = Some (Some c).
Proof.
  revert i. induction es as [|e es IH]; intros i Hnn Hi; [simpl in Hi; lia|].
  destruct e as [c|]; [|discriminate]. simpl in Hnn.
  destruct i as [|i]; [now exists c|]. simpl in Hi. apply IH; [assumption|lia].
Qed.

Lemma pass_children_no_null f (es : list (option C)) :
  forall act, no_null es = true -> no_null (pass_children f es act).1 = true.
Proof.
  induction es as [|e es IH]; intros act Hnn; [now destruct act|].
  destruct e as [c|]; [|discriminate]. simpl in Hnn.
  destruct act as [|a act]; [exact Hnn|].
  rewrite pass_children_cons. cbn [fst no_null forallb].
  unfold child_after. destruct a; [destruct (truthy _)|]; cbn [fst]; now apply IH.
Qed.

Lemma parallel_update_eq f su ls rt c0 lf (es : list (option C)) cfgs act auto :
  length es = length act -> no_null es = true ->
  ParallelEntity.update f
    (Entity.mk su ls rt c0 lf
       {| ParallelEntity.entities := es; ParallelEntity.entityConfigs := cfgs;
          ParallelEntity.entityIsActive := act;
          ParallelEntity.autoTransition := auto |})
  = Ok (Entity.mk su ls
          (if auto && negb (existsb (fun e => e) (pass_children f es act).2)
           then VBool true else rt)
          c0 (Some f)
          {| ParallelEntity.entities := (pass_children f es act).1;
             ParallelEntity.entityConfigs := cfgs;
             ParallelEntity.entityIsActive := (pass_children f es act).2;
             ParallelEntity.autoTransition := auto |},
        pass_calls f 0 es act).
Proof.
  intros Hlen Hnn. unfold ParallelEntity.update, Entity.update.
  cbn [Entity._update Entity.no_hooks Entity.set_lastFrameInfo Entity.fields
       Entity.isSetup Entity.eventListeners Entity.requestedTransition
       Entity.entityConfig Entity.lastFrameInfo ParallelEntity.entities].
  rewrite (for_upto_update f es cfgs act auto Hlen Hnn).
  cbn [mbind result_bind ParallelEntity.autoTransition
       ParallelEntity.entityIsActive].
  now destruct (auto && negb (existsb (fun e => e) (pass_children f es act).2)).
Qed.

(** Over any number of updates followed by [teardown], a child that was
    active at the start is torn down exactly once, whether it completed
    during an update or was still running at the end, and a child that
    was inactive is not torn down at all. *)
Theorem parallel_one_teardown frames f' :
  forall p : ParallelEntity.t C,
    let fs := Entity.fields p in
    no_null (ParallelEntity.entities fs) = true ->
    length (ParallelEntity.entities fs) = length (ParallelEntity.entityIsActive fs) ->
    exists p' tr,
      ParallelEntity.run
        (map ParallelEntity.OpUpdate frames ++ [ParallelEntity.OpTeardown f']) p
        = Ok (p', tr) /\
      forall i, i < length (ParallelEntity.entities fs) ->
        teardowns_of i tr = if ParallelEntity.active_at i fs then 1 else 0.
Proof.
  induction frames as [|f frames IH];
    intros [su ls rt c0 lf [es cfgs act auto]]; cbn zeta;
    cbn [Entity.fields ParallelEntity.entities ParallelEntity.entityIsActive];
    intros Hnn Hlen.
  - cbn [map app ParallelEntity.run ParallelEntity.step].
    rewrite (parallel_teardown_eq f' su ls rt c0 lf es cfgs act auto Hlen Hnn).
    cbn [mbind result_bind]. eexists _, _. split; [reflexivity|].
    intros i Hi. rewrite app_nil_r, (walk_teardowns f' es 0 act i Hnn Hlen).
    destruct (decide (0 <= i)); [|lia]. now rewrite Nat.sub_0_r.
  - cbn [map app ParallelEntity.run ParallelEntity.step].
    rewrite (parallel_update_eq f su ls rt c0 lf es cfgs act auto Hlen Hnn).
    cbn [mbind result_bind].
    destruct (pass_children_length f es act) as [Hl1 Hl2].
    destruct (IH (Entity.mk su ls
                    (if auto && negb (existsb (fun e => e) (pass_children f es act).2)
                     then VBool true else rt)
                    c0 (Some f)
                    {| ParallelEntity.entities := (pass_children f es act).1;
                       ParallelEntity.entityConfigs := cfgs;
                       ParallelEntity.entityIsActive := (pass_children f es act).2;
                       ParallelEntity.autoTransition := auto |}))
      as (p' & tr & Hrun & Hcount).
    { now apply pass_children_no_null. }
    { cbn [Entity.fields ParallelEntity.entities ParallelEntity.entityIsActive]. lia. }
    rewrite Hrun. cbn [mbind result_bind].
    eexists _, _. split; [reflexivity|].
    intros i Hi. rewrite teardowns_of_app.
    cbn [Entity.fields ParallelEntity.entities ParallelEntity.entityIsActive] in Hcount.
    rewrite Hcount by lia.
    rewrite (pass_teardowns f es 0 act i Hnn Hlen), Nat.sub_0_r.
    destruct (decide (0 <= i)); [|lia].
    destruct (no_null_lookup es i Hnn Hi) as [c Hc].
    assert (Ha : exists a, act !! i = Some a)
      by (apply lookup_lt_is_Some; lia).
    destruct Ha as [a Ha].
    pose proof (pass_children_lookup f es act i c a Hc Ha) as Hlk.
    unfold ParallelEntity.active_at. cbn [ParallelEntity.entityIsActive].
    rewrite Hc, Ha. cbn [default from_option id].
    destruct a.
    + destruct (truthy (e_requestedTransition (e_update f c)));
        destruct Hlk as [_ ->]; reflexivity.
    + destruct Hlk as [_ ->]. reflexivity.
Qed.

Lemma no_null_app (es es' : list (option C)) :
  no_null (es ++ es') = no_null es && no_null es'.
Proof. unfold no_null. apply forallb_app. Qed.

Lemma no_null_insert (es : list (option C)) i c :
  no_null es = true -> no_null (<[i:=Some c]> es) = true.
Proof.
  revert i. induction es as [|e es IH]; intros i Hnn; [reflexivity|].
  destruct e as [c0|]; [|discriminate]. simpl in Hnn.
  destruct i as [|i]; [exact Hnn|]. simpl. now apply IH.
Qed.

Lemma no_null_delete (es : list (option C)) i :
  no_null es = true -> no_null (delete i es) = true.
Proof.
  revert i. induction es as [|e es IH]; intros i Hnn; [reflexivity|].
  destruct e as [c0|]; [|discriminate]. simpl in Hnn.
  destruct i as [|i]; [exact Hnn|]. simpl. now apply IH.
Qed.

Lemma removeAll_loop_ok f (es : list (option C)) :
  forall i, no_null es = true ->
    exists tr, ParallelEntity.removeAll_loop (Some f) i es = Ok tr.
Proof.
  induction es as [|e es IH]; intros i Hnn; [now exists []|].
  destruct e as [c|]; [|discriminate]. simpl in Hnn.
  destruct (IH (S i) Hnn) as [tr' Htr'].
  cbn [ParallelEntity.removeAll_loop]. rewrite Htr'.
  destruct (e_isSetup c); cbn; eauto.
Qed.

Lemma parallel_step_ready (o : ParallelEntity.op C) (p : ParallelEntity.t C) :
  ready p ->
  (exists p' tr, ParallelEntity.step o p = Ok (p', tr) /\ ready p') \/
  ParallelEntity.step o p = Throw (Error "Cannot find entity to remove").
Proof.
  destruct p as [su ls rt c0 lf [es cfgs act auto]].
  unfold ready, well_formed.
  cbn [Entity.fields Entity.lastFrameInfo ParallelEntity.entities
       ParallelEntity.entityConfigs ParallelEntity.entityIsActive].
  intros [(Hnn & Hc & Ha) Hlf].
  assert (Hlen : length es = length act) by lia.
  destruct o as [f cfg|f|f sg d|f|e cfg|r|]; cbn [ParallelEntity.step].
  - left. rewrite (parallel_setup_eq f cfg su ls rt c0 lf es cfgs act auto Hlen Hnn).
    eexists _, _. split; [reflexivity|].
    unfold ready, well_formed.
    cbn [Entity.fields Entity.lastFrameInfo ParallelEntity.entities
         ParallelEntity.entityConfigs ParallelEntity.entityIsActive].
    destruct (walk_length (setup_step f cfg cfgs) es 0 act) as [-> ->].
    repeat split; [now apply walk_no_null|lia|lia|discriminate].
  - left. rewrite (parallel_update_eq f su ls rt c0 lf es cfgs act auto Hlen Hnn).
    eexists _, _. split; [reflexivity|].
    unfold ready, well_formed.
    cbn [Entity.fields Entity.lastFrameInfo ParallelEntity.entities
         ParallelEntity.entityConfigs ParallelEntity.entityIsActive].
    destruct (pass_children_length f es act) as [-> ->].
    repeat split; [now apply pass_children_no_null|lia|lia|discriminate].
  - left. rewrite (parallel_onSignal_eq f sg d su ls rt c0 lf es cfgs act auto Hlen Hnn).
    eexists _, _. split; [reflexivity|].
    unfold ready, well_formed.
    cbn [Entity.fields Entity.lastFrameInfo ParallelEntity.entities
         ParallelEntity.entityConfigs ParallelEntity.entityIsActive].
    destruct (walk_length (signal_step f sg d) es 0 act) as [-> ->].
    repeat split; [now apply walk_no_null|lia|lia|discriminate].
  - left. rewrite (parallel_teardown_eq f su ls rt c0 lf es cfgs act auto Hlen Hnn).
    eexists _, _. split; [reflexivity|].
    unfold ready, well_formed.
    cbn [Entity.fields Entity.lastFrameInfo ParallelEntity.entities
         ParallelEntity.entityConfigs ParallelEntity.entityIsActive].
    destruct (walk_length (teardown_step f) es 0 act) as [-> ->].
    repeat split; [now apply walk_no_null|lia|lia|discriminate].
  - left. unfold ParallelEntity.addEntity.
    cbn [Entity.fields Entity.set_fields Entity.isSetup Entity.lastFrameInfo
         Entity.entityConfig Entity.eventListeners Entity.requestedTransition
         ParallelEntity.entities ParallelEntity.entityConfigs
         ParallelEntity.entityIsActive ParallelEntity.autoTransition].
    destruct lf as [f0|]; [|contradiction].
    assert (Hwf : no_null (es ++ [Some e]) = true)
      by (rewrite no_null_app, Hnn; reflexivity).
    destruct su; [destruct (e_isSetup e)|]; cbn [negb];
      (eexists _, _; split; [reflexivity|]);
      unfold ready, well_formed; entity_fields;
      rewrite ?length_insert, ?length_app; cbn [length];
      (repeat split; [try apply no_null_insert; exact Hwf|lia|lia|discriminate]).
  - unfold ParallelEntity.removeEntity.
    destruct (ParallelEntity.indexOf r _) as [index|] eqn:Eidx; [|now right].
    left.
    assert (Hin : exists c, es !! index = Some (Some c)).
    { unfold ParallelEntity.indexOf in Eidx. cbn [Entity.fields ParallelEntity.entities] in Eidx.
      destruct r as [|i|]; [| |discriminate].
      - destruct (list_find _ es) as [[j x]|] eqn:Efind; [|discriminate].
        injection Eidx as <-. apply list_find_Some in Efind as (Hj & -> & _).
        destruct (no_null_lookup es j Hnn) as [c Hcj];
          [now apply lookup_lt_Some in Hj|congruence].
      - destruct (es !! i) as [[c|]|] eqn:Ei; try discriminate.
        injection Eidx as <-. now exists c. }
    destruct Hin as [c Hidx].
    unfold ParallelEntity.entity_at.
    cbn [Entity.fields ParallelEntity.entities Entity.lastFrameInfo]. rewrite Hidx.
    cbn [mbind result_bind].
    destruct lf as [f0|]; [|contradiction].
    assert (Hi : index < length es) by now apply lookup_lt_Some in Hidx.
    destruct (e_isSetup c); cbn [the_frame mbind result_bind];
      (eexists _, _; split; [reflexivity|]);
      unfold ready, well_formed; entity_fields;
      rewrite !length_delete by (apply lookup_lt_is_Some; lia);
      (split; [split; [now apply no_null_delete|split; lia]|discriminate]).
  - left. unfold ParallelEntity.removeAllEntities.
    cbn [Entity.fields Entity.lastFrameInfo ParallelEntity.entities].
    destruct lf as [f0|]; [|contradiction].
    destruct (removeAll_loop_ok f0 es 0 Hnn) as [tr ->].
    cbn [mbind result_bind].
    destruct es; (eexists _, _; split; [reflexivity|]);
      unfold ready, well_formed; entity_fields; cbn [length];
      (split; [split; [assumption || reflexivity
                      |split; assumption || reflexivity]|discriminate]).
Qed.

(** A [ParallelEntity] whose arrays are aligned and hold no [null], and
    that has seen a frame, stays so under every public method, and the
    methods return: the only exception that a run of calls can throw is
    the [Error] of [removeEntity] for an entity that is not in the
    list.  No call throws a [TypeError]. *)
Theorem parallel_run_ready (os : list (ParallelEntity.op C)) :
  forall p : ParallelEntity.t C,
    ready p ->
    (exists p' tr, ParallelEntity.run os p = Ok (p', tr) /\ ready p') \/
    ParallelEntity.run os p = Throw (Error "Cannot find entity to remove").
Proof.
  induction os as [|o os IH]; intros p Hp.
  - left. now exists p, [].
  - cbn [ParallelEntity.run].
    destruct (parallel_step_ready o p Hp) as [(p1 & tr1 & Hstep & Hp1)|Hstep];
      rewrite Hstep; [|now right].
    cbn [mbind result_bind].
    destruct (IH p1 Hp1) as [(p2 & tr2 & Hrun & Hp2)|Hrun]; rewrite Hrun;
      [|now right].
    left. now exists p2, (tr1 ++ tr2).
Qed.

End ParallelMoreFacts.

(** [parallel_setup_pass] on the three children of [parallel3_new]: all
    three are set up, in the order of the list. *)
Lemma parallel_setup_pass_witness :
  exists p' tr,
    ParallelEntity.setup (frame 0) VNull parallel3_new = Ok (p', tr) /\
    Entity.isSetup p' = true /\
    tr = [CallSetup 0 VNull; CallSetup 1 VNull; CallSetup 2 VNull].
Proof.
  destruct (parallel_setup_pass (frame 0) VNull parallel3_new)
    as (p' & tr & Hrun & Hsu & _ & Htr & _);
    [vm_compute; reflexivity|vm_compute; reflexivity|].
  exists p', tr. split; [exact Hrun|]. split; [exact Hsu|].
  rewrite Htr. vm_compute. reflexivity.
Defined.

(** [parallel_teardown_pass] on [parallel3], whose three children are
    active. *)
Lemma parallel_teardown_pass_witness :
  exists p' tr,
    ParallelEntity.teardown (frame 16) parallel3 = Ok (p', tr) /\
    Entity.isSetup p' = false /\
    tr = [CallTeardown 0; CallTeardown 1; CallTeardown 2].
Proof.
  destruct (parallel_teardown_pass (frame 16) parallel3)
    as (p' & tr & Hrun & Hsu & _ & _ & Htr & _);
    [vm_compute; reflexivity|vm_compute; reflexivity|].
  exists p', tr. split; [exact Hrun|]. split; [exact Hsu|].
  rewrite Htr. vm_compute. reflexivity.
Defined.

(** [parallel_onSignal_pass] on [parallel3]. *)
Lemma parallel_onSignal_pass_witness :
  exists p' tr,
    ParallelEntity.onSignal (frame 16) "pause" VNull parallel3 = Ok (p', tr) /\
    tr = [CallOnSignal 0 "pause" VNull; CallOnSignal 1 "pause" VNull;
          CallOnSignal 2 "pause" VNull].
Proof.
  destruct (parallel_onSignal_pass (frame 16) "pause" VNull parallel3)
    as (p' & tr & Hrun & Htr & _);
    [vm_compute; reflexivity|vm_compute; reflexivity|].
  exists p', tr. split; [exact Hrun|].
  rewrite Htr. vm_compute. reflexivity.
Defined.

(** [parallel_one_teardown] on [parallel3]: the first and the third
    child complete at 16 ms, the second is still running at the end;
    each of the three is torn down once. *)
Lemma parallel_one_teardown_witness :
  exists p' tr,
    ParallelEntity.run
      (map ParallelEntity.OpUpdate [frame 16; frame 32]
         ++ [ParallelEntity.OpTeardown (frame 48)]) parallel3 = Ok (p', tr) /\
    teardowns_of 0 tr = 1 /\ teardowns_of 1 tr = 1 /\ teardowns_of 2 tr = 1.
Proof.
  destruct (parallel_one_teardown [frame 16; frame 32] (frame 48) parallel3)
    as (p' & tr & Hrun & Hcount);
    [vm_compute; reflexivity|vm_compute; reflexivity|].
  exists p', tr. split; [exact Hrun|].
  repeat split.
  - apply (Hcount 0). vm_compute. lia.
  - apply (Hcount 1). vm_compute. lia.
  - apply (Hcount 2). vm_compute. lia.
Defined.

(** [parallel_run_ready] on [parallel3]: a child is added, the first
    child is removed, an update and a signal follow, then everything is
    removed. *)
Lemma parallel_run_ready_witness :
  (exists p' tr,
     ParallelEntity.run
       [ParallelEntity.OpAddEntity (Leaf.new Leaf.Block) (ACValue VNull);
        ParallelEntity.OpRemoveEntity (Member 0);
        ParallelEntity.OpUpdate (frame 16);
        ParallelEntity.OpOnSignal (frame 16) "pause" VNull;
        ParallelEntity.OpRemoveAllEntities] parallel3 = Ok (p', tr) /\
     ready p') \/
  ParallelEntity.run
    [ParallelEntity.OpAddEntity (Leaf.new Leaf.Block) (ACValue VNull);
     ParallelEntity.OpRemoveEntity (Member 0);
     ParallelEntity.OpUpdate (frame 16);
     ParallelEntity.OpOnSignal (frame 16) "pause" VNull;
     ParallelEntity.OpRemoveAllEntities] parallel3
    = Throw (Error "Cannot find entity to remove").
Proof.
  apply (parallel_run_ready
           [ParallelEntity.OpAddEntity (Leaf.new Leaf.Block) (ACValue VNull);
            ParallelEntity.OpRemoveEntity (Member 0);
            ParallelEntity.OpUpdate (frame 16);
            ParallelEntity.OpOnSignal (frame 16) "pause" VNull;
            ParallelEntity.OpRemoveAllEntities] parallel3).
  split; [repeat split; vm_compute; reflexivity|vm_compute; discriminate].
Defined.

(** ** The base class: what [_off] removes *)

Section ListenerFacts.
Context {U : Type}.

Lemma filter_not_in_filter (P : IEventListener -> Prop)
    `{!forall x, Decision (P x)} (l : list IEventListener) :
  filter (fun x => x ∉ filter P l) l = filter (fun x => ~ P x) l.
Proof.
  assert (Hgen : forall l' : list IEventListener, (forall x, x ∈ l' -> x ∈ l) ->
            filter (fun x => x ∉ filter P l) l' = filter (fun x => ~ P x) l').
  { induction l' as [|a l' IH]; intros Hin; [reflexivity|].
    rewrite !filter_cons.
    assert (Ha : a ∈ l) by (apply Hin; left).
    assert (Hl' : forall x, x ∈ l' -> x ∈ l) by (intros x Hx; apply Hin; now right).
    rewrite (IH Hl').
    destruct (decide (a ∉ filter P l)) as [Hn|Hn];
      destruct (decide (~ P a)) as [Hp|Hp]; try reflexivity.
    - exfalso. apply Hn. apply list_elem_of_filter. split; [|exact Ha].
      destruct (decide (P a)); [assumption|contradiction].
    - exfalso. apply Hn. intros Hin'. apply list_elem_of_filter in Hin' as [HP _].
      contradiction. }
  apply Hgen. auto.
Qed.

Lemma filter_all_out (l : list IEventListener) :
  filter (fun x => x ∉ l) l = filter (fun x => ~ True) l.
Proof.
  assert (Hl : filter (fun _ : IEventListener => True) l = l).
  { induction l as [|a l IH]; [reflexivity|].
    rewrite filter_cons. destruct (decide True); [now f_equal|tauto]. }
  pose proof (filter_not_in_filter (fun _ => True) l) as Hf.
  rewrite Hl in Hf. exact Hf.
Qed.

Lemma off_listeners em ev c (e : Entity.t U) :
  Entity.eventListeners (Entity._off em ev c e)
  = filter (fun l => ~ selected em ev c l) (Entity.eventListeners e).
Proof.
  unfold Entity._off.
  cbn [Entity.eventListeners Entity.set_eventListeners].
  destruct c as [c|];
    [rewrite filter_not_in_filter; now apply list_filter_iff|].
  destruct ev as [s|]; cbn [selected].
  - destruct (String.eqb_spec s "") as [->|Hs].
    + destruct em as [em|];
        [rewrite filter_not_in_filter|rewrite filter_all_out];
        now apply list_filter_iff.
    + rewrite (filter_not_in_filter (fun l => Some (event l) = Some s)).
      apply list_filter_iff. intros l. unfold selected.
      destruct (String.eqb_spec s ""); [contradiction|].
      split; intros Hn Hl; apply Hn; congruence.
  - destruct em as [em|];
      [rewrite filter_not_in_filter|rewrite filter_all_out];
      now apply list_filter_iff.
Qed.

(** [_off] keeps exactly the listeners that its arguments do not
    select, in the order in which they were registered, and writes no
    other field.  The callback, when given, decides alone: the emitter
    and the event name are then not looked at; likewise the event name,
    when given without a callback, decides without the emitter. *)
Theorem off_removes_selected em ev c (e : Entity.t U) :
  let e' := Entity._off em ev c e in
  (forall l, l ∈ Entity.eventListeners e' <->
             l ∈ Entity.eventListeners e /\ ~ selected em ev c l) /\
  sublist (Entity.eventListeners e') (Entity.eventListeners e) /\
  Entity.isSetup e' = Entity.isSetup e /\
  Entity.requestedTransition e' = Entity.requestedTransition e /\
  Entity.entityConfig e' = Entity.entityConfig e /\
  Entity.fields e' = Entity.fields e.
Proof.
  cbn zeta. rewrite off_listeners. split; [|split].
  - intros l. rewrite list_elem_of_filter. tauto.
  - apply sublist_filter.
  - repeat split.
Qed.

(** A listener registered with [_on] is removed again by [_off] with
    its callback, whatever emitter and event name are passed along: when
    no other listener of the registry has that callback, the registry is
    as it was before [_on]. *)
Theorem on_off_round_trip em ev c em' ev' (e : Entity.t U) :
  Forall (fun l => cb l <> c) (Entity.eventListeners e) ->
  Entity.eventListeners (Entity._off em' ev' (Some c) (Entity._on em ev c e))
  = Entity.eventListeners e.
Proof.
  intros Hfresh. rewrite off_listeners.
  cbn [Entity._on Entity.eventListeners Entity.set_eventListeners selected].
  rewrite filter_app, filter_cons, filter_nil. cbn [cb].
  destruct (decide (~ c = c)) as [Hn|_]; [now contradiction Hn|].
  rewrite app_nil_r.
  induction Hfresh as [|l ls Hl _ IH]; [reflexivity|].
  rewrite filter_cons. destruct (decide (~ cb l = c)); [|contradiction].
  now rewrite IH.
Qed.

End ListenerFacts.

(** [on_off_round_trip] on a [WaitForEvent] that holds its own listener
    (callback 0) when a second one (callback 1) is registered and
    released. *)
Lemma on_off_round_trip_witness :
  let e := Entity.setup Leaf.hooks (frame 0) VNull
             (Leaf.new (Leaf.WaitForEvent 7 "pointertap")) in
  Entity.eventListeners
    (Entity._off None None (Some 1) (Entity._on 8 "pointerdown" 1 e))
  = Entity.eventListeners e.
Proof.
  apply (on_off_round_trip 8 "pointerdown" 1 None None
           (Entity.setup Leaf.hooks (frame 0) VNull
              (Leaf.new (Leaf.WaitForEvent 7 "pointertap")))).
  vm_compute. repeat constructor; discriminate.
Defined.

(** ** The leaves: when they ask for a transition *)

Lemma leaf_fields_step (e : Leaf.t) c :
  Entity.between c = true ->
  Entity.fields (Entity.step Leaf.hooks e c) = Entity.fields e.
Proof.
  destruct c; try discriminate; intros _; [|reflexivity].
  cbn [Entity.step]. unfold Entity.update. cbn [Entity._update Leaf.hooks].
  unfold Leaf._update. cbn [Entity.fields Entity.set_lastFrameInfo].
  destruct (Entity.fields e) eqn:E; try exact E.
  destruct (_ >=? _)%Z; exact E.
Qed.

Lemma leaf_transition_step (e : Leaf.t) c :
  Entity.between c = true ->
  (forall w, Entity.fields e <> Leaf.WaitingEntity w) ->
  Entity.requestedTransition (Entity.step Leaf.hooks e c)
  = Entity.requestedTransition e.
Proof.
  destruct c; try discriminate; intros _ Hk; [|reflexivity].
  cbn [Entity.step]. unfold Entity.update. cbn [Entity._update Leaf.hooks].
  unfold Leaf._update. cbn [Entity.fields Entity.set_lastFrameInfo].
  destruct (Entity.fields e) eqn:E; try reflexivity.
  now contradiction (Hk wait).
Qed.

(** A leaf other than a [WaitingEntity] asks for its transition in
    [setup] or not at all: when [setup] returns, and after every
    [update] and [onSignal] that follows, [requestedTransition] is the
    value of [transition_at_setup], whatever the leaf held before
    [setup].  So a [NullEntity], a [Block] and a [WaitForEvent] hold
    [null] until [done] or the event handler is called from outside, and
    [setup] takes back a transition that an earlier round has left. *)
Theorem leaf_transition_from_setup (e : Leaf.t) f cfg (mid : list Entity.call) :
  forallb Entity.between mid = true ->
  (forall w, Entity.fields e <> Leaf.WaitingEntity w) ->
  Entity.requestedTransition
    (Entity.run Leaf.hooks (Entity.Setup f cfg :: mid) e)
  = transition_at_setup (Entity.fields e).
Proof.
  intros Hmid Hk. unfold Entity.run. cbn [fold_left Entity.step].
  assert (Hs : Entity.requestedTransition (Entity.setup Leaf.hooks f cfg e)
               = transition_at_setup (Entity.fields e) /\
               Entity.fields (Entity.setup Leaf.hooks f cfg e) = Entity.fields e).
  { unfold Entity.setup. cbn [Entity._setup Leaf.hooks]. unfold Leaf._setup.
    cbn [Entity.fields Entity.set_requestedTransition Entity.set_isSetup
         Entity.set_lastFrameInfo Entity.set_entityConfig].
    destruct (Entity.fields e) eqn:E; split; reflexivity || exact E. }
  destruct Hs as [Hrt Hfs]. rewrite <- Hrt.
  assert (Hk' : forall w, Entity.fields (Entity.setup Leaf.hooks f cfg e)
                          <> Leaf.WaitingEntity w) by (rewrite Hfs; exact Hk).
  clear Hrt Hfs Hk. revert Hk'. generalize (Entity.setup Leaf.hooks f cfg e).
  clear e. induction mid as [|c mid IH]; intros e Hk; [reflexivity|].
  cbn [forallb] in Hmid. apply andb_prop in Hmid as [Hc Hmid].
  cbn [fold_left]. rewrite (IH Hmid).
  - now apply leaf_transition_step.
  - intros w. rewrite leaf_fields_step by exact Hc. apply Hk.
Qed.

(** [leaf_transition_from_setup] on a [Block] on which [done("next")]
    was called in an earlier round: after the next [setup] and two
    updates it asks for nothing. *)
Lemma leaf_transition_from_setup_witness :
  Entity.requestedTransition
    (Entity.run Leaf.hooks
       [Entity.Setup (frame 0) VNull; Entity.Update (frame 16);
        Entity.OnSignal (frame 16) "pause" VNull; Entity.Update (frame 32)]
       (Leaf.done (VString "next") (Leaf.new Leaf.Block)))
  = VNull.
Proof.
  apply (leaf_transition_from_setup
           (Leaf.done (VString "next") (Leaf.new Leaf.Block)) (frame 0) VNull
           [Entity.Update (frame 16); Entity.OnSignal (frame 16) "pause" VNull;
            Entity.Update (frame 32)]).
  - reflexivity.
  - intros w. vm_compute. discriminate.
Defined.

Lemma waiting_updates wait (frames : list FrameInfo) :
  forall e : Leaf.t,
    Entity.fields e = Leaf.WaitingEntity wait ->
    Entity.requestedTransition
      (Entity.run Leaf.hooks (map Entity.Update frames) e)
    = if existsb (time_is_up wait) frames then VBool true
      else Entity.requestedTransition e.
Proof.
  induction frames as [|fr frames IH]; intros e He; [reflexivity|].
  unfold Entity.run in *. cbn [map fold_left existsb Entity.step].
  assert (Hu : Entity.fields (Entity.update Leaf.hooks fr e) = Leaf.WaitingEntity wait /\
               Entity.requestedTransition (Entity.update Leaf.hooks fr e)
               = if time_is_up wait fr then VBool true
                 else Entity.requestedTransition e).
  { unfold Entity.update. cbn [Entity._update Leaf.hooks]. unfold Leaf._update.
    cbn [Entity.fields Entity.set_lastFrameInfo]. rewrite He.
    unfold time_is_up. destruct (_ >=? _)%Z; split; reflexivity || exact He. }
  destruct Hu as [Hf Hrt]. rewrite (IH _ Hf), Hrt.
  destruct (time_is_up wait fr); cbn [orb]; [|reflexivity].
  now destruct (existsb _ _).
Qed.

(** A [WaitingEntity] that is set up and then updated asks for the
    transition [true] exactly when one of the frames it has seen is at
    or past its time, and holds [null] until then: the time of the
    set-up frame does not count, and a later frame with an earlier time
    does not take the transition back. *)
Theorem waiting_completes_iff wait f cfg (frames : list FrameInfo) :
  Entity.requestedTransition
    (Entity.run Leaf.hooks (Entity.Setup f cfg :: map Entity.Update frames)
       (Leaf.new (Leaf.WaitingEntity wait)))
  = if existsb (time_is_up wait) frames then VBool true else VNull.
Proof.
  unfold Entity.run. cbn [fold_left Entity.step].
  exact (waiting_updates wait frames
           (Entity.setup Leaf.hooks f cfg (Leaf.new (Leaf.WaitingEntity wait)))
           eq_refl).
Qed.

(** ** Alternative: [setup], and when the transition is there *)

Section AlternativeMoreFacts.
Context {C : Type} `{EntityLike C}.

Lemma setup_pairs_spec f cfg (ps : list (Alternative.entityPair C)) rt :
  let ps' := map (fun p => {| Alternative.entity := e_setup f cfg (Alternative.entity p);
                              Alternative.transition := Alternative.transition p |}) ps in
  Alternative.setup_pairs f cfg ps rt =
    (ps', match Alternative.last_completed ps' with
          | Some p => VString (Alternative.transition p)
          | None => rt
          end).
Proof.
  revert rt. induction ps as [|p ps IH]; intros rt; [reflexivity|].
  cbn zeta in *. cbn [Alternative.setup_pairs map]. rewrite IH. f_equal.
  unfold Alternative.last_completed. cbn [List.filter].
  unfold Alternative.completed at 2. cbn [Alternative.entity].
  destruct (truthy (e_requestedTransition (e_setup f cfg (Alternative.entity p)))).
  - destruct (List.filter _ _) as [|q qs] eqn:E; [reflexivity|].
    rewrite last_cons_cons.
    destruct (last (q :: qs)) eqn:El; [reflexivity|].
    now apply last_None in El.
  - reflexivity.
Qed.

(** [setup] of an [Alternative] sets every child up with the
    configuration of the [Alternative], whether the child was set up
    before or not.  When [setup] returns, the transition is the label of
    the last child of the list that asks for one after its own [setup],
    and [null] when no child does: what the [Alternative] held before is
    gone. *)
Theorem alternative_setup_pass f cfg (a : Alternative.t C) :
  let a' := Alternative.setup f cfg a in
  Entity.isSetup a' = true /\
  Entity.entityConfig a' = cfg /\
  Alternative.entityPairs (Entity.fields a') =
    map (fun p => {| Alternative.entity := e_setup f cfg (Alternative.entity p);
                     Alternative.transition := Alternative.transition p |})
        (Alternative.entityPairs (Entity.fields a)) /\
  Entity.requestedTransition a' =
    match Alternative.last_completed (Alternative.entityPairs (Entity.fields a')) with
    | Some p => VString (Alternative.transition p)
    | None => VNull
    end.
Proof.
  cbn zeta. unfold Alternative.setup, Entity.setup.
  cbn [Entity._setup Alternative.hooks]. unfold Alternative._setup.
  cbn [Entity.entityConfig Entity.fields Entity.requestedTransition
       Entity.set_requestedTransition Entity.set_isSetup
       Entity.set_lastFrameInfo Entity.set_entityConfig].
  rewrite setup_pairs_spec. cbn zeta.
  repeat split; reflexivity.
Qed.

Lemma last_completed_in (ps : list (Alternative.entityPair C)) p :
  Alternative.last_completed ps = Some p ->
  p ∈ ps /\ Alternative.completed p = true.
Proof.
  unfold Alternative.last_completed. intros Hl.
  assert (Hin : In p (List.filter Alternative.completed ps)).
  { apply last_Some in Hl as [l' ->]. apply in_or_app. right. now left. }
  apply filter_In in Hin as [Hin Hc]. split; [|exact Hc].
  now apply list_elem_of_In.
Qed.

Lemma last_completed_none (ps : list (Alternative.entityPair C)) :
  Alternative.last_completed ps = None ->
  existsb Alternative.completed ps = false.
Proof.
  unfold Alternative.last_completed. intros Hl. apply last_None in Hl.
  induction ps as [|p ps IH]; [reflexivity|].
  cbn [List.filter existsb] in *.
  destruct (Alternative.completed p); [discriminate|]. now apply IH.
Qed.

(** When no label of the list is the empty string, the transition of an
    [Alternative] is truthy after [update] exactly when it was truthy
    before or a child asks for a transition after its own update: a
    transition that is there is never taken back.  (The empty string is
    a falsy value: a child with that label would leave the
    [Alternative] with a falsy transition.) *)
Theorem alternative_completes_iff f (a : Alternative.t C) :
  Forall (fun p => Alternative.transition p <> "")
    (Alternative.entityPairs (Entity.fields a)) ->
  let a' := Alternative.update f a in
  truthy (Entity.requestedTransition a')
  = truthy (Entity.requestedTransition a)
    || existsb Alternative.completed (Alternative.entityPairs (Entity.fields a')).
Proof.
  intros Hlab. cbn zeta. unfold Alternative.update, Entity.update.
  cbn [Entity._update Alternative.hooks]. unfold Alternative._update.
  rewrite update_pairs_spec. cbn zeta.
  cbn [Entity.fields Entity.requestedTransition Entity.set_requestedTransition
       Entity.set_fields Entity.set_lastFrameInfo Alternative.entityPairs].
  destruct (Alternative.last_completed _) as [p|] eqn:El.
  - apply last_completed_in in El as [Hin Hc].
    assert (Hex : existsb Alternative.completed
                    (map (fun p => {| Alternative.entity := e_update f (Alternative.entity p);
                                      Alternative.transition := Alternative.transition p |})
                       (Alternative.entityPairs (Entity.fields a))) = true).
    { apply existsb_exists. exists p. split; [now apply list_elem_of_In|exact Hc]. }
    rewrite Hex, orb_true_r.
    change (map ?g ?l) with (g <$> l) in Hin.
    apply list_elem_of_fmap in Hin as (q & -> & Hq).
    rewrite Forall_forall in Hlab. specialize (Hlab q Hq).
    cbn [truthy Alternative.transition].
    destruct (String.eqb_spec (Alternative.transition q) ""); [contradiction|reflexivity].
  - apply last_completed_none in El. rewrite El, orb_false_r. reflexivity.
Qed.

End AlternativeMoreFacts.

(** [alternative_completes_iff] on [race_before] at 16 ms: the labels
    are "0" and "1", both children complete. *)
Lemma alternative_completes_iff_witness :
  truthy (Entity.requestedTransition (Alternative.update (frame 16) race_before))
  = truthy (Entity.requestedTransition race_before)
    || existsb Alternative.completed
         (Alternative.entityPairs
            (Entity.fields (Alternative.update (frame 16) race_before))).
Proof.
  apply (alternative_completes_iff (frame 16) race_before).
  vm_compute. repeat constructor; discriminate.
Defined.

(** ** DeflatingCompositeEntity: the children between [setup] and [teardown] *)

Section DeflatingMoreFacts.
Context {C : Type} `{EntityLike C}.

Lemma map_fst_imap {A B D} (g : nat -> A -> B * D) (h : A -> B) (l : list A) :
  (forall i a, (g i a).1 = h a) -> map fst (imap g l) = map h l.
Proof.
  revert g. induction l as [|a l IH]; intros g Hg; [reflexivity|].
  cbn [imap map]. rewrite Hg. f_equal. apply IH. intros i b. apply Hg.
Qed.

Lemma deflating_setup_children f cfg (d : DeflatingCompositeEntity.t C) :
  DeflatingCompositeEntity.entities
    (Entity.fields (DeflatingCompositeEntity.setup f cfg d).1)
  = map (fun c => if e_isSetup c then c else e_setup f cfg c)
      (DeflatingCompositeEntity.entities (Entity.fields d)).
Proof.
  unfold DeflatingCompositeEntity.setup.
  cbn [fst Entity.fields Entity.set_fields DeflatingCompositeEntity.set_entities
       DeflatingCompositeEntity.entities].
  apply map_fst_imap. intros i c. unfold DeflatingCompositeEntity.setup_child.
  now destruct (e_isSetup c).
Qed.

Lemma Forall_delete {A} (P : A -> Prop) (l : list A) i :
  Forall P l -> Forall P (delete i l).
Proof.
  intros Hl. revert i. induction Hl as [|a l Ha Hl IH]; intros i; [constructor|].
  destruct i as [|i]; [exact Hl|]. cbn. constructor; [exact Ha|apply IH].
Qed.

Lemma survivors_set_up f (es : list C) :
  disciplined ->
  Forall (fun c => e_isSetup c = true) es ->
  Forall (fun c => e_isSetup c = true) (survivors f es).
Proof.
  intros (_ & Hu & _ & _) Hes. unfold survivors.
  induction Hes as [|c es Hc _ IH]; [constructor|].
  cbn [map List.filter]. destruct (running (e_update f c)); [|exact IH].
  constructor; [now rewrite Hu|exact IH].
Qed.

Lemma deflating_step_set_up (o : DeflatingCompositeEntity.op C)
    (d : DeflatingCompositeEntity.t C) :
  disciplined ->
  DeflatingCompositeEntity.keeps_up o = true ->
  all_set_up d ->
  (exists d' tr, DeflatingCompositeEntity.step o d = Ok (d', tr) /\ all_set_up d') \/
  DeflatingCompositeEntity.step o d = Throw (Error "Cannot find entity to remove").
Proof.
  intros Hd Ho (Hsu & Hlf & Hall).
  pose proof Hd as (Hds & Hdu & Hdg & Hdt).
  destruct o as [f cfg|f|f sg data|f|e|r]; try discriminate;
    cbn [DeflatingCompositeEntity.step].
  - left. destruct (DeflatingCompositeEntity.setup f cfg d) as [d' tr] eqn:E.
    exists d', tr. split; [reflexivity|].
    pose proof (deflating_setup_children f cfg d) as Hch. rewrite E in Hch.
    cbn [fst] in Hch. unfold all_set_up. rewrite Hch.
    unfold DeflatingCompositeEntity.setup in E. injection E as <- _.
    split; [reflexivity|]. split; [discriminate|].
    apply Forall_forall. intros c Hc. change (map ?g ?l) with (g <$> l) in Hc.
    apply list_elem_of_fmap in Hc as (c0 & -> & _).
    destruct (e_isSetup c0) eqn:E0; [exact E0|apply Hds].
  - left. destruct (DeflatingCompositeEntity.update f d) as [d' tr] eqn:E.
    exists d', tr. split; [reflexivity|].
    destruct d as [su ls rt c0 lf [es auto]].
    unfold DeflatingCompositeEntity.update, Entity.update in E.
    cbn [Entity._update Entity.no_hooks Entity.set_lastFrameInfo Entity.fields
         Entity.isSetup Entity.eventListeners Entity.requestedTransition
         Entity.entityConfig Entity.lastFrameInfo
         DeflatingCompositeEntity.entities] in E, Hsu, Hall.
    pose proof (deflating_loop_spec f es (length es) [] [] (Nat.le_refl _)) as Hloop.
    cbn [app length] in Hloop. rewrite Hloop in E.
    cbn [Entity.set_fields Entity.fields DeflatingCompositeEntity.set_entities
         DeflatingCompositeEntity.autoTransition DeflatingCompositeEntity.entities
         Entity.isSetup Entity.eventListeners Entity.requestedTransition
         Entity.entityConfig Entity.lastFrameInfo] in E.
    destruct (auto && _); injection E as <- _;
      (split; [exact Hsu|split; [discriminate|now apply survivors_set_up]]).
  - left. eexists _, _. split; [reflexivity|].
    unfold all_set_up, DeflatingCompositeEntity.onSignal, Entity.onSignal.
    cbn [fst Entity._onSignal Entity.no_hooks Entity.set_lastFrameInfo
         Entity.fields Entity.set_fields Entity.isSetup Entity.lastFrameInfo
         DeflatingCompositeEntity.set_entities DeflatingCompositeEntity.entities].
    split; [exact Hsu|]. split; [discriminate|].
    apply Forall_forall. intros c Hc. change (map ?g ?l) with (g <$> l) in Hc.
    apply list_elem_of_fmap in Hc as (c0 & -> & Hc0).
    rewrite Hdg. rewrite Forall_forall in Hall. now apply Hall.
  - left. unfold DeflatingCompositeEntity.addEntity. rewrite Hsu. cbn [andb].
    destruct (Entity.lastFrameInfo d) as [f0|] eqn:Elf; [|contradiction].
    destruct (e_isSetup e) eqn:Ee; cbn [negb];
      (eexists _, _; split; [reflexivity|]);
      unfold all_set_up;
      cbn [Entity.fields Entity.set_fields Entity.isSetup Entity.lastFrameInfo
           DeflatingCompositeEntity.set_entities DeflatingCompositeEntity.entities];
      (split; [exact Hsu|split; [now rewrite Elf|]]);
      apply Forall_app; (split; [exact Hall|]);
      repeat constructor; [exact Ee|apply Hds].
  - unfold DeflatingCompositeEntity.removeEntity.
    destruct (DeflatingCompositeEntity.indexOf r _) as [index|] eqn:Eidx;
      [|now right].
    left.
    assert (Hin : index < length (DeflatingCompositeEntity.entities (Entity.fields d))).
    { unfold DeflatingCompositeEntity.indexOf in Eidx.
      destruct r as [|i|]; try discriminate.
      destruct (Nat.ltb_spec i (length (DeflatingCompositeEntity.entities (Entity.fields d))));
        [|discriminate].
      now injection Eidx as <-. }
    apply lookup_lt_is_Some in Hin as [c Hc]. rewrite Hc.
    destruct (Entity.lastFrameInfo d) as [f0|] eqn:Elf; [|contradiction].
    destruct (e_isSetup c); cbn [the_frame mbind result_bind];
      (eexists _, _; split; [reflexivity|]);
      unfold all_set_up;
      cbn [Entity.fields Entity.set_fields Entity.isSetup Entity.lastFrameInfo
           DeflatingCompositeEntity.set_entities DeflatingCompositeEntity.entities];
      (split; [exact Hsu|split; [now rewrite Elf|now apply Forall_delete]]).
Qed.

Lemma deflating_run_set_up (os : list (DeflatingCompositeEntity.op C)) :
  disciplined ->
  forall d : DeflatingCompositeEntity.t C,
    forallb DeflatingCompositeEntity.keeps_up os = true ->
    all_set_up d ->
    (exists d' tr, DeflatingCompositeEntity.run os d = Ok (d', tr) /\ all_set_up d') \/
    DeflatingCompositeEntity.run os d = Throw (Error "Cannot find entity to remove").
Proof.
  intros Hd. induction os as [|o os IH]; intros d Hos Hall.
  - left. now exists d, [].
  - cbn [forallb] in Hos. apply andb_prop in Hos as [Ho Hos].
    cbn [DeflatingCompositeEntity.run].
    destruct (deflating_step_set_up o d Hd Ho Hall)
      as [(d1 & tr1 & Hstep & Hd1)|Hstep]; rewrite Hstep; [|now right].
    cbn [mbind result_bind].
    destruct (IH d1 Hos Hd1) as [(d2 & tr2 & Hrun & Hd2)|Hrun]; rewrite Hrun;
      [|now right].
    left. now exists d2, (tr1 ++ tr2).
Qed.

(** Between [setup] and [teardown] every child in the list of a
    [DeflatingCompositeEntity] is set up.  The children keep the
    contract of the base class on [isSetup]; the composite is in any
    state when [setup] is called, and any calls of [setup], [update],
    [onSignal], [addEntity] and [removeEntity] follow.  The calls
    return, except for a [removeEntity] of an entity that is not in the
    list; no call throws a [TypeError].  So a child that completes
    during [update] is always torn down before it is spliced out, and so
    is a child that leaves by [removeEntity]. *)
Theorem deflating_children_set_up f cfg (os : list (DeflatingCompositeEntity.op C))
    (d : DeflatingCompositeEntity.t C) :
  disciplined ->
  forallb DeflatingCompositeEntity.keeps_up os = true ->
  (exists d' tr,
     DeflatingCompositeEntity.run (DeflatingCompositeEntity.OpSetup f cfg :: os) d
       = Ok (d', tr) /\
     all_set_up d') \/
  DeflatingCompositeEntity.run (DeflatingCompositeEntity.OpSetup f cfg :: os) d
    = Throw (Error "Cannot find entity to remove").
Proof.
  intros Hd Hos.
  cbn [DeflatingCompositeEntity.run DeflatingCompositeEntity.step mbind result_bind].
  destruct (DeflatingCompositeEntity.setup f cfg d) as [d0 tr0] eqn:E.
  assert (H0 : all_set_up d0).
  { pose proof (deflating_setup_children f cfg d) as Hch. rewrite E in Hch.
    cbn [fst] in Hch. unfold all_set_up. rewrite Hch.
    unfold DeflatingCompositeEntity.setup in E. injection E as <- _.
    split; [reflexivity|]. split; [discriminate|].
    destruct Hd as (Hds & _).
    apply Forall_forall. intros c Hc. change (map ?g ?l) with (g <$> l) in Hc.
    apply list_elem_of_fmap in Hc as (c0 & -> & _).
    destruct (e_isSetup c0) eqn:E0; [exact E0|apply Hds]. }
  destruct (deflating_run_set_up os Hd d0 Hos H0)
    as [(d2 & tr2 & Hrun & Hd2)|Hrun]; rewrite Hrun; [|now right].
  left. now exists d2, (tr0 ++ tr2).
Qed.

End DeflatingMoreFacts.

Lemma leaf_disciplined : @disciplined Leaf.t Leaf_like.
Proof.
  destruct leaf_keeps_isSetup as (Hs & Hu & Hg).
  repeat split.
  - intros f cfg c. cbn [e_isSetup e_setup Leaf_like Entity_like].
    unfold Entity.setup. now rewrite Hs.
  - intros f c. cbn [e_isSetup e_update Leaf_like Entity_like].
    unfold Entity.update. now rewrite Hu.
Qed.

(** [deflating_children_set_up] on [deflating2]: the first child
    completes at 16 ms, a [Block] is added and the child that is then
    first is removed. *)
Lemma deflating_children_set_up_witness :
  (exists d' tr,
     DeflatingCompositeEntity.run
       [DeflatingCompositeEntity.OpSetup (frame 0) VNull;
        DeflatingCompositeEntity.OpUpdate (frame 16);
        DeflatingCompositeEntity.OpAddEntity (Leaf.new Leaf.Block);
        DeflatingCompositeEntity.OpRemoveEntity (Member 0)] deflating2
       = Ok (d', tr) /\
     all_set_up d') \/
  DeflatingCompositeEntity.run
    [DeflatingCompositeEntity.OpSetup (frame 0) VNull;
     DeflatingCompositeEntity.OpUpdate (frame 16);
     DeflatingCompositeEntity.OpAddEntity (Leaf.new Leaf.Block);
     DeflatingCompositeEntity.OpRemoveEntity (Member 0)] deflating2
    = Throw (Error "Cannot find entity to remove").
Proof.
  apply (deflating_children_set_up (frame 0) VNull
           [DeflatingCompositeEntity.OpUpdate (frame 16);
            DeflatingCompositeEntity.OpAddEntity (Leaf.new Leaf.Block);
            DeflatingCompositeEntity.OpRemoveEntity (Member 0)] deflating2).
  - exact leaf_disciplined.
  - reflexivity.
Defined.

(** The run of the witness returns; the calls on the children are these. *)
Example deflating_run_trace :
  snd <$>
    match
      DeflatingCompositeEntity.run
        [DeflatingCompositeEntity.OpSetup (frame 0) VNull;
         DeflatingCompositeEntity.OpUpdate (frame 16);
         DeflatingCompositeEntity.OpAddEntity (Leaf.new Leaf.Block);
         DeflatingCompositeEntity.OpRemoveEntity (Member 0)] deflating2
    with
    | Ok r => Some r
    | Throw _ => None
    end
  = Some [CallSetup 0 VNull; CallSetup 1 VNull;
          CallUpdate 0; CallTeardown 0; CallUpdate 0;
          CallSetup 1 VNull; CallTeardown 0].
Proof. vm_compute. reflexivity. Qed.

(** ** SwitchingEntity: the active child and the others *)

Lemma base_setup_mk {U} f cfg su ls rt c0 lf (fs : U) :
  Entity.setup Entity.no_hooks f cfg (Entity.mk su ls rt c0 lf fs)
  = Entity.mk true ls VNull cfg (Some f) fs.
Proof. reflexivity. Qed.

Lemma base_update_mk {U} f su ls rt c0 lf (fs : U) :
  Entity.update Entity.no_hooks f (Entity.mk su ls rt c0 lf fs)
  = Entity.mk su ls rt c0 (Some f) fs.
Proof. reflexivity. Qed.

Lemma base_onSignal_mk {U} f sg d su ls rt c0 lf (fs : U) :
  Entity.onSignal Entity.no_hooks f sg d (Entity.mk su ls rt c0 lf fs)
  = Entity.mk su ls rt c0 (Some f) fs.
Proof. reflexivity. Qed.

Lemma base_teardown_mk {U} f su ls rt c0 lf (fs : U) :
  Entity.teardown Entity.no_hooks f (Entity.mk su ls rt c0 lf fs)
  = Entity.mk false (filter (fun l => l ∉ ls) ls) rt VNull (Some f) fs.
Proof. reflexivity. Qed.

Section SwitchingMoreFacts.
Context {C : Type} `{EntityLike C}.

Lemma down_after (es : list C) idx c f :
  disciplined -> only_at es idx -> (0 <= idx)%Z ->
  only_at (<[Z.to_nat idx := e_teardown f c]> es) (-1)%Z.
Proof.
  intros (_ & _ & _ & Hdt) Hinv Hidx i c' Hl.
  rewrite (bool_decide_eq_false_2 _) by lia.
  apply list_lookup_insert_Some in Hl as [(<- & <- & _)|(Hne & Hl)]; [apply Hdt|].
  rewrite (Hinv _ _ Hl). apply bool_decide_eq_false_2. lia.
Qed.

Lemma down_before (es : list C) idx :
  only_at es idx -> (idx < 0)%Z -> only_at es (-1)%Z.
Proof.
  intros Hinv Hidx i c Hl. rewrite (Hinv _ _ Hl).
  rewrite !bool_decide_eq_false_2 by lia. reflexivity.
Qed.

Lemma up_after (es : list C) j c f cfg :
  disciplined -> only_at es (-1)%Z -> (0 <= j)%Z ->
  only_at (<[Z.to_nat j := e_setup f cfg c]> es) j.
Proof.
  intros (Hds & _) Hinv Hj i c' Hl.
  apply list_lookup_insert_Some in Hl as [(<- & <- & _)|(Hne & Hl)].
  - rewrite Hds. symmetry. apply bool_decide_eq_true_2. lia.
  - rewrite (Hinv _ _ Hl). rewrite !bool_decide_eq_false_2 by lia. reflexivity.
Qed.

Lemma same_after (es : list C) idx c c' :
  only_at es idx -> (0 <= idx)%Z -> es !! Z.to_nat idx = Some c ->
  e_isSetup c' = e_isSetup c ->
  only_at (<[Z.to_nat idx := c']> es) idx.
Proof.
  intros Hinv Hidx Hc Hsame i c1 Hl.
  apply list_lookup_insert_Some in Hl as [(<- & <- & _)|(Hne & Hl)].
  - rewrite Hsame. now apply Hinv.
  - now apply Hinv.
Qed.

Lemma entity_at_ok (fs : SwitchingEntity.fields C) i c :
  (0 <= i)%Z -> SwitchingEntity.entities fs !! Z.to_nat i = Some c ->
  SwitchingEntity.entity_at i fs = Ok c.
Proof.
  intros Hi Hc. unfold SwitchingEntity.entity_at.
  destruct (Z.ltb_spec i 0); [lia|]. now rewrite Hc.
Qed.

(** The second half of [switchToIndex], on a list whose children are
    all down. *)
Local Ltac switch_up es1 :=
  match goal with
  | Hj : (?j < _)%Z, Hlen1 : length es1 = _, Hinv1 : only_at es1 _,
    Hd : disciplined |- _ =>
      cbn [Entity.fields Entity.set_fields Entity.lastFrameInfo
           Entity.entityConfig Entity.isSetup Entity.eventListeners
           Entity.requestedTransition SwitchingEntity.set_activeEntityIndex
           SwitchingEntity.set_entities SwitchingEntity.entities
           SwitchingEntity.entityConfigs SwitchingEntity.activeEntityIndex];
      destruct (Z.leb_spec 0 j) as [Hpos'|Hneg'];
      [ unfold SwitchingEntity.entity_at;
        cbn [Entity.fields Entity.set_fields Entity.lastFrameInfo
             Entity.entityConfig Entity.isSetup Entity.eventListeners
             Entity.requestedTransition SwitchingEntity.set_activeEntityIndex
             SwitchingEntity.set_entities SwitchingEntity.entities
             SwitchingEntity.entityConfigs SwitchingEntity.activeEntityIndex];
        destruct (Z.ltb_spec j 0); [lia|];
        let c := fresh "c" in
        let Hc := fresh "Hc" in
        destruct (lookup_lt_is_Some_2 es1 (Z.to_nat j)) as [c Hc]; [lia|];
        rewrite Hc; cbn [mbind result_bind the_frame];
        eexists _, _; split; [reflexivity|];
        split; [rewrite length_insert; exact Hlen1|now apply up_after]
      | eexists _, _; split; [reflexivity|]; split; [exact Hlen1|];
        let i := fresh "i" in
        let c := fresh "c" in
        let Hl := fresh "Hl" in
        intros i c Hl; rewrite (Hinv1 _ _ Hl);
        rewrite !bool_decide_eq_false_2 by lia; reflexivity ]
  end.

Lemma switch_core f0 su ls rt c0 (es : list C) cfgs idx j :
  disciplined ->
  (idx < Z.of_nat (length es))%Z -> only_at es idx ->
  (j < Z.of_nat (length es))%Z ->
  exists es' tr,
    SwitchingEntity.switchToIndex j
      (Entity.mk su ls rt c0 (Some f0)
         {| SwitchingEntity.entities := es; SwitchingEntity.entityConfigs := cfgs;
            SwitchingEntity.activeEntityIndex := idx |})
    = Ok (Entity.mk su ls rt c0 (Some f0)
            {| SwitchingEntity.entities := es'; SwitchingEntity.entityConfigs := cfgs;
               SwitchingEntity.activeEntityIndex := j |}, tr) /\
    length es' = length es /\
    only_at es' j.
Proof.
  intros Hd Hidx Hinv Hj.
  unfold SwitchingEntity.switchToIndex.
  cbn [Entity.fields SwitchingEntity.activeEntityIndex Entity.lastFrameInfo].
  destruct (Z.leb_spec 0 idx) as [Hpos|Hneg].
  - destruct (lookup_lt_is_Some_2 es (Z.to_nat idx)) as [c Hc]; [lia|].
    rewrite (entity_at_ok
               {| SwitchingEntity.entities := es; SwitchingEntity.entityConfigs := cfgs;
                  SwitchingEntity.activeEntityIndex := idx |} idx c Hpos Hc).
    cbn [mbind result_bind the_frame]. unfold SwitchingEntity.put.
    cbn [Entity.fields Entity.set_fields Entity.lastFrameInfo Entity.entityConfig
         Entity.isSetup Entity.eventListeners Entity.requestedTransition
         SwitchingEntity.set_activeEntityIndex SwitchingEntity.set_entities
         SwitchingEntity.entities SwitchingEntity.entityConfigs
         SwitchingEntity.activeEntityIndex].
    pose proof (down_after es idx c f0 Hd Hinv Hpos) as Hinv1.
    pose proof (length_insert es (Z.to_nat idx) (e_teardown f0 c)) as Hlen1.
    revert Hinv1 Hlen1. generalize (<[Z.to_nat idx:=e_teardown f0 c]> es).
    intros es1 Hinv1 Hlen1. switch_up es1.
  - cbn [mbind result_bind]. unfold SwitchingEntity.put.
    cbn [Entity.fields Entity.set_fields Entity.lastFrameInfo Entity.entityConfig
         Entity.isSetup Entity.eventListeners Entity.requestedTransition
         SwitchingEntity.set_activeEntityIndex SwitchingEntity.set_entities
         SwitchingEntity.entities SwitchingEntity.entityConfigs
         SwitchingEntity.activeEntityIndex].
    pose proof (down_before es idx Hinv Hneg) as Hinv1.
    assert (Hlen1 : length es = length es) by reflexivity.
    switch_up es.
Qed.

Lemma only_at_delete (es : list C) idx i :
  only_at es idx -> (idx < Z.of_nat i)%Z -> only_at (delete i es) idx.
Proof.
  intros Hinv Hi k c Hl.
  destruct (decide (k < i)) as [Hk|Hk].
  - rewrite list_lookup_delete_lt in Hl by exact Hk. now apply Hinv.
  - rewrite list_lookup_delete_ge in Hl by lia.
    rewrite (Hinv _ _ Hl). rewrite !bool_decide_eq_false_2 by lia. reflexivity.
Qed.

Lemma switching_perform_one_active (c : SwitchingEntity.call C)
    (s : SwitchingEntity.t C) :
  disciplined -> one_active s -> allowed c s = true ->
  (exists s' tr, SwitchingEntity.perform c s = Ok (s', tr) /\ one_active s') \/
  SwitchingEntity.perform c s = Throw (Error "Cannot find entity").
Proof.
  intros Hd. pose proof Hd as (Hds & Hdu & Hdg & Hdt).
  destruct s as [su ls rt c0 lf [es cfgs idx]]. unfold one_active.
  cbn [Entity.fields Entity.lastFrameInfo SwitchingEntity.entities
       SwitchingEntity.activeEntityIndex].
  intros (Hlf & Hidx & Hinv) Hc.
  destruct lf as [f0|]; [|contradiction].
  destruct c as [o|j|r]; cbn [SwitchingEntity.perform].
  - destruct o as [f cfg|f|f sg d|f|e cfg|r|]; cbn [SwitchingEntity.step].
    + (* setup *)
      left. unfold SwitchingEntity.setup. rewrite base_setup_mk.
      cbn [Entity.fields SwitchingEntity.activeEntityIndex].
      destruct (0 <? idx)%Z.
      * destruct (switch_core f true ls VNull cfg es cfgs idx idx Hd Hidx Hinv Hidx)
          as (es' & tr & -> & Hlen & Hinv').
        eexists _, _. split; [reflexivity|]. unfold one_active.
        cbn [Entity.fields Entity.lastFrameInfo SwitchingEntity.entities
             SwitchingEntity.activeEntityIndex].
        split; [discriminate|]. split; [lia|exact Hinv'].
      * eexists _, _. split; [reflexivity|]. unfold one_active.
        cbn [Entity.fields Entity.lastFrameInfo SwitchingEntity.entities
             SwitchingEntity.activeEntityIndex].
        split; [discriminate|]. split; [lia|exact Hinv].
    + (* update *)
      left. unfold SwitchingEntity.update. rewrite base_update_mk.
      cbn [Entity.fields SwitchingEntity.activeEntityIndex].
      destruct (Z.leb_spec 0 idx) as [Hpos|Hneg].
      * unfold SwitchingEntity.entity_at. cbn [SwitchingEntity.entities].
        destruct (Z.ltb_spec idx 0); [lia|].
        destruct (lookup_lt_is_Some_2 es (Z.to_nat idx)) as [c Hcl]; [lia|].
        rewrite Hcl. cbn [mbind result_bind].
        eexists _, _. split; [reflexivity|]. unfold one_active, SwitchingEntity.put.
        cbn [Entity.fields Entity.set_fields Entity.lastFrameInfo
             SwitchingEntity.entities SwitchingEntity.set_entities
             SwitchingEntity.activeEntityIndex].
        split; [discriminate|]. split; [rewrite length_insert; lia|].
        now apply (same_after es idx c).
      * eexists _, _. split; [reflexivity|]. unfold one_active.
        cbn [Entity.fields Entity.lastFrameInfo SwitchingEntity.entities
             SwitchingEntity.activeEntityIndex].
        split; [discriminate|]. split; [lia|exact Hinv].
    + (* onSignal *)
      left. unfold SwitchingEntity.onSignal. rewrite base_onSignal_mk.
      cbn [Entity.fields SwitchingEntity.activeEntityIndex].
      destruct (Z.leb_spec 0 idx) as [Hpos|Hneg].
      * unfold SwitchingEntity.entity_at. cbn [SwitchingEntity.entities].
        destruct (Z.ltb_spec idx 0); [lia|].
        destruct (lookup_lt_is_Some_2 es (Z.to_nat idx)) as [c Hcl]; [lia|].
        rewrite Hcl. cbn [mbind result_bind].
        eexists _, _. split; [reflexivity|]. unfold one_active, SwitchingEntity.put.
        cbn [Entity.fields Entity.set_fields Entity.lastFrameInfo
             SwitchingEntity.entities SwitchingEntity.set_entities
             SwitchingEntity.activeEntityIndex].
        split; [discriminate|]. split; [rewrite length_insert; lia|].
        now apply (same_after es idx c).
      * eexists _, _. split; [reflexivity|]. unfold one_active.
        cbn [Entity.fields Entity.lastFrameInfo SwitchingEntity.entities
             SwitchingEntity.activeEntityIndex].
        split; [discriminate|]. split; [lia|exact Hinv].
    + (* teardown *)
      left. unfold SwitchingEntity.teardown.
      destruct (switch_core f0 su ls rt c0 es cfgs idx (-1)%Z Hd Hidx Hinv)
        as (es' & tr & -> & Hlen & Hinv'); [lia|].
      cbn [mbind result_bind]. eexists _, _. split; [reflexivity|].
      rewrite base_teardown_mk. unfold one_active.
      cbn [Entity.fields Entity.lastFrameInfo SwitchingEntity.entities
           SwitchingEntity.activeEntityIndex].
      split; [discriminate|]. split; [lia|exact Hinv'].
    + (* addEntity *)
      left. eexists _, _. split; [reflexivity|].
      unfold one_active, SwitchingEntity.addEntity.
      cbn [Entity.fields Entity.set_fields Entity.lastFrameInfo
           SwitchingEntity.entities SwitchingEntity.entityConfigs
           SwitchingEntity.activeEntityIndex].
      split; [discriminate|]. split; [rewrite length_app; cbn [length]; lia|].
      intros i c Hl. cbn [allowed] in Hc.
      apply lookup_app_Some in Hl as [Hl|[Hge Hl]]; [now apply Hinv|].
      apply list_lookup_singleton_Some in Hl as [_ <-].
      apply negb_true_iff in Hc. rewrite Hc. symmetry.
      apply bool_decide_eq_false_2. lia.
    + (* removeEntity *)
      unfold SwitchingEntity.removeEntity, SwitchingEntity.indexOf.
      cbn [Entity.fields SwitchingEntity.entities SwitchingEntity.activeEntityIndex].
      destruct r as [|i|]; [now right| |now right].
      destruct (Nat.ltb_spec i (length es)) as [Hi|Hi]; [|now right].
      destruct (Z.eqb_spec (Z.of_nat i) (-1)); [lia|]. left.
      cbn [allowed Entity.fields SwitchingEntity.activeEntityIndex] in Hc.
      apply Z.leb_le in Hc.
      destruct (Z.eqb_spec (Z.of_nat i) idx) as [Heq|Hneq].
      * destruct (switch_core f0 su ls rt c0 es cfgs idx (-1)%Z Hd Hidx Hinv)
          as (es' & tr & -> & Hlen & Hinv'); [lia|].
        cbn [mbind result_bind]. eexists _, _. split; [reflexivity|].
        unfold one_active.
        cbn [Entity.fields Entity.set_fields Entity.lastFrameInfo
             SwitchingEntity.entities SwitchingEntity.entityConfigs
             SwitchingEntity.activeEntityIndex].
        split; [discriminate|]. split; [lia|].
        rewrite Nat2Z.id. apply only_at_delete; [exact Hinv'|lia].
      * cbn [mbind result_bind]. eexists _, _. split; [reflexivity|].
        unfold one_active.
        cbn [Entity.fields Entity.set_fields Entity.lastFrameInfo
             SwitchingEntity.entities SwitchingEntity.entityConfigs
             SwitchingEntity.activeEntityIndex].
        split; [discriminate|]. rewrite Nat2Z.id.
        split; [rewrite length_delete by (apply lookup_lt_is_Some; lia); lia|].
        apply only_at_delete; [exact Hinv|lia].
    + (* removeAllEntities *)
      left. unfold SwitchingEntity.removeAllEntities.
      destruct (switch_core f0 su ls rt c0 es cfgs idx (-1)%Z Hd Hidx Hinv)
        as (es' & tr & -> & Hlen & Hinv'); [lia|].
      cbn [mbind result_bind]. eexists _, _. split; [reflexivity|].
      unfold one_active.
      cbn [Entity.fields Entity.set_fields Entity.lastFrameInfo
           SwitchingEntity.entities SwitchingEntity.activeEntityIndex length].
      split; [discriminate|]. split; [lia|]. intros i c Hl. discriminate.
  - (* switchToIndex *)
    left. cbn [allowed Entity.fields SwitchingEntity.entities] in Hc.
    apply Z.ltb_lt in Hc.
    destruct (switch_core f0 su ls rt c0 es cfgs idx j Hd Hidx Hinv Hc)
      as (es' & tr & -> & Hlen & Hinv').
    eexists _, _. split; [reflexivity|]. unfold one_active.
    cbn [Entity.fields Entity.lastFrameInfo SwitchingEntity.entities
         SwitchingEntity.activeEntityIndex].
    split; [discriminate|]. split; [lia|exact Hinv'].
  - (* switchToEntity *)
    unfold SwitchingEntity.switchToEntity, SwitchingEntity.indexOf.
    cbn [Entity.fields SwitchingEntity.entities].
    destruct r as [|i|]; [| |now right].
    + left.
      destruct (switch_core f0 su ls rt c0 es cfgs idx (-1)%Z Hd Hidx Hinv)
        as (es' & tr & -> & Hlen & Hinv'); [lia|].
      eexists _, _. split; [reflexivity|]. unfold one_active.
      cbn [Entity.fields Entity.lastFrameInfo SwitchingEntity.entities
           SwitchingEntity.activeEntityIndex].
      split; [discriminate|]. split; [lia|exact Hinv'].
    + destruct (Nat.ltb_spec i (length es)) as [Hi|Hi]; [|now right].
      destruct (Z.eqb_spec (Z.of_nat i) (-1)); [lia|]. left.
      destruct (switch_core f0 su ls rt c0 es cfgs idx (Z.of_nat i) Hd Hidx Hinv)
        as (es' & tr & -> & Hlen & Hinv'); [lia|].
      eexists _, _. split; [reflexivity|]. unfold one_active.
      cbn [Entity.fields Entity.lastFrameInfo SwitchingEntity.entities
           SwitchingEntity.activeEntityIndex].
      split; [discriminate|]. split; [lia|exact Hinv'].
Qed.

Lemma switching_run_one_active (cs : list (SwitchingEntity.call C)) :
  disciplined ->
  forall s : SwitchingEntity.t C,
    one_active s -> allowed_all cs s = true ->
    (exists s' tr, SwitchingEntity.perform_all cs s = Ok (s', tr) /\ one_active s') \/
    SwitchingEntity.perform_all cs s = Throw (Error "Cannot find entity").
Proof.
  intros Hd. induction cs as [|c cs IH]; intros s Hs Hcs.
  - left. now exists s, [].
  - cbn [allowed_all] in Hcs. apply andb_prop in Hcs as [Hc Hcs].
    cbn [SwitchingEntity.perform_all].
    destruct (switching_perform_one_active c s Hd Hs Hc)
      as [(s1 & tr1 & Hstep & Hs1)|Hstep]; rewrite Hstep in *; [|now right].
    cbn [mbind result_bind].
    destruct (IH s1 Hs1 Hcs) as [(s2 & tr2 & Hrun & Hs2)|Hrun]; rewrite Hrun;
      [|now right].
    left. now exists s2, (tr1 ++ tr2).
Qed.

(** [setup] needs no earlier frame: it brings its own. *)
Lemma switching_setup_settled f cfg (s : SwitchingEntity.t C) :
  disciplined -> settled s ->
  exists s' tr, SwitchingEntity.setup f cfg s = Ok (s', tr) /\ one_active s'.
Proof.
  intros Hd. destruct s as [su ls rt c0 lf [es cfgs idx]]. unfold settled.
  cbn [Entity.fields SwitchingEntity.entities SwitchingEntity.activeEntityIndex].
  intros (Hidx & Hinv).
  unfold SwitchingEntity.setup. rewrite base_setup_mk.
  cbn [Entity.fields SwitchingEntity.activeEntityIndex].
  destruct (0 <? idx)%Z.
  - destruct (switch_core f true ls VNull cfg es cfgs idx idx Hd Hidx Hinv Hidx)
      as (es' & tr & -> & Hlen & Hinv').
    eexists _, _. split; [reflexivity|]. unfold one_active.
    cbn [Entity.fields Entity.lastFrameInfo SwitchingEntity.entities
         SwitchingEntity.activeEntityIndex].
    split; [discriminate|]. split; [lia|exact Hinv'].
  - eexists _, _. split; [reflexivity|]. unfold one_active.
    cbn [Entity.fields Entity.lastFrameInfo SwitchingEntity.entities
         SwitchingEntity.activeEntityIndex].
    split; [discriminate|]. split; [lia|exact Hinv].
Qed.

(** In a [SwitchingEntity] that has been set up, a child is set up
    exactly when it is the active one.
    - [setup] finds the entity in any state in which the index is below
      the length of the list and the children are set up exactly at the
      index (a fresh entity with its added children is in such a state),
      whether the entity has seen a frame or not; any calls of the
      public methods follow.
    - The same holds for calls that start on an entity that has seen a
      frame and whose children are set up exactly at the index.
    The entities that are added are not set up, [switchToIndex] gets an
    index below the length of the list and [removeEntity] does not take
    out a child that comes before the active one.  The children keep
    the contract of the base class on [isSetup].  The calls return,
    except for [switchToEntity] and [removeEntity] of an entity that is
    not in the list; no call throws a [TypeError].  Calls of
    [switchToIndex] and [switchToEntity] that come before the first
    [setup], when the entity has no frame to hand to the child, are not
    covered. *)
Theorem switching_one_active f cfg (cs : list (SwitchingEntity.call C)) :
  disciplined ->
  (forall s : SwitchingEntity.t C,
     settled s ->
     allowed_all
       (SwitchingEntity.Plain (SwitchingEntity.OpSetup f cfg) :: cs) s = true ->
     (exists s' tr,
        SwitchingEntity.perform_all
          (SwitchingEntity.Plain (SwitchingEntity.OpSetup f cfg) :: cs) s
          = Ok (s', tr) /\
        one_active s') \/
     SwitchingEntity.perform_all
       (SwitchingEntity.Plain (SwitchingEntity.OpSetup f cfg) :: cs) s
       = Throw (Error "Cannot find entity")) /\
  (forall s : SwitchingEntity.t C,
     one_active s -> allowed_all cs s = true ->
     (exists s' tr, SwitchingEntity.perform_all cs s = Ok (s', tr) /\ one_active s') \/
     SwitchingEntity.perform_all cs s = Throw (Error "Cannot find entity")).
Proof.
  intros Hd. split; [|exact (switching_run_one_active cs Hd)].
  intros s Hs Hcs.
  cbn [allowed_all allowed andb SwitchingEntity.perform SwitchingEntity.step] in Hcs.
  cbn [SwitchingEntity.perform_all SwitchingEntity.perform SwitchingEntity.step].
  destruct (switching_setup_settled f cfg s Hd Hs) as (s1 & tr1 & Hset & Hs1).
  rewrite Hset in *. cbn [mbind result_bind].
  destruct (switching_run_one_active cs Hd s1 Hs1 Hcs)
    as [(s2 & tr2 & Hrun & Hs2)|Hrun]; rewrite Hrun; [|now right].
  left. now exists s2, (tr1 ++ tr2).
Qed.

(** [removeEntity] of a child that comes before the active one calls no
    child and leaves [activeEntityIndex] as it is, while the list moves
    down by one: the child that was active, still set up, is now at the
    index before, and the index points at the child that followed it, or
    past the end of the list. *)
Theorem switching_remove_shifts (s : SwitchingEntity.t C) i a c :
  SwitchingEntity.activeEntityIndex (Entity.fields s) = Z.of_nat a ->
  i < a ->
  SwitchingEntity.entities (Entity.fields s) !! a = Some c ->
  exists s',
    SwitchingEntity.removeEntity (Member i) s = Ok (s', []) /\
    SwitchingEntity.activeEntityIndex (Entity.fields s') = Z.of_nat a /\
    SwitchingEntity.entities (Entity.fields s') !! (a - 1) = Some c /\
    SwitchingEntity.entities (Entity.fields s') !! a
      = SwitchingEntity.entities (Entity.fields s) !! S a /\
    SwitchingEntity.activeEntity s'
      = SwitchingEntity.entities (Entity.fields s) !! S a.
Proof.
  destruct s as [su ls rt c0 lf [es cfgs idx]].
  cbn [Entity.fields SwitchingEntity.entities SwitchingEntity.activeEntityIndex].
  intros -> Hi Hc.
  assert (Ha : a < length es) by now apply lookup_lt_Some in Hc.
  unfold SwitchingEntity.removeEntity, SwitchingEntity.indexOf.
  cbn [Entity.fields SwitchingEntity.entities SwitchingEntity.activeEntityIndex].
  destruct (Nat.ltb_spec i (length es)); [|lia].
  destruct (Z.eqb_spec (Z.of_nat i) (-1)); [lia|].
  destruct (Z.eqb_spec (Z.of_nat i) (Z.of_nat a)); [lia|].
  cbn [mbind result_bind]. eexists. split; [reflexivity|].
  unfold SwitchingEntity.activeEntity.
  cbn [Entity.fields Entity.set_fields SwitchingEntity.entities
       SwitchingEntity.activeEntityIndex].
  rewrite !Nat2Z.id.
  split; [reflexivity|]. split; [|split].
  - rewrite list_lookup_delete_ge by lia. now replace (S (a - 1)) with a by lia.
  - now rewrite list_lookup_delete_ge by lia.
  - destruct (Z.leb_spec 0 (Z.of_nat a)); [|lia].
    now rewrite list_lookup_delete_ge by lia.
Qed.

End SwitchingMoreFacts.

(** [switching_one_active] on a fresh [SwitchingEntity] with three
    children: it is set up, the second child is made active and
    updated, the third is made active and then removed, and the whole
    is torn down. *)
Lemma switching_one_active_witness :
  (exists s' tr,
     SwitchingEntity.perform_all
       (SwitchingEntity.Plain (SwitchingEntity.OpSetup (frame 0) VNull)
          :: [SwitchingEntity.SwitchToIndex 1;
              SwitchingEntity.Plain (SwitchingEntity.OpUpdate (frame 16));
              SwitchingEntity.SwitchToEntity (Member 2);
              SwitchingEntity.Plain (SwitchingEntity.OpRemoveEntity (Member 2));
              SwitchingEntity.Plain (SwitchingEntity.OpTeardown (frame 32))])
       switching3_new
       = Ok (s', tr) /\
     one_active s') \/
  SwitchingEntity.perform_all
    (SwitchingEntity.Plain (SwitchingEntity.OpSetup (frame 0) VNull)
       :: [SwitchingEntity.SwitchToIndex 1;
           SwitchingEntity.Plain (SwitchingEntity.OpUpdate (frame 16));
           SwitchingEntity.SwitchToEntity (Member 2);
           SwitchingEntity.Plain (SwitchingEntity.OpRemoveEntity (Member 2));
           SwitchingEntity.Plain (SwitchingEntity.OpTeardown (frame 32))])
    switching3_new
    = Throw (Error "Cannot find entity").
Proof.
  destruct (switching_one_active (frame 0) VNull
              [SwitchingEntity.SwitchToIndex 1;
               SwitchingEntity.Plain (SwitchingEntity.OpUpdate (frame 16));
               SwitchingEntity.SwitchToEntity (Member 2);
               SwitchingEntity.Plain (SwitchingEntity.OpRemoveEntity (Member 2));
               SwitchingEntity.Plain (SwitchingEntity.OpTeardown (frame 32))]
              leaf_disciplined) as (Hfresh & _).
  apply (Hfresh switching3_new).
  - split; [vm_compute; reflexivity|].
    intros [|[|[|i]]] c Hc; vm_compute in Hc; try discriminate;
      injection Hc as <-; reflexivity.
  - vm_compute. reflexivity.
Defined.

(** The run of the witness returns, with these calls on the children. *)
Example switching_run_trace :
  snd <$>
    match
      SwitchingEntity.perform_all
        [SwitchingEntity.Plain (SwitchingEntity.OpSetup (frame 0) VNull);
         SwitchingEntity.SwitchToIndex 1;
         SwitchingEntity.Plain (SwitchingEntity.OpUpdate (frame 16));
         SwitchingEntity.SwitchToEntity (Member 2);
         SwitchingEntity.Plain (SwitchingEntity.OpRemoveEntity (Member 2));
         SwitchingEntity.Plain (SwitchingEntity.OpTeardown (frame 32))]
        switching3_new
    with
    | Ok r => Some r
    | Throw _ => None
    end
  = Some [CallSetup 1 VNull; CallUpdate 1; CallTeardown 1; CallSetup 2 VNull;
          CallTeardown 2].
Proof. vm_compute. reflexivity. Qed.

(** [switching_remove_shifts] on [switching3_at1]: the [Block] at index
    1 is active; once the [NullEntity] at index 0 is removed, the index
    is still 1 and points at the [WaitingEntity], which is not set up. *)
Lemma switching_remove_shifts_witness :
  exists s',
    SwitchingEntity.removeEntity (Member 0) switching3_at1 = Ok (s', []) /\
    SwitchingEntity.activeEntityIndex (Entity.fields s') = 1%Z /\
    (Entity.fields <$> SwitchingEntity.activeEntity s') = Some (Leaf.WaitingEntity 10) /\
    (Entity.isSetup <$> SwitchingEntity.activeEntity s') = Some false.
Proof.
  destruct (switching_remove_shifts switching3_at1 0 1
              (Entity.setup Leaf.hooks (frame 0) VNull (Leaf.new Leaf.Block)))
    as (s' & Hrun & Hidx & _ & _ & Hact);
    [vm_compute; reflexivity|lia|vm_compute; reflexivity|].
  exists s'. split; [exact Hrun|]. split; [exact Hidx|].
  rewrite Hact. split; vm_compute; reflexivity.
Defined.

(** ** EntitySequence: [skip], the signal "reset", and the ends of a run *)

Section SequenceMoreFacts.
Context {C : Type} `{EntityLike C}.

Lemma sequence_advance su ls rt cfg f (cs : list C) lp idx c transition :
  cs !! idx = Some c -> e_isSetup c = true ->
  EntitySequence._advance transition
    (seq_state su ls rt cfg (Some f) cs lp idx (EntitySequence.Listed idx))
  = if S idx <? length cs then
      match cs !! S idx with
      | Some c2 =>
          Ok (seq_state su ls rt cfg (Some f)
                (<[S idx:=e_setup f cfg c2]> (<[idx:=e_teardown f c]> cs))
                lp (S idx) (EntitySequence.Listed (S idx)),
              [CallTeardown idx; CallSetup (S idx) cfg])
      | None => Throw TypeError
      end
    else if lp then
      match <[idx:=e_teardown f c]> cs !! 0 with
      | Some c2 =>
          Ok (seq_state su ls rt cfg (Some f)
                (<[0:=e_setup f cfg c2]> (<[idx:=e_teardown f c]> cs))
                lp 0 (EntitySequence.Listed 0),
              [CallTeardown idx; CallSetup 0 cfg])
      | None => Throw TypeError
      end
    else
      Ok (seq_state su ls transition cfg (Some f)
            (<[idx:=e_teardown f c]> cs) lp idx (EntitySequence.Listed idx),
          [CallTeardown idx]).
Proof.
  intros Hc Hs.
  assert (Hidx : idx < length cs) by now apply lookup_lt_Some in Hc.
  pose proof (sequence_deactivate su ls rt cfg f cs lp idx c Hc Hs) as Hde.
  unfold EntitySequence._advance.
  simpl (EntitySequence.currentEntityIndex _).
  simpl (EntitySequence.loop _).
  simpl (EntitySequence.entities _).
  rewrite length_map.
  rewrite Hde. cbn [mbind result_bind].
  destruct (S idx <? length cs) eqn:Elt.
  - replace (EntitySequence.set_index _ _)
      with (seq_state su ls rt cfg (Some f) (<[idx:=e_teardown f c]> cs)
              lp (S idx) (EntitySequence.Listed idx)).
    2:{ unfold EntitySequence.set_index, seq_state. cbn. now rewrite Nat.add_1_r. }
    destruct (cs !! S idx) as [c2|] eqn:Ec2.
    + rewrite (sequence_activate su ls rt cfg f _ lp (S idx) _ c2)
        by (rewrite list_lookup_insert_ne by lia; exact Ec2).
      reflexivity.
    + apply lookup_ge_None in Ec2. apply Nat.ltb_lt in Elt. lia.
  - destruct lp.
    + replace (EntitySequence.set_index _ _)
        with (seq_state su ls rt cfg (Some f) (<[idx:=e_teardown f c]> cs)
                true 0 (EntitySequence.Listed idx)) by reflexivity.
      destruct (<[idx:=e_teardown f c]> cs !! 0) as [c2|] eqn:Ec2.
      * rewrite (sequence_activate su ls rt cfg f _ true 0 _ c2 Ec2). reflexivity.
      * apply lookup_ge_None in Ec2. rewrite length_insert in Ec2. lia.
    + reflexivity.
Qed.

(** [skip] on a sequence that runs its child at [idx] tears that
    child down and
    - sets up the next child of the list, when there is one;
    - sets up the first child again, when the child was the last one and
      the sequence loops;
    - asks for the transition [{ name: "skip" }] otherwise.
    The child is not updated.  On a sequence that has asked for a
    transition, [skip] does nothing. *)
Theorem sequence_skip su ls rt cfg f (cs : list C) lp idx c :
  cs !! idx = Some c -> e_isSetup c = true -> truthy rt = false ->
  let s := seq_state su ls rt cfg (Some f) cs lp idx (EntitySequence.Listed idx) in
  let down := <[idx:=e_teardown f c]> cs in
  (S idx < length cs ->
   exists c2, cs !! S idx = Some c2 /\
     EntitySequence.skip s
     = Ok (seq_state su ls rt cfg (Some f) (<[S idx:=e_setup f cfg c2]> down)
             lp (S idx) (EntitySequence.Listed (S idx)),
           [CallTeardown idx; CallSetup (S idx) cfg])) /\
  (S idx = length cs -> lp = true ->
   exists c2, down !! 0 = Some c2 /\
     EntitySequence.skip s
     = Ok (seq_state su ls rt cfg (Some f) (<[0:=e_setup f cfg c2]> down)
             lp 0 (EntitySequence.Listed 0),
           [CallTeardown idx; CallSetup 0 cfg])) /\
  (S idx = length cs -> lp = false ->
   EntitySequence.skip s
   = Ok (seq_state su ls (VObject [("name", VString "skip")]) cfg (Some f) down
           lp idx (EntitySequence.Listed idx),
         [CallTeardown idx])) /\
  (forall s' : EntitySequence.t C,
     truthy (Entity.requestedTransition s') = true ->
     EntitySequence.skip s' = Ok (s', [])).
Proof.
  intros Hc Hs Hrt. cbn zeta.
  assert (Hskip : EntitySequence.skip
                    (seq_state su ls rt cfg (Some f) cs lp idx (EntitySequence.Listed idx))
                  = EntitySequence._advance (VObject [("name", VString "skip")])
                      (seq_state su ls rt cfg (Some f) cs lp idx
                         (EntitySequence.Listed idx))).
  { unfold EntitySequence.skip, seq_state at 1.
    cbn [Entity.requestedTransition]. now rewrite Hrt. }
  rewrite Hskip, (sequence_advance su ls rt cfg f cs lp idx c _ Hc Hs).
  split; [|split; [|split]].
  - intros Hlt. destruct (Nat.ltb_spec (S idx) (length cs)); [|lia].
    destruct (lookup_lt_is_Some_2 cs (S idx) Hlt) as [c2 Hc2].
    exists c2. now rewrite Hc2.
  - intros Heq ->. destruct (Nat.ltb_spec (S idx) (length cs)); [lia|].
    destruct (lookup_lt_is_Some_2 (<[idx:=e_teardown f c]> cs) 0) as [c2 Hc2];
      [rewrite length_insert; lia|].
    exists c2. now rewrite Hc2.
  - intros Heq ->. destruct (Nat.ltb_spec (S idx) (length cs)); [lia|reflexivity].
  - intros s' Hs'. unfold EntitySequence.skip. now rewrite Hs'.
Qed.

(** [onSignal] on a sequence that runs its child at [idx] hands the
    signal to that child.  After the signal "reset" the child is torn
    down, the first child of the list is set up and the transition of
    the sequence is [false]; after any other signal nothing more
    happens.  A sequence that has asked for a transition drops the
    signal: no child receives it. *)
Theorem sequence_onSignal su ls rt cfg lf f (cs : list C) lp idx c data :
  disciplined ->
  cs !! idx = Some c -> e_isSetup c = true -> truthy rt = false ->
  let s := seq_state su ls rt cfg lf cs lp idx (EntitySequence.Listed idx) in
  (let down := <[idx:=e_teardown f (e_onSignal f "reset" data c)]> cs in
   exists c2, down !! 0 = Some c2 /\
     EntitySequence.onSignal f "reset" data s
     = Ok (seq_state su ls (VBool false) cfg (Some f)
             (<[0:=e_setup f cfg c2]> down) lp 0 (EntitySequence.Listed 0),
           [CallOnSignal idx "reset" data; CallTeardown idx; CallSetup 0 cfg])) /\
  (forall signal, signal <> "reset" ->
     EntitySequence.onSignal f signal data s
     = Ok (seq_state su ls rt cfg (Some f) (<[idx:=e_onSignal f signal data c]> cs)
             lp idx (EntitySequence.Listed idx),
           [CallOnSignal idx signal data])) /\
  (forall (s' : EntitySequence.t C) signal,
     truthy (Entity.requestedTransition s') = true ->
     EntitySequence.onSignal f signal data s' = Ok (s', [])).
Proof.
  intros (_ & _ & Hdg & _) Hc Hs Hrt. cbn zeta.
  assert (Hidx : idx < length cs) by now apply lookup_lt_Some in Hc.
  assert (Hsig : forall signal,
            EntitySequence.onSignal f signal data
              (seq_state su ls rt cfg lf cs lp idx (EntitySequence.Listed idx))
            = if String.eqb signal "reset" then
                '(s, tr') ← EntitySequence.restart
                              (seq_state su ls rt cfg (Some f)
                                 (<[idx:=e_onSignal f signal data c]> cs) lp idx
                                 (EntitySequence.Listed idx));
                Ok (s, [CallOnSignal idx signal data] ++ tr')
              else Ok (seq_state su ls rt cfg (Some f)
                         (<[idx:=e_onSignal f signal data c]> cs) lp idx
                         (EntitySequence.Listed idx),
                       [CallOnSignal idx signal data])).
  { intros signal. unfold EntitySequence.onSignal, seq_state.
    cbn [Entity.requestedTransition]. rewrite Hrt.
    cbn [Entity.onSignal Entity._onSignal Entity.no_hooks Entity.set_lastFrameInfo
         Entity.fields Entity.isSetup Entity.eventListeners
         Entity.requestedTransition Entity.entityConfig Entity.lastFrameInfo
         EntitySequence.get_current EntitySequence.currentEntity
         EntitySequence.entities].
    rewrite (lookup_concrete cs idx c Hc). cbn [mbind result_bind].
    cbn [EntitySequence.put_current EntitySequence.currentEntity
         EntitySequence.set_entities EntitySequence.entities
         EntitySequence.currentEntityIndex Entity.set_fields
         EntitySequence.loop EntitySequence.lastRequestedTransition
         Entity.isSetup Entity.eventListeners Entity.fields
         Entity.requestedTransition Entity.entityConfig Entity.lastFrameInfo].
    rewrite insert_concrete. reflexivity. }
  split; [|split].
  - rewrite Hsig. cbn [String.eqb Ascii.eqb Bool.eqb].
    assert (Hc1 : <[idx:=e_onSignal f "reset" data c]> cs !! idx
                  = Some (e_onSignal f "reset" data c))
      by now apply list_lookup_insert_eq.
    assert (Hs1 : e_isSetup (e_onSignal f "reset" data c) = true)
      by now rewrite Hdg.
    unfold EntitySequence.restart.
    rewrite (sequence_deactivate su ls rt cfg f _ lp idx _ Hc1 Hs1).
    rewrite list_insert_insert_eq. cbn [mbind result_bind].
    destruct (lookup_lt_is_Some_2
                (<[idx:=e_teardown f (e_onSignal f "reset" data c)]> cs) 0)
      as [c2 Hc2]; [rewrite length_insert; lia|].
    exists c2. split; [exact Hc2|].
    replace (Entity.set_requestedTransition _ _)
      with (seq_state su ls (VBool false) cfg (Some f)
              (<[idx:=e_teardown f (e_onSignal f "reset" data c)]> cs)
              lp 0 (EntitySequence.Listed idx)) by reflexivity.
    rewrite (sequence_activate su ls (VBool false) cfg f _ lp 0 _ c2 Hc2).
    reflexivity.
  - intros signal Hne. rewrite Hsig.
    destruct (String.eqb_spec signal "reset"); [contradiction|reflexivity].
  - intros s' signal Hs'. unfold EntitySequence.onSignal. now rewrite Hs'.
Qed.

(** [setup] of a sequence whose list is empty throws a [TypeError]:
    there is no first entity to set up. *)
Theorem sequence_empty_setup_throws f cfg (s : EntitySequence.t C) :
  EntitySequence.entities (Entity.fields s) = [] ->
  EntitySequence.setup f cfg s = Throw TypeError.
Proof.
  intros He. unfold EntitySequence.setup, EntitySequence._activateEntity.
  cbn [Entity.fields Entity.set_fields Entity.setup Entity._setup Entity.no_hooks
       Entity.set_requestedTransition Entity.set_isSetup Entity.set_lastFrameInfo
       Entity.set_entityConfig EntitySequence.set_index
       EntitySequence.set_currentEntityIndex EntitySequence.set_currentEntity
       EntitySequence.entities EntitySequence.currentEntityIndex].
  rewrite He. reflexivity.
Qed.

(** A sequence that does not loop and has completed keeps updating its
    last child: an [update] after the end calls [update] on that child,
    which is torn down, and neither sets up nor tears down any child.
    The transition of the sequence follows the child: it is replaced
    when the child asks for a transition after this update, and stays
    otherwise. *)
Theorem sequence_update_after_end su ls rt cfg lf f (cs : list C) idx c :
  disciplined ->
  S idx = length cs -> cs !! idx = Some c -> e_isSetup c = false ->
  EntitySequence.update f
    (seq_state su ls rt cfg lf cs false idx (EntitySequence.Listed idx))
  = Ok (seq_state su ls
          (if truthy (e_requestedTransition (e_update f c))
           then e_requestedTransition (e_update f c) else rt)
          cfg (Some f) (<[idx:=e_update f c]> cs) false idx
          (EntitySequence.Listed idx),
        [CallUpdate idx]).
Proof.
  intros (_ & Hdu & _ & _) Hlen Hc Hs.
  unfold EntitySequence.update, seq_state.
  cbn [Entity.update Entity._update Entity.no_hooks Entity.set_lastFrameInfo
       Entity.fields Entity.isSetup Entity.eventListeners
       Entity.requestedTransition Entity.entityConfig Entity.lastFrameInfo
       EntitySequence.lastRequestedTransition truthy
       EntitySequence.entities EntitySequence.currentEntityIndex].
  rewrite length_map.
  destruct (Nat.leb_spec (length cs) idx) as [Hle|_]; [lia|].
  cbn [EntitySequence.get_current EntitySequence.currentEntity
       EntitySequence.entities].
  rewrite (lookup_concrete cs idx c Hc). cbn [mbind result_bind].
  cbn [EntitySequence.put_current EntitySequence.currentEntity
       EntitySequence.set_entities EntitySequence.entities
       EntitySequence.currentEntityIndex Entity.set_fields
       EntitySequence.loop EntitySequence.lastRequestedTransition
       Entity.isSetup Entity.eventListeners
       Entity.requestedTransition Entity.entityConfig Entity.lastFrameInfo].
  match goal with
  | |- context [Entity.set_fields ?a ?b] =>
      replace (Entity.set_fields a b)
        with (seq_state su ls rt cfg (Some f) (<[idx:=e_update f c]> cs) false idx
                (EntitySequence.Listed idx))
        by (unfold seq_state; rewrite <- insert_concrete; reflexivity)
  end.
  destruct (truthy (e_requestedTransition (e_update f c))) eqn:Ert; [|reflexivity].
  unfold EntitySequence._advance.
  simpl (EntitySequence.currentEntityIndex _).
  simpl (EntitySequence.loop _).
  simpl (EntitySequence.entities _).
  rewrite length_map, length_insert.
  destruct (Nat.ltb_spec (S idx) (length cs)); [lia|].
  unfold EntitySequence._deactivateEntity, seq_state.
  cbn [Entity.fields EntitySequence.currentEntity EntitySequence.get_current
       EntitySequence.entities].
  rewrite (lookup_concrete (<[idx:=e_update f c]> cs) idx (e_update f c))
    by (apply list_lookup_insert_eq; lia).
  cbn [mbind result_bind]. rewrite Hdu, Hs. cbn [mbind result_bind app].
  reflexivity.
Qed.

(** [setup] of a sequence whose list is not empty starts at the first
    element, wherever the sequence was before.  An element that is a
    function is called with the sequence, and the entity it makes is
    set up and becomes the current entity without being stored in the
    list; an element that is an entity is set up in place.  No child is
    torn down. *)
Theorem sequence_setup_first f cfg (s : EntitySequence.t C) d :
  EntitySequence.entities (Entity.fields s) !! 0 = Some d ->
  let s0 :=
    Entity.set_fields
      (EntitySequence.set_currentEntity EntitySequence.NoEntity
         (EntitySequence.set_currentEntityIndex 0 (Entity.fields s)))
      (Entity.setup Entity.no_hooks f cfg s) in
  exists s',
    EntitySequence.setup f cfg s = Ok (s', [CallSetup 0 cfg]) /\
    EntitySequence.currentEntityIndex (Entity.fields s') = 0 /\
    EntitySequence.currentEntity (Entity.fields s')
      = match d with
        | EntitySequence.Factory make =>
            EntitySequence.Made (e_setup f cfg (make (EntitySequence.this_value s0)))
        | EntitySequence.Concrete _ => EntitySequence.Listed 0
        end /\
    EntitySequence.entities (Entity.fields s')
      = match d with
        | EntitySequence.Factory _ => EntitySequence.entities (Entity.fields s)
        | EntitySequence.Concrete c =>
            <[0:=EntitySequence.Concrete (e_setup f cfg c)]>
              (EntitySequence.entities (Entity.fields s))
        end /\
    Entity.isSetup s' = true /\
    Entity.requestedTransition s' = VNull.
Proof.
  destruct s as [su ls rt c0 lf [es lp idx cur lrt]].
  cbn [Entity.fields EntitySequence.entities]. intros Hd. cbn zeta.
  destruct es as [|d0 es]; [discriminate|].
  injection Hd as ->.
  destruct d as [c|make]; (eexists; split; [reflexivity|]); repeat split.
Qed.

End SequenceMoreFacts.

(** [waits_running] and [wait_ended] are states of runs. *)
Example waits_running_is_setup :
  EntitySequence.setup (frame 0) VNull
    (EntitySequence.new (map EntitySequence.Concrete three_waits) false)
  = Ok (waits_running, [CallSetup 0 VNull]) /\
  (EntitySequence.play (frame 0) VNull [frame 16]
     (EntitySequence.new
        [EntitySequence.Concrete (Leaf.new (Leaf.WaitingEntity 10))] false)
   = Ok (wait_ended, [CallSetup 0 VNull; CallUpdate 0; CallTeardown 0])).
Proof. split; reflexivity. Qed.

(** [sequence_skip] on [waits_running]: the first child is torn down
    and the second one is set up. *)
Lemma sequence_skip_witness :
  exists c2, three_waits_started !! 1 = Some c2 /\
    EntitySequence.skip waits_running
    = Ok (seq_state true [] VNull VNull (Some (frame 0))
            (<[1:=e_setup (frame 0) VNull c2]>
               (<[0:=e_teardown (frame 0) wait10_up]> three_waits_started))
            false 1 (EntitySequence.Listed 1),
          [CallTeardown 0; CallSetup 1 VNull]).
Proof.
  destruct (sequence_skip true [] VNull VNull (frame 0) three_waits_started
              false 0 wait10_up) as (Hnext & _);
    [reflexivity|reflexivity|reflexivity|].
  apply Hnext. vm_compute. lia.
Defined.

(** [sequence_onSignal] on [waits_running]: a signal other than "reset"
    goes to the first child and nothing else happens. *)
Lemma sequence_onSignal_witness :
  EntitySequence.onSignal (frame 16) "pause" VNull waits_running
  = Ok (seq_state true [] VNull VNull (Some (frame 16))
          (<[0:=e_onSignal (frame 16) "pause" VNull wait10_up]> three_waits_started)
          false 0 (EntitySequence.Listed 0),
        [CallOnSignal 0 "pause" VNull]).
Proof.
  destruct (sequence_onSignal true [] VNull VNull (Some (frame 0)) (frame 16)
              three_waits_started false 0 wait10_up VNull leaf_disciplined)
    as (_ & Hother & _); [reflexivity|reflexivity|reflexivity|].
  apply Hother. discriminate.
Defined.

(** [sequence_empty_setup_throws] on [new EntitySequence([])]. *)
Lemma sequence_empty_setup_throws_witness :
  EntitySequence.setup (frame 0) VNull (EntitySequence.new [] false)
  = (Throw TypeError : result (EntitySequence.t Leaf.t * EntitySequence.trace)).
Proof.
  apply (sequence_empty_setup_throws (frame 0) VNull (EntitySequence.new [] false)).
  reflexivity.
Defined.

(** [sequence_update_after_end] on [wait_ended] at 32 ms. *)
Lemma sequence_update_after_end_witness :
  EntitySequence.update (frame 32) wait_ended
  = Ok (seq_state true []
          (if truthy (e_requestedTransition (e_update (frame 32) wait10_down))
           then e_requestedTransition (e_update (frame 32) wait10_down)
           else VBool true)
          VNull (Some (frame 32)) (<[0:=e_update (frame 32) wait10_down]> [wait10_down])
          false 0 (EntitySequence.Listed 0),
        [CallUpdate 0]).
Proof.
  apply (sequence_update_after_end true [] (VBool true) VNull (Some (frame 16))
           (frame 32) [wait10_down] 0 wait10_down leaf_disciplined);
    reflexivity.
Defined.

(** [sequence_setup_first] on a sequence of one function that makes a
    [WaitingEntity] of 10 ms. *)
Lemma sequence_setup_first_witness :
  exists s',
    EntitySequence.setup (frame 0) VNull
      (EntitySequence.new
         [EntitySequence.Factory (fun _ => Leaf.new (Leaf.WaitingEntity 10))] true)
    = Ok (s', [CallSetup 0 VNull]) /\
    EntitySequence.currentEntity (Entity.fields s') = EntitySequence.Made wait10_up /\
    EntitySequence.entities (Entity.fields s')
      = [EntitySequence.Factory (fun _ => Leaf.new (Leaf.WaitingEntity 10))].
Proof.
  destruct (sequence_setup_first (frame 0) VNull
              (EntitySequence.new
                 [EntitySequence.Factory (fun _ => Leaf.new (Leaf.WaitingEntity 10))]
                 true)
              (EntitySequence.Factory (fun _ => Leaf.new (Leaf.WaitingEntity 10))))
    as (s' & Hrun & _ & Hcur & Hes & _); [reflexivity|].
  exists s'. split; [exact Hrun|]. split; [exact Hcur|exact Hes].
Defined.

(** ** StateMachine: jumps, errors and the end of a run *)

(** The fields of a machine that is written out. *)
Ltac machine_fields :=
  cbn [Entity.fields Entity.set_fields Entity.set_requestedTransition
       Entity.set_isSetup Entity.set_lastFrameInfo Entity.set_entityConfig
       Entity.set_eventListeners Entity.isSetup Entity.eventListeners
       Entity.requestedTransition Entity.entityConfig Entity.lastFrameInfo
       StateMachine.states StateMachine.transitions StateMachine.startingState
       StateMachine.startingStateParams StateMachine.startingProgress
       StateMachine.endingStates StateMachine.visitedStates StateMachine.progress
       StateMachine.state StateMachine.stateName StateMachine.stateParams
       StateMachine.set_states StateMachine.set_visitedStates
       StateMachine.set_progress StateMachine.set_state
       StateMachine.set_stateName StateMachine.put_state StateMachine.get_state
       StateMachine.push_visited the_frame mbind result_bind] in *.

Section MachineMoreFacts.
Context {C : Type} `{EntityLike C}.

(** When the table has no entry for the current state, neither its own
    nor one that it inherits, a transition whose name is the name of a
    state leads to that state directly.  The child of the current state
    is updated and then torn down, the child of the next state is set
    up with the configuration of the machine, "stateChange" is emitted,
    and the name is appended to [visitedStates].  The parameters of the
    next state are [requestedTransition.params], which a string does
    not have: they are [undefined]. *)
Theorem machine_direct_jump f (sm : StateMachine.t C) cur c nxt c2 vs :
  StateMachine.state (Entity.fields sm) = StateMachine.Named cur ->
  StateMachine.stateName (Entity.fields sm) = VString cur ->
  StateMachine.states (Entity.fields sm) !! cur = Some (StateMachine.Concrete c) ->
  StateMachine.transitions (Entity.fields sm) !! cur = None ->
  cur ∉ inherited_keys ->
  e_requestedTransition (e_update f c) = VString nxt ->
  nxt <> "" -> nxt <> cur ->
  StateMachine.states (Entity.fields sm) !! nxt = Some (StateMachine.Concrete c2) ->
  nxt ∉ StateMachine.endingStates (Entity.fields sm) ->
  StateMachine.visitedStates (Entity.fields sm) = Some vs ->
  exists sm',
    StateMachine.update f sm
    = Ok (sm',
          [StateMachine.ChildCall (CallUpdate (VString cur));
           StateMachine.ChildCall (CallTeardown (VString cur));
           StateMachine.ChildCall (CallSetup (VString nxt) (Entity.entityConfig sm));
           StateMachine.Emit "stateChange"
             [VString nxt; VUndefined; VString cur;
              StateMachine.stateParams (Entity.fields sm)]]) /\
    StateMachine.state (Entity.fields sm') = StateMachine.Named nxt /\
    StateMachine.stateName (Entity.fields sm') = VString nxt /\
    StateMachine.stateParams (Entity.fields sm') = VUndefined /\
    StateMachine.visitedStates (Entity.fields sm') = Some (vs ++ [nxt]) /\
    StateMachine.states (Entity.fields sm') !! cur
      = Some (StateMachine.Concrete (e_teardown f (e_update f c))) /\
    StateMachine.states (Entity.fields sm') !! nxt
      = Some (StateMachine.Concrete (e_setup f (Entity.entityConfig sm) c2)) /\
    Entity.requestedTransition sm' = Entity.requestedTransition sm.
Proof.
  destruct sm as [su ls rt cfg lf [sts trs ss ssp sprog es vis prog st sn snp]].
  machine_fields. intros -> -> Hcur Htrans _ Hrt Hne Hnc Hnxt Hend ->.
  unfold StateMachine.update.
  cbn [Entity.update Entity._update Entity.no_hooks].
  machine_fields. rewrite Hcur. machine_fields.
  rewrite Hrt. cbn [truthy].
  destruct (String.eqb_spec nxt ""); [contradiction|]. cbn [negb].
  unfold StateMachine.unpack_transition. cbn [typeof mbind result_bind].
  unfold StateMachine.resolve, StateMachine.stateName_key.
  machine_fields. cbn [to_key]. rewrite Htrans.
  rewrite bool_decide_eq_true_2
    by (rewrite lookup_insert_ne by congruence; rewrite Hnxt; eauto).
  machine_fields.
  unfold StateMachine.unpack_state. cbn [typeof get_prop to_key mbind result_bind].
  unfold StateMachine._changeState, StateMachine.is_ending. machine_fields.
  rewrite (bool_decide_eq_false_2 _ Hend).
  rewrite lookup_insert_eq. machine_fields.
  rewrite lookup_insert_ne by congruence.
  rewrite lookup_insert_ne by congruence.
  rewrite Hnxt. machine_fields.
  rewrite lookup_insert_ne by congruence.
  rewrite lookup_insert_ne by congruence.
  rewrite Hnxt. machine_fields.
  eexists. split; [reflexivity|]. machine_fields.
  repeat split.
  - rewrite lookup_insert_ne by congruence. now rewrite lookup_insert_eq.
  - now rewrite lookup_insert_eq.
Qed.


(** When the entry of the table for the current state is a string,
    every transition that the child asks for leads to the state of that
    name, whatever the name of the transition is; the parameters of the
    next state are those of the requested transition. *)
Theorem machine_string_entry f (sm : StateMachine.t C) cur c target :
  StateMachine.state (Entity.fields sm) = StateMachine.Named cur ->
  StateMachine.stateName (Entity.fields sm) = VString cur ->
  StateMachine.states (Entity.fields sm) !! cur = Some (StateMachine.Concrete c) ->
  truthy (e_requestedTransition (e_update f c)) = true ->
  StateMachine.transitions (Entity.fields sm) !! cur
    = Some (StateMachine.Descriptor (VString target)) ->
  let sm0 := Entity.update Entity.no_hooks f sm in
  let sm1 := Entity.set_fields
               (StateMachine.put_state (e_update f c) (Entity.fields sm0)) sm0 in
  exists params,
    get_prop "params" (e_requestedTransition (e_update f c)) = Ok params /\
    StateMachine.update f sm
    = ('(sm2, tr) ← StateMachine._changeState target params sm1;
       Ok (sm2, StateMachine.ChildCall (CallUpdate (VString cur)) :: tr)).
Proof.
  destruct sm as [su ls rt cfg lf [sts trs ss ssp sprog es vis prog st sn snp]].
  machine_fields. intros -> -> Hcur Hrt Htrans. cbn zeta.
  cbn [Entity.update Entity._update Entity.no_hooks]. machine_fields.
  assert (Hparams : exists params,
            get_prop "params" (e_requestedTransition (e_update f c)) = Ok params).
  { destruct (e_requestedTransition (e_update f c)); try discriminate; cbn; eauto. }
  destruct Hparams as [params Hparams]. exists params. split; [exact Hparams|].
  assert (Hunpack : exists name params',
            StateMachine.unpack_transition (e_requestedTransition (e_update f c))
            = Ok (name, params')).
  { unfold StateMachine.unpack_transition.
    destruct (e_requestedTransition (e_update f c)); try discriminate; cbn; eauto. }
  destruct Hunpack as (name & params' & Hunpack).
  unfold StateMachine.update.
  cbn [Entity.update Entity._update Entity.no_hooks].
  machine_fields. rewrite Hcur. machine_fields.
  rewrite Hrt, Hunpack. machine_fields.
  unfold StateMachine.resolve, StateMachine.stateName_key.
  machine_fields. cbn [to_key]. rewrite Htrans. machine_fields.
  unfold StateMachine.unpack_state. cbn [typeof to_key]. rewrite Hparams.
  machine_fields.
  destruct (StateMachine._changeState _ _ _) as [[sm2 tr2]|e]; reflexivity.
Qed.

(** [teardown] of a machine that is in a state tears the child of that
    state down, once, and leaves the machine without a state: its
    [stateName] is [null].  An [update] or a second [teardown] that
    follows calls no child.  (A machine that has reached an ending
    state is still in the state before it: [teardown] is what tears that
    child down.) *)
Theorem machine_teardown_idle f (sm : StateMachine.t C) c :
  StateMachine.state (Entity.fields sm) <> StateMachine.NoState ->
  StateMachine.get_state (Entity.fields sm) = Ok c ->
  exists sm',
    StateMachine.teardown f sm
    = Ok (sm', [StateMachine.ChildCall
                  (CallTeardown (StateMachine.stateName (Entity.fields sm)))]) /\
    StateMachine.state (Entity.fields sm') = StateMachine.NoState /\
    StateMachine.stateName (Entity.fields sm') = VNull /\
    Entity.isSetup sm' = false /\
    (forall name, StateMachine.state (Entity.fields sm) = StateMachine.Named name ->
       StateMachine.states (Entity.fields sm') !! name
       = Some (StateMachine.Concrete (e_teardown f c))) /\
    (forall f', StateMachine.update f' sm'
                = Ok (Entity.update Entity.no_hooks f' sm', [])) /\
    (forall f', StateMachine.teardown f' sm'
                = Ok (Entity.teardown Entity.no_hooks f' sm', [])).
Proof.
  destruct sm as [su ls rt cfg lf [sts trs ss ssp sprog es vis prog st sn snp]].
  intros Hst Hget. unfold StateMachine.teardown.
  cbn [Entity.fields StateMachine.state StateMachine.stateName] in *.
  destruct st as [|name|e]; [contradiction| |].
  - rewrite Hget. cbn [mbind result_bind]. eexists. split; [reflexivity|].
    machine_fields. repeat split.
    intros name' [= <-]. apply lookup_insert_eq.
  - rewrite Hget. cbn [mbind result_bind]. eexists. split; [reflexivity|].
    machine_fields. repeat split. intros name' [=].
Qed.

(** [setup] of a machine that is in no state, by the starting state:
    - when it is one of the ending states, the machine asks for its
      transition at once; no state is entered and no child is called;
    - when it is neither an ending state nor a key of [states], be it
      its own or one that it inherits, [setup] throws an [Error]. *)
Theorem machine_setup_edges f cfg (sm : StateMachine.t C) :
  StateMachine.state (Entity.fields sm) = StateMachine.NoState ->
  let name := force (StateMachine.startingState (Entity.fields sm)) in
  (name ∈ StateMachine.endingStates (Entity.fields sm) ->
   exists sm',
     StateMachine.setup f cfg sm = Ok (sm', []) /\
     Entity.requestedTransition sm' = VString name /\
     Entity.isSetup sm' = true /\
     StateMachine.state (Entity.fields sm') = StateMachine.NoState /\
     StateMachine.stateName (Entity.fields sm') = StateMachine.stateName (Entity.fields sm) /\
     StateMachine.visitedStates (Entity.fields sm') = Some [name]) /\
  (name ∉ StateMachine.endingStates (Entity.fields sm) ->
   StateMachine.states (Entity.fields sm) !! name = None ->
   name ∉ inherited_keys ->
   StateMachine.setup f cfg sm
   = Throw (Error ("Cannot find state '" +:+ name +:+ "'"))).
Proof.
  destruct sm as [su ls rt c0 lf [sts trs ss ssp sprog es vis prog st sn snp]].
  machine_fields. intros ->. cbn zeta. split.
  - intros Hend. unfold StateMachine.setup.
    cbn [Entity.setup Entity._setup Entity.no_hooks]. machine_fields.
    unfold StateMachine._changeState, StateMachine.is_ending. machine_fields.
    rewrite (bool_decide_eq_true_2 _ Hend). machine_fields.
    eexists. split; [reflexivity|]. machine_fields. repeat split.
  - intros Hend Hno _. unfold StateMachine.setup.
    cbn [Entity.setup Entity._setup Entity.no_hooks]. machine_fields.
    unfold StateMachine._changeState, StateMachine.is_ending. machine_fields.
    rewrite (bool_decide_eq_false_2 _ Hend). machine_fields.
    rewrite Hno. reflexivity.
Qed.

(** [setup] of a machine that is in no state, when the starting state
    is a state of the machine and not an ending state: the machine
    enters it.  A state that is a function is called with the starting
    parameters and the machine, and the entity it makes is set up but
    not stored in [states]; a state that is an entity is set up in
    place.  The child receives the configuration of the machine;
    "stateChange" is emitted with the name and the parameters that the
    machine held before; [visitedStates] holds the starting state and
    [progress] is the starting progress. *)
Theorem machine_setup_enters_start f cfg (sm : StateMachine.t C) d :
  StateMachine.state (Entity.fields sm) = StateMachine.NoState ->
  let fs := Entity.fields sm in
  let name := force (StateMachine.startingState fs) in
  let params := force (StateMachine.startingStateParams fs) in
  let sm0 := Entity.set_fields
               (StateMachine.set_progress (StateMachine.startingProgress fs)
                  (StateMachine.set_visitedStates (Some []) fs))
               (Entity.setup Entity.no_hooks f cfg sm) in
  name ∉ StateMachine.endingStates fs ->
  StateMachine.states fs !! name = Some d ->
  exists sm',
    StateMachine.setup f cfg sm
    = Ok (sm',
          match d with
          | StateMachine.Factory _ =>
              [StateMachine.FactoryCall name params (StateMachine.this_value sm0)]
          | StateMachine.Concrete _ => []
          end
          ++ [StateMachine.ChildCall (CallSetup (VString name) cfg);
              StateMachine.Emit "stateChange"
                [VString name; params; StateMachine.stateName fs;
                 StateMachine.stateParams fs]]) /\
    StateMachine.state (Entity.fields sm')
      = match d with
        | StateMachine.Factory make =>
            StateMachine.Made
              (e_setup f cfg (make params (StateMachine.this_value sm0)))
        | StateMachine.Concrete _ => StateMachine.Named name
        end /\
    StateMachine.states (Entity.fields sm')
      = match d with
        | StateMachine.Factory _ => StateMachine.states fs
        | StateMachine.Concrete c =>
            <[name:=StateMachine.Concrete (e_setup f cfg c)]> (StateMachine.states fs)
        end /\
    StateMachine.stateName (Entity.fields sm') = VString name /\
    StateMachine.stateParams (Entity.fields sm') = params /\
    StateMachine.visitedStates (Entity.fields sm') = Some [name] /\
    StateMachine.progress (Entity.fields sm') = StateMachine.startingProgress fs /\
    Entity.requestedTransition sm' = VNull /\
    Entity.isSetup sm' = true.
Proof.
  destruct sm as [su ls rt c0 lf [sts trs ss ssp sprog es vis prog st sn snp]].
  machine_fields. intros ->. cbn zeta. machine_fields. intros Hend Hd.
  unfold StateMachine.setup.
  cbn [Entity.setup Entity._setup Entity.no_hooks]. machine_fields.
  unfold StateMachine._changeState, StateMachine.is_ending. machine_fields.
  rewrite (bool_decide_eq_false_2 _ Hend). machine_fields.
  rewrite Hd. destruct d as [c|make]; machine_fields.
  - rewrite Hd. machine_fields. eexists. split; [reflexivity|].
    machine_fields. repeat split.
  - eexists. split; [reflexivity|]. machine_fields. repeat split.
Qed.

End MachineMoreFacts.

(** [machine_direct_jump] on [machine_direct] at 16 ms. *)
Lemma machine_direct_jump_witness :
  exists sm',
    StateMachine.update (frame 16) (started machine_direct)
    = Ok (sm',
          [StateMachine.ChildCall (CallUpdate (VString "start"));
           StateMachine.ChildCall (CallTeardown (VString "start"));
           StateMachine.ChildCall (CallSetup (VString "middle") VNull);
           StateMachine.Emit "stateChange"
             [VString "middle"; VUndefined; VString "start"; VObject []]]) /\
    StateMachine.stateName (Entity.fields sm') = VString "middle" /\
    StateMachine.visitedStates (Entity.fields sm') = Some ["start"; "middle"].
Proof.
  destruct (machine_direct_jump (frame 16) (started machine_direct) "start"
              (transitory_up "middle") "middle" (Leaf.new Leaf.NullEntity) ["start"])
    as (sm' & Hrun & _ & Hname & _ & Hvis & _);
    [vm_compute; reflexivity|vm_compute; reflexivity|vm_compute; reflexivity
    |vm_compute; reflexivity
    |apply (bool_decide_unpack _); vm_compute; exact I
    |vm_compute; reflexivity|discriminate|discriminate
    |vm_compute; reflexivity
    |intros Hin%list_elem_of_singleton; discriminate
    |vm_compute; reflexivity|].
  exists sm'. split; [exact Hrun|]. split; [exact Hname|exact Hvis].
Defined.


(** [machine_string_entry] on [machine_plain] at 16 ms: the transition
    "anything" leads to "middle". *)
Lemma machine_string_entry_witness :
  exists params,
    get_prop "params" (e_requestedTransition (e_update (frame 16) (transitory_up "anything")))
      = Ok params /\
    StateMachine.update (frame 16) (started machine_plain)
    = ('(sm2, tr) ←
         StateMachine._changeState "middle" params
           (Entity.set_fields
              (StateMachine.put_state (e_update (frame 16) (transitory_up "anything"))
                 (Entity.fields
                    (Entity.update Entity.no_hooks (frame 16) (started machine_plain))))
              (Entity.update Entity.no_hooks (frame 16) (started machine_plain)));
       Ok (sm2, StateMachine.ChildCall (CallUpdate (VString "start")) :: tr)).
Proof.
  apply (machine_string_entry (frame 16) (started machine_plain) "start"
           (transitory_up "anything") "middle"); vm_compute; reflexivity.
Defined.

(** The update of the witness goes to "middle". *)
Example machine_plain_goes_to_middle :
  ('(sm, _) ← StateMachine.update (frame 16) (started machine_plain);
   Ok (StateMachine.stateName (Entity.fields sm)))
  = Ok (VString "middle").
Proof. vm_compute. reflexivity. Qed.

(** [machine_teardown_idle] on [machine_ctx_ready]. *)
Lemma machine_teardown_idle_witness :
  exists sm',
    StateMachine.teardown (frame 16) machine_ctx_ready
    = Ok (sm', [StateMachine.ChildCall (CallTeardown (VString "start"))]) /\
    StateMachine.state (Entity.fields sm') = StateMachine.NoState /\
    (forall f', StateMachine.update f' sm'
                = Ok (Entity.update Entity.no_hooks f' sm', [])).
Proof.
  destruct (machine_teardown_idle (frame 16) machine_ctx_ready (transitory_up "win"))
    as (sm' & Hrun & Hstate & _ & _ & _ & Hupd & _);
    [vm_compute; discriminate|vm_compute; reflexivity|].
  exists sm'. split; [exact Hrun|]. split; [exact Hstate|exact Hupd].
Defined.

(** [machine_setup_edges] on a machine without states: "start" is not
    a state. *)
Lemma machine_setup_edges_witness :
  StateMachine.setup (frame 0) VNull
    (StateMachine.new ∅ ∅ StateMachine.default_options)
  = (Throw (Error "Cannot find state 'start'")
     : result (StateMachine.t Leaf.t * StateMachine.trace)).
Proof.
  destruct (machine_setup_edges (frame 0) VNull
              (StateMachine.new (C:=Leaf.t) ∅ ∅ StateMachine.default_options))
    as (_ & Hlost); [reflexivity|].
  apply Hlost;
    [|reflexivity|apply (bool_decide_unpack _); vm_compute; exact I].
  intros Hin%list_elem_of_singleton. discriminate.
Defined.

(** [machine_setup_enters_start] on [machine_made]: the function of
    the state "start" receives the starting parameters. *)
Lemma machine_setup_enters_start_witness :
  exists sm',
    StateMachine.setup (frame 0) VNull machine_made
    = Ok (sm',
          [StateMachine.FactoryCall "start" (VString "end")
             (StateMachine.this_value
                (Entity.set_fields
                   (StateMachine.set_progress (VObject [])
                      (StateMachine.set_visitedStates (Some [])
                         (Entity.fields machine_made)))
                   (Entity.setup Entity.no_hooks (frame 0) VNull machine_made)));
           StateMachine.ChildCall (CallSetup (VString "start") VNull);
           StateMachine.Emit "stateChange"
             [VString "start"; VString "end"; VUndefined; VUndefined]]) /\
    StateMachine.state (Entity.fields sm')
      = StateMachine.Made
          (e_setup (frame 0) VNull (Leaf.new (Leaf.TransitoryEntity (VString "end")))) /\
    StateMachine.visitedStates (Entity.fields sm') = Some ["start"].
Proof.
  destruct (machine_setup_enters_start (frame 0) VNull machine_made
              (StateMachine.Factory
                 (fun params machine => Leaf.new (Leaf.TransitoryEntity params))))
    as (sm' & Hrun & Hstate & _ & _ & _ & Hvis & _);
    [reflexivity
    |intros Hin%list_elem_of_singleton; discriminate
    |vm_compute; reflexivity|].
  exists sm'. split; [exact Hrun|]. split; [exact Hstate|exact Hvis].
Defined.

(** ** ParallelEntity: the constructor *)

Section ParallelNewFacts.
Context {C : Type} `{EntityLike C}.

Lemma parallel_new_loop (entries : list (ParallelEntity.entry C)) :
  forall ls rt c0 lf es cfgs act auto,
    foldl (fun r en => p ← r; '(p, _) ← ParallelEntity.add_entry en p; Ok p)
      (Ok (Entity.mk false ls rt c0 lf
             {| ParallelEntity.entities := es;
                ParallelEntity.entityConfigs := cfgs;
                ParallelEntity.entityIsActive := act;
                ParallelEntity.autoTransition := auto |}))
      entries
    = Ok (Entity.mk false ls rt c0 lf
            {| ParallelEntity.entities := es ++ map entry_entity entries;
               ParallelEntity.entityConfigs := cfgs ++ map entry_config entries;
               ParallelEntity.entityIsActive :=
                 act ++ replicate (length entries) true;
               ParallelEntity.autoTransition := auto |}).
Proof.
  induction entries as [|en entries IH]; intros ls rt c0 lf es cfgs act auto.
  - cbn [foldl map length replicate]. now rewrite !app_nil_r.
  - cbn [foldl map length replicate mbind result_bind].
    assert (Hadd : ParallelEntity.add_entry en
                     (Entity.mk false ls rt c0 lf
                        {| ParallelEntity.entities := es;
                           ParallelEntity.entityConfigs := cfgs;
                           ParallelEntity.entityIsActive := act;
                           ParallelEntity.autoTransition := auto |})
                   = Ok (Entity.mk false ls rt c0 lf
                           {| ParallelEntity.entities := es ++ [entry_entity en];
                              ParallelEntity.entityConfigs := cfgs ++ [entry_config en];
                              ParallelEntity.entityIsActive := act ++ [true];
                              ParallelEntity.autoTransition := auto |}, [])).
    { destruct en; reflexivity. }
    rewrite Hadd. cbn [mbind result_bind]. rewrite IH.
    now rewrite <- !app_assoc.
Qed.

(** The constructor of a [ParallelEntity] returns and calls no child.
    It lists the entities of its array in their order, each with its
    configuration ([null] for a bare entity) and marked active.  When
    no element of the array holds [null] for its entity, the three
    arrays are aligned, and every [setup] of the new object returns and
    leaves it ready for the other methods. *)
Theorem parallel_new_ready (entries : list (ParallelEntity.entry C)) auto :
  Forall (fun en => entry_entity en <> None) entries ->
  exists p,
    ParallelEntity.new entries auto = Ok p /\
    Entity.isSetup p = false /\
    ParallelEntity.entities (Entity.fields p) = map entry_entity entries /\
    ParallelEntity.entityConfigs (Entity.fields p) = map entry_config entries /\
    ParallelEntity.entityIsActive (Entity.fields p)
      = replicate (length entries) true /\
    well_formed p /\
    forall f cfg, exists p' tr,
      ParallelEntity.setup f cfg p = Ok (p', tr) /\ ready p'.
Proof.
  intros Hent. unfold ParallelEntity.new, Entity.new.
  rewrite parallel_new_loop. cbn [app]. eexists. split; [reflexivity|].
  cbn [Entity.isSetup Entity.fields ParallelEntity.entities
       ParallelEntity.entityConfigs ParallelEntity.entityIsActive].
  assert (Hnn : no_null (map entry_entity entries) = true).
  { induction Hent as [|en entries Hen _ IH]; [reflexivity|].
    cbn [map no_null forallb] in *. destruct (entry_entity en); [exact IH|congruence]. }
  assert (Hlen : length (map entry_entity entries)
                 = length (replicate (length entries) true))
    by now rewrite length_map, length_replicate.
  split; [reflexivity|]. split; [reflexivity|]. split; [reflexivity|].
  split; [reflexivity|]. split.
  - unfold well_formed.
    cbn [Entity.fields ParallelEntity.entities ParallelEntity.entityConfigs
         ParallelEntity.entityIsActive].
    rewrite !length_map, length_replicate. now repeat split.
  - intros f cfg.
    rewrite (parallel_setup_eq f cfg false [] VUndefined VUndefined None
               _ _ _ auto Hlen Hnn).
    eexists _, _. split; [reflexivity|]. unfold ready, well_formed.
    cbn [Entity.fields Entity.lastFrameInfo ParallelEntity.entities
         ParallelEntity.entityConfigs ParallelEntity.entityIsActive].
    destruct (walk_length (setup_step f cfg (map entry_config entries))
                (map entry_entity entries) 0 (replicate (length entries) true))
      as [-> ->].
    rewrite !length_map, length_replicate.
    split; [split; [now apply walk_no_null|split; reflexivity]|discriminate].
Qed.

End ParallelNewFacts.

(** [parallel_new_ready] on [three_children]. *)
Lemma parallel_new_ready_witness :
  exists p,
    ParallelEntity.new three_children true = Ok p /\
    Entity.isSetup p = false /\
    ParallelEntity.entityIsActive (Entity.fields p) = [true; true; true] /\
    exists p' tr, ParallelEntity.setup (frame 0) VNull p = Ok (p', tr) /\ ready p'.
Proof.
  destruct (parallel_new_ready three_children true)
    as (p & Hnew & Hsu & _ & _ & Hact & _ & Hsetup).
  - repeat constructor; discriminate.
  - exists p. split; [exact Hnew|]. split; [exact Hsu|]. split; [exact Hact|].
    apply Hsetup.
Defined.

(** ** ParallelEntity: no child is left set up *)

Section ParallelTidyFacts.
Context {C : Type} `{EntityLike C}.

Lemma walk_flags step (es : list (option C)) act (pre : C -> bool -> Prop) :
  no_null es = true -> length es = length act ->
  (forall i c a, pre c a -> e_isSetup (step i c a).1.1 = (step i c a).1.2) ->
  (forall i c a, es !! i = Some (Some c) -> act !! i = Some a -> pre c a) ->
  flags_match (walk step 0 es act).1.1 (walk step 0 es act).1.2.
Proof.
  intros Hnn Hlen Hstep Hpre i c' a' Hc' Ha'.
  destruct (walk_length step es 0 act) as [Hl1 Hl2].
  assert (Hi : i < length es) by (apply lookup_lt_Some in Hc'; lia).
  destruct (no_null_lookup es i Hnn Hi) as [c Hc].
  destruct (lookup_lt_is_Some_2 act i) as [a Ha]; [lia|].
  destruct (walk_lookup step es 0 act i c a Hnn Hc Ha) as [H1 H2].
  rewrite H1 in Hc'. rewrite H2 in Ha'.
  injection Hc' as <-. injection Ha' as <-.
  apply Hstep. now apply (Hpre i).
Qed.

Lemma pass_flags f (es : list (option C)) act :
  disciplined -> flags_match es act -> length es = length act ->
  flags_match (pass_children f es act).1 (pass_children f es act).2.
Proof.
  intros (_ & Hdu & _ & Hdt) Hfm Hlen i c' a' Hc' Ha'.
  destruct (pass_children_length f es act) as [Hl1 Hl2].
  assert (Hi : i < length es) by (apply lookup_lt_Some in Hc'; lia).
  destruct (lookup_lt_is_Some_2 es i Hi) as [e He].
  destruct (lookup_lt_is_Some_2 act i) as [a Ha]; [lia|].
  destruct e as [c|].
  - pose proof (pass_children_lookup f es act i c a He Ha) as Hlk.
    pose proof (Hfm i c a He Ha) as Hca.
    destruct a.
    + destruct (truthy (e_requestedTransition (e_update f c)));
        destruct Hlk as [H1 H2]; rewrite H1 in Hc'; rewrite H2 in Ha';
        injection Hc' as <-; injection Ha' as <-; [apply Hdt|].
      now rewrite Hdu.
    + destruct Hlk as [H1 H2]. rewrite H1 in Hc'. rewrite H2 in Ha'.
      injection Hc' as <-. injection Ha' as <-. exact Hca.
  - exfalso. clear - He Hc'. revert i act He Hc'.
    induction es as [|e es IH]; intros i act He Hc'; [discriminate|].
    destruct act as [|a act].
    + destruct e; cbn [pass_children fst] in Hc'; congruence.
    + destruct i as [|i].
      * injection He as ->. cbn [pass_children] in Hc'.
        destruct (pass_children f es act). discriminate.
      * cbn [lookup list_lookup] in He.
        assert (Hc2 : (pass_children f es act).1 !! i = Some (Some c')).
        { cbn [pass_children] in Hc'.
          destruct (pass_children f es act) as [es' act'].
          destruct e as [c0|], a; try exact Hc'.
          destruct (truthy _); exact Hc'. }
        exact (IH i act He Hc2).
Qed.

Lemma flags_match_delete (es : list (option C)) act i :
  flags_match es act -> flags_match (delete i es) (delete i act).
Proof.
  intros Hfm k c a Hc Ha.
  destruct (decide (k < i)).
  - rewrite list_lookup_delete_lt in Hc by assumption.
    rewrite list_lookup_delete_lt in Ha by assumption. now apply (Hfm k).
  - rewrite list_lookup_delete_ge in Hc by lia.
    rewrite list_lookup_delete_ge in Ha by lia. now apply (Hfm (S k)).
Qed.

Lemma flags_match_snoc (es : list (option C)) act c :
  length es = length act -> flags_match es act -> e_isSetup c = true ->
  flags_match (es ++ [Some c]) (act ++ [true]).
Proof.
  intros Hlen Hfm Hc k c' a Hc' Ha.
  apply lookup_app_Some in Hc' as [Hc'|[Hge Hc']].
  - assert (Hk : k < length act) by (apply lookup_lt_Some in Hc'; lia).
    rewrite lookup_app_l in Ha by exact Hk. now apply (Hfm k).
  - rewrite lookup_app_r in Ha by lia.
    apply list_lookup_singleton_Some in Hc' as [Hk [= <-]].
    rewrite <- Hlen, Hk in Ha. now injection Ha as <-.
Qed.

Lemma parallel_step_tidy (o : ParallelEntity.op C) (p : ParallelEntity.t C) :
  disciplined -> stays_up o = true -> tidy p ->
  (exists p' tr, ParallelEntity.step o p = Ok (p', tr) /\ tidy p') \/
  ParallelEntity.step o p = Throw (Error "Cannot find entity to remove").
Proof.
  intros Hd Ho. pose proof Hd as (Hds & Hdu & Hdg & Hdt).
  destruct p as [su ls rt c0 lf [es cfgs act auto]].
  unfold tidy, ready, well_formed.
  cbn [Entity.fields Entity.lastFrameInfo Entity.isSetup ParallelEntity.entities
       ParallelEntity.entityConfigs ParallelEntity.entityIsActive].
  intros ([(Hnn & Hc & Ha) Hlf] & -> & Hfm).
  assert (Hlen : length es = length act) by lia.
  destruct lf as [f0|]; [|contradiction].
  destruct o as [f cfg|f|f sg d|f|e cfg|r|]; try discriminate;
    cbn [ParallelEntity.step].
  - left. rewrite (parallel_setup_eq f cfg true ls rt c0 (Some f0) es cfgs act auto Hlen Hnn).
    eexists _, _. split; [reflexivity|].
    unfold tidy, ready, well_formed.
    cbn [Entity.fields Entity.lastFrameInfo Entity.isSetup ParallelEntity.entities
         ParallelEntity.entityConfigs ParallelEntity.entityIsActive].
    destruct (walk_length (setup_step f cfg cfgs) es 0 act) as [Hl1 Hl2].
    split; [split; [split; [now apply walk_no_null|split; lia]|discriminate]|].
    split; [reflexivity|].
    apply (walk_flags _ es act (fun _ _ => True) Hnn Hlen); [|trivial].
    intros i c a _. unfold setup_step.
    destruct (e_isSetup c) eqn:E; cbn [fst snd]; [exact E|apply Hds].
  - left. rewrite (parallel_update_eq f true ls rt c0 (Some f0) es cfgs act auto Hlen Hnn).
    eexists _, _. split; [reflexivity|].
    unfold tidy, ready, well_formed.
    cbn [Entity.fields Entity.lastFrameInfo Entity.isSetup ParallelEntity.entities
         ParallelEntity.entityConfigs ParallelEntity.entityIsActive].
    destruct (pass_children_length f es act) as [Hl1 Hl2].
    split; [split; [split; [now apply pass_children_no_null|split; lia]|discriminate]|].
    split; [reflexivity|now apply pass_flags].
  - left. rewrite (parallel_onSignal_eq f sg d true ls rt c0 (Some f0) es cfgs act auto Hlen Hnn).
    eexists _, _. split; [reflexivity|].
    unfold tidy, ready, well_formed.
    cbn [Entity.fields Entity.lastFrameInfo Entity.isSetup ParallelEntity.entities
         ParallelEntity.entityConfigs ParallelEntity.entityIsActive].
    destruct (walk_length (signal_step f sg d) es 0 act) as [Hl1 Hl2].
    split; [split; [split; [now apply walk_no_null|split; lia]|discriminate]|].
    split; [reflexivity|].
    apply (walk_flags _ es act (fun c a => e_isSetup c = a) Hnn Hlen);
      [|exact Hfm].
    intros i c a Hca. unfold signal_step.
    destruct a; cbn [fst snd]; [now rewrite Hdg|exact Hca].
  - left. unfold ParallelEntity.addEntity.
    cbn [Entity.fields Entity.set_fields Entity.isSetup Entity.lastFrameInfo
         Entity.entityConfig Entity.eventListeners Entity.requestedTransition
         ParallelEntity.entities ParallelEntity.entityConfigs
         ParallelEntity.entityIsActive ParallelEntity.autoTransition].
    assert (Hwf : no_null (es ++ [Some e]) = true)
      by (rewrite no_null_app, Hnn; reflexivity).
    destruct (e_isSetup e) eqn:Ee; cbn [negb];
      (eexists _, _; split; [reflexivity|]);
      unfold tidy, ready, well_formed; entity_fields;
      rewrite ?length_insert, ?length_app; cbn [length].
    + split; [split; [split; [exact Hwf|split; lia]|discriminate]|].
      split; [reflexivity|now apply flags_match_snoc].
    + split; [split; [split; [now apply no_null_insert|split; lia]|discriminate]|].
      split; [reflexivity|].
      replace (<[length es:=Some (e_setup f0 (processEntityConfig c0 cfg) e)]>
                 (es ++ [Some e]))
        with (es ++ [Some (e_setup f0 (processEntityConfig c0 cfg) e)]).
      * apply flags_match_snoc; [exact Hlen|exact Hfm|apply Hds].
      * replace (length es) with (length es + 0) by lia.
        now rewrite insert_app_r.
  - unfold ParallelEntity.removeEntity.
    destruct (ParallelEntity.indexOf r _) as [index|] eqn:Eidx; [|now right].
    left.
    assert (Hin : exists c, es !! index = Some (Some c)).
    { unfold ParallelEntity.indexOf in Eidx.
      cbn [Entity.fields ParallelEntity.entities] in Eidx.
      destruct r as [|i|]; [| |discriminate].
      - destruct (list_find _ es) as [[j x]|] eqn:Efind; [|discriminate].
        injection Eidx as <-. apply list_find_Some in Efind as (Hj & -> & _).
        destruct (no_null_lookup es j Hnn) as [c Hcj];
          [now apply lookup_lt_Some in Hj|congruence].
      - destruct (es !! i) as [[c|]|] eqn:Ei; try discriminate.
        injection Eidx as <-. now exists c. }
    destruct Hin as [c Hidx].
    unfold ParallelEntity.entity_at.
    cbn [Entity.fields ParallelEntity.entities Entity.lastFrameInfo]. rewrite Hidx.
    cbn [mbind result_bind].
    assert (Hi : index < length es) by now apply lookup_lt_Some in Hidx.
    destruct (e_isSetup c); cbn [the_frame mbind result_bind];
      (eexists _, _; split; [reflexivity|]);
      unfold tidy, ready, well_formed; entity_fields;
      rewrite !length_delete by (apply lookup_lt_is_Some; lia);
      (split; [split; [split; [now apply no_null_delete|split; lia]|discriminate]|]);
      (split; [reflexivity|now apply flags_match_delete]).
  - left. unfold ParallelEntity.removeAllEntities.
    cbn [Entity.fields Entity.lastFrameInfo ParallelEntity.entities].
    destruct (removeAll_loop_ok f0 es 0 Hnn) as [tr ->].
    cbn [mbind result_bind].
    destruct es; (eexists _, _; split; [reflexivity|]);
      unfold tidy, ready, well_formed; entity_fields; cbn [length];
      (split; [split; [split; [assumption || reflexivity
                              |split; assumption || reflexivity]|discriminate]|]);
      (split; [reflexivity|]); [exact Hfm|].
    intros i c a Hc'. discriminate.
Qed.

Lemma parallel_run_tidy (os : list (ParallelEntity.op C)) :
  disciplined ->
  forall p : ParallelEntity.t C,
    forallb stays_up os = true -> tidy p ->
    (exists p' tr, ParallelEntity.run os p = Ok (p', tr) /\ tidy p') \/
    ParallelEntity.run os p = Throw (Error "Cannot find entity to remove").
Proof.
  intros Hd. induction os as [|o os IH]; intros p Hos Hp.
  - left. now exists p, [].
  - cbn [forallb] in Hos. apply andb_prop in Hos as [Ho Hos].
    cbn [ParallelEntity.run].
    destruct (parallel_step_tidy o p Hd Ho Hp) as [(p1 & tr1 & Hstep & Hp1)|Hstep];
      rewrite Hstep; [|now right].
    cbn [mbind result_bind].
    destruct (IH p1 Hos Hp1) as [(p2 & tr2 & Hrun & Hp2)|Hrun]; rewrite Hrun;
      [|now right].
    left. now exists p2, (tr1 ++ tr2).
Qed.

Lemma run_app (os os' : list (ParallelEntity.op C)) (p : ParallelEntity.t C) :
  ParallelEntity.run (os ++ os') p
  = ('(p1, tr) ← ParallelEntity.run os p;
     '(p2, tr') ← ParallelEntity.run os' p1;
     Ok (p2, tr ++ tr')).
Proof.
  revert p. induction os as [|o os IH]; intros p.
  - cbn [app ParallelEntity.run mbind result_bind].
    destruct (ParallelEntity.run os' p) as [[p2 tr']|e]; reflexivity.
  - cbn [app ParallelEntity.run].
    destruct (ParallelEntity.step o p) as [[p1 tr1]|e]; [|reflexivity].
    cbn [mbind result_bind]. rewrite IH.
    destruct (ParallelEntity.run os p1) as [[p2 tr2]|e]; [|reflexivity].
    cbn [mbind result_bind].
    destruct (ParallelEntity.run os' p2) as [[p3 tr3]|e]; [|reflexivity].
    cbn [mbind result_bind]. now rewrite app_assoc.
Qed.

(** A [ParallelEntity] leaves no child set up.  The arrays are aligned
    and hold no [null], the children keep the contract of the base class
    on [isSetup]; [setup] is called, then any calls of [setup],
    [update], [onSignal], [addEntity], [removeEntity] and
    [removeAllEntities], then [teardown].  Unless a [removeEntity] of an
    entity that is not in the list has ended the run, the calls return
    and, when [teardown] has returned, the parent is not set up, no
    child of the list is set up and no flag is raised: between [setup]
    and [teardown] a child was set up exactly when its flag was raised. *)
Theorem parallel_children_released f cfg (os : list (ParallelEntity.op C)) f'
    (p : ParallelEntity.t C) :
  disciplined -> well_formed p -> forallb stays_up os = true ->
  (exists p' tr,
     ParallelEntity.run
       (ParallelEntity.OpSetup f cfg :: os ++ [ParallelEntity.OpTeardown f']) p
       = Ok (p', tr) /\
     Entity.isSetup p' = false /\
     forall i c,
       ParallelEntity.entities (Entity.fields p') !! i = Some (Some c) ->
       e_isSetup c = false /\ ParallelEntity.active_at i (Entity.fields p') = false) \/
  ParallelEntity.run
    (ParallelEntity.OpSetup f cfg :: os ++ [ParallelEntity.OpTeardown f']) p
    = Throw (Error "Cannot find entity to remove").
Proof.
  intros Hd Hwf Hos. pose proof Hd as (Hds & Hdu & Hdg & Hdt).
  destruct p as [su ls rt c0 lf [es cfgs act auto]].
  unfold well_formed in Hwf.
  cbn [Entity.fields ParallelEntity.entities ParallelEntity.entityConfigs
       ParallelEntity.entityIsActive] in Hwf.
  destruct Hwf as (Hnn & Hc & Ha).
  assert (Hlen : length es = length act) by lia.
  cbn [ParallelEntity.run ParallelEntity.step].
  rewrite (parallel_setup_eq f cfg su ls rt c0 lf es cfgs act auto Hlen Hnn).
  cbn [mbind result_bind].
  match goal with
  | |- context [ParallelEntity.run _ ?q] => assert (Hq : tidy q); [|set (p0 := q) in *]
  end.
  { unfold tidy, ready, well_formed.
    cbn [Entity.fields Entity.lastFrameInfo Entity.isSetup ParallelEntity.entities
         ParallelEntity.entityConfigs ParallelEntity.entityIsActive].
    destruct (walk_length (setup_step f cfg cfgs) es 0 act) as [Hl1 Hl2].
    split; [split; [split; [now apply walk_no_null|split; lia]|discriminate]|].
    split; [reflexivity|].
    apply (walk_flags _ es act (fun _ _ => True) Hnn Hlen); [|trivial].
    intros i c a _. unfold setup_step.
    destruct (e_isSetup c) eqn:E; cbn [fst snd]; [exact E|apply Hds]. }
  clearbody p0. rewrite run_app.
  destruct (parallel_run_tidy os Hd p0 Hos Hq) as [(p1 & tr1 & Hrun & Hp1)|Hrun];
    rewrite Hrun; [|now right].
  cbn [mbind result_bind ParallelEntity.run ParallelEntity.step].
  left. clear Hrun Hq p0.
  destruct p1 as [su1 ls1 rt1 c1 lf1 [es1 cfgs1 act1 auto1]].
  unfold tidy, ready, well_formed in Hp1.
  cbn [Entity.fields Entity.lastFrameInfo Entity.isSetup ParallelEntity.entities
       ParallelEntity.entityConfigs ParallelEntity.entityIsActive] in Hp1.
  destruct Hp1 as ([(Hnn1 & Hc1 & Ha1) Hlf1] & -> & Hfm1).
  assert (Hlen1 : length es1 = length act1) by lia.
  rewrite (parallel_teardown_eq f' true ls1 rt1 c1 lf1 es1 cfgs1 act1 auto1 Hlen1 Hnn1).
  cbn [mbind result_bind]. eexists _, _. split; [reflexivity|].
  cbn [Entity.fields Entity.isSetup ParallelEntity.entities
       ParallelEntity.entityIsActive ParallelEntity.active_at].
  split; [reflexivity|]. intros i c' Hc'.
  destruct (walk_length (teardown_step f') es1 0 act1) as [Hl1 Hl2].
  assert (Hi : i < length es1) by (apply lookup_lt_Some in Hc'; lia).
  destruct (no_null_lookup es1 i Hnn1 Hi) as [c Hci].
  destruct (lookup_lt_is_Some_2 act1 i) as [a Hai]; [lia|].
  destruct (walk_lookup (teardown_step f') es1 0 act1 i c a Hnn1 Hci Hai) as [H1 H2].
  rewrite H1 in Hc'. injection Hc' as <-.
  unfold ParallelEntity.active_at. cbn [ParallelEntity.entityIsActive].
  rewrite H2. pose proof (Hfm1 i c a Hci Hai) as Hca.
  unfold teardown_step. cbn [Nat.add default from_option id].
  destruct a; cbn [fst snd]; split; try reflexivity; [apply Hdt|exact Hca].
Qed.

End ParallelTidyFacts.

(** [parallel_children_released] on [parallel3_new]: an update at
    16 ms, a [Block] that is added, the first child removed, a signal. *)
Lemma parallel_children_released_witness :
  (exists p' tr,
     ParallelEntity.run
       (ParallelEntity.OpSetup (frame 0) VNull
          :: [ParallelEntity.OpUpdate (frame 16);
              ParallelEntity.OpAddEntity (Leaf.new Leaf.Block) (ACValue VNull);
              ParallelEntity.OpRemoveEntity (Member 0);
              ParallelEntity.OpOnSignal (frame 16) "pause" VNull]
          ++ [ParallelEntity.OpTeardown (frame 32)]) parallel3_new
       = Ok (p', tr) /\
     Entity.isSetup p' = false /\
     forall i c,
       ParallelEntity.entities (Entity.fields p') !! i = Some (Some c) ->
       e_isSetup c = false /\ ParallelEntity.active_at i (Entity.fields p') = false) \/
  ParallelEntity.run
    (ParallelEntity.OpSetup (frame 0) VNull
       :: [ParallelEntity.OpUpdate (frame 16);
           ParallelEntity.OpAddEntity (Leaf.new Leaf.Block) (ACValue VNull);
           ParallelEntity.OpRemoveEntity (Member 0);
           ParallelEntity.OpOnSignal (frame 16) "pause" VNull]
       ++ [ParallelEntity.OpTeardown (frame 32)]) parallel3_new
    = Throw (Error "Cannot find entity to remove").
Proof.
  apply (parallel_children_released (frame 0) VNull
           [ParallelEntity.OpUpdate (frame 16);
            ParallelEntity.OpAddEntity (Leaf.new Leaf.Block) (ACValue VNull);
            ParallelEntity.OpRemoveEntity (Member 0);
            ParallelEntity.OpOnSignal (frame 16) "pause" VNull]
           (frame 32) parallel3_new leaf_disciplined).
  - repeat split; vm_compute; reflexivity.
  - reflexivity.
Defined.
